(** * Speech evaluator: a shallow embedding of [speech_evaluator.py]

    The development follows the class [SpeechEvaluator]: the text
    toolkit, the five dimension scorers, the aggregator and the grade
    lookup, each definition carrying the name of the method it embeds.

    Modelling conventions.
    - A Python [str] is the list of its Unicode code points ([list N]);
      literals are written as UTF-8 text and decoded by [utf8].
    - A Python [float] (and an [int] used in float arithmetic) is an
      exact rational ([Q]); results are compared with [==].  Rounding of
      binary64 is outside this model; [math.sqrt] is the rational square
      root truncated to sixteen decimal places.  Of the binary64 range
      the model has the two places where leaving it is an error: [**]
      and [int] raise [OverflowError] beyond [float_max].  A float that
      is [inf] for another reason stays a rational here, so the
      theorems that state a completion bound the planned time.
    - Exceptions are values of [exn]; a method that may raise returns a
      [result].  True division raises [ZeroDivisionError] on a zero
      divisor, subscription of a missing key raises [KeyError], a square
      or a conversion to [int] out of range raises [OverflowError].
    - The items of [plan] and [script] are records whose fields are
      optional: [None] is an absent key, a present key holds a value of
      the type the data model gives it.
    - Character classes of the [re] and [str] libraries ([\w], [\d],
      [\s], [lower], [strip]) are exact on ASCII and on the CJK unified
      ideographs; other code points are caseless non-word characters,
      apart from the Unicode white space listed in [is_space]. *)

From Stdlib Require Import QArith Qpower Qabs Lqa.
From stdpp Require Import gmap strings list.
From Stdlib Require Import PrimFloat Sorted DecimalString.

Abbreviation str := (list N).

(** ** Text literals *)

Fixpoint utf8_go (s : string) (acc : N) (need : nat) : str :=
  match s with
  | EmptyString => []
  | String a s' =>
      let b := Ascii.N_of_ascii a in
      match need with
      | O =>
          if (b <? 128)%N then b :: utf8_go s' 0%N 0
          else if (b <? 224)%N then utf8_go s' (b - 192)%N 1
          else if (b <? 240)%N then utf8_go s' (b - 224)%N 2
          else utf8_go s' (b - 240)%N 3
      | S n =>
          let acc' := (acc * 64 + (b - 128))%N in
          match n with
          | O => acc' :: utf8_go s' 0%N 0
          | S _ => utf8_go s' acc' n
          end
      end
  end.

Definition utf8 (s : string) : str := utf8_go s 0%N 0.

(** ** Exceptions *)

Inductive exn :=
| JSONDecodeError
| AttributeError
| KeyError (key : string)
| ZeroDivisionError
| ValueError
| TypeError
| OverflowError.

Inductive result (A : Type) :=
| Ok (a : A)
| Raise (e : exn).
Arguments Ok {A} a.
Arguments Raise {A} e.

#[global] Instance result_ret : MRet result := λ A a, Ok a.
#[global] Instance result_bind : MBind result :=
  λ A B f m, match m with Ok a => f a | Raise e => Raise e end.

Definition is_ok {A} (m : result A) : bool :=
  match m with Ok _ => true | Raise _ => false end.

Definition is_key_error {A} (m : result A) : bool :=
  match m with Raise (KeyError _) => true | _ => false end.

(** [d[k]] and [d.get(k, default)] on an item field. *)
Definition getitem {A} (k : string) (field : option A) : result A :=
  match field with Some v => Ok v | None => Raise (KeyError k) end.

Definition get_default {A} (field : option A) (dflt : A) : A :=
  match field with Some v => v | None => dflt end.

(** ** Numbers *)

Definition Qnat (n : nat) : Q := inject_Z (Z.of_nat n).
Definition Qbool (b : bool) : Q := if b then 1%Q else 0%Q.

Definition Qleb (x y : Q) : bool := Qle_bool x y.
Definition Qltb (x y : Q) : bool := negb (Qle_bool y x).

(** [max(a, b)] and [min(a, b)]: the first argument wins a tie. *)
Definition py_max (a b : Q) : Q := if Qltb a b then b else a.
Definition py_min (a b : Q) : Q := if Qltb b a then b else a.

(** [x / y] *)
Definition py_div (x y : Q) : result Q :=
  if Qeq_bool y 0 then Raise ZeroDivisionError else Ok (x / y)%Q.

(** [math.sqrt] *)
Definition math_sqrt (x : Q) : result Q :=
  if Qltb x 0 then Raise ValueError
  else Ok (inject_Z (Z.sqrt (Qnum x * 10 ^ 32 / Z.pos (Qden x))) / inject_Z (10 ^ 16))%Q.

Definition Qsum (l : list Q) : Q := fold_left Qplus l 0%Q.

(** The largest finite binary64 value.  What lies beyond it is [inf] as a
    float: [**] raises [OverflowError] rather than return it, and so does
    [int] when it is given it. *)
Definition float_max : Q := inject_Z (2 ^ 1024 - 2 ^ 971).

(** [x ** 2] *)
Definition py_pow2 (x : Q) : result Q :=
  if Qleb (x ^ 2) float_max then Ok (x ^ 2)%Q else Raise OverflowError.

(** [int(x)] of a float: truncation toward zero. *)
Definition py_int (x : Q) : result Z :=
  if Qleb (Qabs x) float_max then Ok (Qnum x ÷ Z.pos (Qden x))%Z
  else Raise OverflowError.

(** ** The [str] methods the evaluator calls *)

Definition in_range (lo hi c : N) : bool := ((lo <=? c) && (c <=? hi))%N.

Definition is_AZ (c : N) : bool := in_range 65 90 c.
Definition is_az (c : N) : bool := in_range 97 122 c.
Definition is_digit (c : N) : bool := in_range 48 57 c.
Definition is_cjk (c : N) : bool := in_range 19968 40959 c.
Definition is_word (c : N) : bool :=
  is_AZ c || is_az c || is_digit c || (c =? 95)%N || is_cjk c.
Definition is_space (c : N) : bool :=
  in_range 9 13 c || in_range 28 32 c || (c =? 133)%N || (c =? 160)%N
  || (c =? 5760)%N || in_range 8192 8202 c || in_range 8232 8233 c
  || (c =? 8239)%N || (c =? 8287)%N || (c =? 12288)%N.

Definition chr_lower (c : N) : N := if is_AZ c then (c + 32)%N else c.
Definition str_lower (s : str) : str := map chr_lower s.

Fixpoint lstrip (s : str) : str :=
  match s with
  | c :: s' => if is_space c then lstrip s' else s
  | [] => []
  end.
Definition str_strip (s : str) : str := rev (lstrip (rev (lstrip s))).

(** [s.split()] *)
Fixpoint split_go (cur : str) (s : str) : list str :=
  match s with
  | [] => match cur with [] => [] | _ => [rev cur] end
  | c :: s' =>
      if is_space c then
        match cur with
        | [] => split_go [] s'
        | _ => rev cur :: split_go [] s'
        end
      else split_go (c :: cur) s'
  end.
Definition str_split (s : str) : list str := split_go [] s.

Fixpoint str_startswith (s p : str) : bool :=
  match p, s with
  | [], _ => true
  | a :: p', b :: s' => (a =? b)%N && str_startswith s' p'
  | _ :: _, [] => false
  end.

Definition str_endswith (s p : str) : bool := str_startswith (rev s) (rev p).

(** [sub in s] *)
Fixpoint str_in (sub s : str) : bool :=
  str_startswith s sub ||
  match s with
  | [] => false
  | _ :: s' => str_in sub s'
  end.

(** [s.count(sub)]: occurrences that do not overlap. *)
Fixpoint count_go (sub s : str) (skip : nat) : nat :=
  match s with
  | [] => 0
  | _ :: s' =>
      match skip with
      | S n => count_go sub s' n
      | O => if str_startswith s sub
             then S (count_go sub s' (length sub - 1))
             else count_go sub s' 0
      end
  end.
Definition str_count (s sub : str) : nat :=
  match sub with
  | [] => S (length s)
  | _ => count_go sub s 0
  end.

(** [sep.join(l)] *)
Fixpoint str_join (sep : str) (l : list str) : str :=
  match l with
  | [] => []
  | [x] => x
  | x :: l' => x ++ sep ++ str_join sep l'
  end.

(** [s.split(sep)[0]] for a one-character separator. *)
Fixpoint split_first (sep : N) (s : str) : str :=
  match s with
  | [] => []
  | c :: s' => if (c =? sep)%N then [] else c :: split_first sep s'
  end.

(** ** Regular expressions

    The patterns of the source are values of [regex]; [rmatch] is a
    backtracking matcher with greedy repetition, as [re] has it.  None
    of the source's patterns matches the empty string. *)

Inductive regex :=
| Chr (p : N → bool)
| Seq (a b : regex)
| Alt (a b : regex)
| Rep (lo : nat) (hi : option nat) (a : regex)
| Bnd.

Definition word_opt (c : option N) : bool :=
  match c with Some x => is_word x | None => false end.

Definition at_boundary (prev : option N) (s : str) : bool :=
  xorb (word_opt prev) (word_opt (head s)).

Definition more_allowed (hi : option nat) (cnt : nat) : bool :=
  match hi with Some h => cnt <? h | None => true end.

Fixpoint rmatch (r : regex) (prev : option N) (s : str)
    (k : option N → str → option str) {struct r} : option str :=
  match r with
  | Chr p =>
      match s with
      | c :: s' => if p c then k (Some c) s' else None
      | [] => None
      end
  | Seq a b => rmatch a prev s (λ prev' s', rmatch b prev' s' k)
  | Alt a b =>
      match rmatch a prev s k with
      | Some x => Some x
      | None => rmatch b prev s k
      end
  | Bnd => if at_boundary prev s then k prev s else None
  | Rep lo hi a =>
      (fix loop (fuel cnt : nat) (prev : option N) (s : str) : option str :=
         let stop := if lo <=? cnt then k prev s else None in
         match fuel with
         | O => stop
         | S fuel' =>
             if more_allowed hi cnt then
               match rmatch a prev s
                       (λ prev' s', if length s' <? length s
                                    then loop fuel' (S cnt) prev' s'
                                    else None) with
               | Some x => Some x
               | None => stop
               end
             else stop
         end) (length s) 0 prev s
  end.

(** The text left after a match of [r] at the head of [s]. *)
Definition match_at (r : regex) (prev : option N) (s : str) : option str :=
  rmatch r prev s (λ _ rest, Some rest).

(** [re.findall(r, s)] *)
Fixpoint findall_go (r : regex) (prev : option N) (s : str) (skip : nat) : list str :=
  match s with
  | [] => []
  | c :: s' =>
      match skip with
      | S n => findall_go r (Some c) s' n
      | O =>
          match match_at r prev s with
          | Some rest =>
              let len := length s - length rest in
              take len s :: findall_go r (Some c) s' (len - 1)
          | None => findall_go r (Some c) s' 0
          end
      end
  end.
Definition findall (r : regex) (s : str) : list str := findall_go r None s 0.

(** [re.search(r, s)]: the text of the leftmost match. *)
Fixpoint search_go (r : regex) (prev : option N) (s : str) : option str :=
  match s with
  | [] => None
  | c :: s' =>
      match match_at r prev s with
      | Some rest => Some (take (length s - length rest) s)
      | None => search_go r (Some c) s'
      end
  end.
Definition search (r : regex) (s : str) : option str := search_go r None s.

(** [re.split(r, s)] *)
Fixpoint re_split_go (r : regex) (prev : option N) (s : str) (skip : nat)
    (cur : str) : list str :=
  match s with
  | [] => [rev cur]
  | c :: s' =>
      match skip with
      | S n => re_split_go r (Some c) s' n cur
      | O =>
          match match_at r prev s with
          | Some rest =>
              match length s - length rest with
              | O => re_split_go r (Some c) s' 0 (c :: cur)
              | S n => rev cur :: re_split_go r (Some c) s' n []
              end
          | None => re_split_go r (Some c) s' 0 (c :: cur)
          end
      end
  end.
Definition re_split (r : regex) (s : str) : list str := re_split_go r None s 0 [].

Definition plus (a : regex) : regex := Rep 1 None a.
Definition star (a : regex) : regex := Rep 0 None a.
Definition opt (a : regex) : regex := Rep 0 (Some 1) a.
Definition lit (c : N) : regex := Chr (N.eqb c).
Definition one_of (l : list N) : regex := Chr (λ c, existsb (N.eqb c) l).

(** [float(text)] for a match of [\d+\.?\d*]. *)
Definition digit_val (c : N) : Z := Z.of_N (c - 48).
Definition digits_val (s : str) : Z := fold_left (λ acc c, acc * 10 + digit_val c)%Z s 0%Z.
Definition float_of_decimal (s : str) : Q :=
  let ip := split_first 46 s in
  let fp := drop (S (length ip)) s in
  (inject_Z (digits_val ip) + inject_Z (digits_val fp) / inject_Z (10 ^ Z.of_nat (length fp)))%Q.

(** ** Data model *)

Record PlanItem := {
  plan_slide : option Z;
  plan_title : option str;
  plan_duration : option str;
  plan_content : option str
}.

Record ScriptItem := {
  script_slide : option Z;
  script_text : option str
}.

Record SpeechEvaluator := {
  slides_content : str;
  plan : list PlanItem;
  script : list ScriptItem
}.

(** [[s['text'] for s in self.script]] joined with a blank. *)
Definition speech_text_of (self : SpeechEvaluator) : result str :=
  texts ← mapM (λ s, getitem "text" (script_text s)) (script self);
  mret (str_join (utf8 " ") texts).

(** ** Structure: duration parsing *)

Definition number_re : regex := Seq (plus (Chr is_digit)) (Seq (opt (lit 46)) (star (Chr is_digit))).

Definition _parse_duration (duration_str : str) : Q :=
  match duration_str with
  | [] => 0
  | _ =>
      let duration_str := str_strip (str_lower duration_str) in
      match search number_re duration_str with
      | None => 0
      | Some number_match =>
          let number := float_of_decimal number_match in
          if str_in (utf8 "second") duration_str || str_endswith duration_str (utf8 "s")
          then number / 60
          else if str_in (utf8 "hour") duration_str || str_endswith duration_str (utf8 "h")
          then number * 60
          else number
      end
  end%Q.

(** ** 1. Content consistency *)

Definition Counter (l : list str) : gmap str nat :=
  fold_left (λ m w, <[w := S (default 0 (m !! w))]> m) l ∅.

Definition stopwords : list str :=
  map utf8
    ["the"; "a"; "an"; "and"; "or"; "but"; "in"; "on"; "at";
     "to"; "for"; "of"; "with"; "by"; "from"; "is"; "are";
     "was"; "were"; "be"; "been"; "have"; "has"; "had";
     "this"; "that"; "these"; "those"; "will"; "would";
     "这个"; "那个"; "可以"; "我们"; "他们"; "什么"; "怎么"].

Definition english_word_re : regex := Seq Bnd (Seq (Rep 4 None (Chr is_az)) Bnd).
Definition chinese_word_re : regex := Rep 2 (Some 4) (Chr is_cjk).

Definition _extract_keywords (text : str) : gmap str nat :=
  let text := str_lower text in
  let english_words := findall english_word_re text in
  let chinese_words := findall chinese_word_re text in
  let all_words := english_words ++ chinese_words in
  let keywords := filter (λ w, w ∉ stopwords) all_words in
  Counter keywords.

Definition capitalized : regex := Seq (Chr is_AZ) (plus (Chr is_az)).
Definition title_case_re : regex :=
  Seq Bnd (Seq capitalized (Seq (star (Seq (plus (Chr is_space)) capitalized)) Bnd)).
Definition hyphenated_re : regex :=
  Seq Bnd (Seq (plus (Chr is_az)) (Seq (lit 45) (Seq (plus (Chr is_az))
    (Seq (star (Seq (lit 45) (plus (Chr is_az)))) Bnd)))).
Definition chinese_concept_re : regex := Rep 3 (Some 8) (Chr is_cjk).
Definition abbreviation_re : regex := Seq Bnd (Seq (Rep 2 None (Chr is_AZ)) Bnd).

Definition _extract_key_concepts (text : str) : gset str :=
  let english_concepts := findall title_case_re text in
  let english_concepts := english_concepts ++ findall hyphenated_re text in
  let chinese_concepts := findall chinese_concept_re text in
  let abbreviations := findall abbreviation_re text in
  let all_concepts : gset str :=
    list_to_set (english_concepts ++ chinese_concepts ++ abbreviations) in
  filter (λ c, 3 ≤ length c) all_concepts.

(** The two kinds of collection [_calculate_coverage] is called with. *)
Inductive items :=
| ICounter (c : gmap str nat)
| ISet (s : gset str).

Definition items_empty (x : items) : bool :=
  match x with
  | ICounter c => bool_decide (c = ∅)
  | ISet s => bool_decide (s = ∅)
  end.

Definition _calculate_coverage (source_items target_items : items) : result Q :=
  if items_empty source_items then Ok 1%Q
  else
    match source_items with
    | ICounter c =>
        let source_keys := dom c in
        let target_keys :=
          match target_items with ICounter t => dom t | ISet t => t end in
        let covered := size (source_keys ∩ target_keys) in
        py_div (Qnat covered) (Qnat (size source_keys))
    | ISet s =>
        match target_items with
        | ISet t =>
            let covered := size (s ∩ t) in
            py_div (Qnat covered) (Qnat (size s))
        | ICounter _ => Raise TypeError
        end
    end.

Definition word_re : regex := Seq Bnd (Seq (plus (Chr is_word)) Bnd).

Definition title_covered (speech_text title : str) : bool :=
  let title_words := findall word_re (str_lower title) in
  let matches :=
    length (filter (λ word, str_in word speech_text && (3 <? length word)) title_words) in
  Qleb (Qnat (length title_words) / 2) (Qnat matches).

Definition _check_slide_title_coverage (self : SpeechEvaluator) : result Q :=
  let plan_titles :=
    filter (λ t, t ≠ []) (map (λ p, get_default (plan_title p) []) (plan self)) in
  match plan_titles with
  | [] => Ok 1%Q
  | _ =>
      speech_text ← speech_text_of self;
      let speech_text := str_lower speech_text in
      let covered :=
        fold_left (λ covered title,
                     if title_covered speech_text title then S covered else covered)
                  plan_titles 0 in
      py_div (Qnat covered) (Qnat (length plan_titles))
  end.

Definition digits (lo : nat) (hi : option nat) : regex := Rep lo hi (Chr is_digit).
Definition fact_number_re : regex :=
  Alt (Seq Bnd (Seq (digits 4 (Some 4)) Bnd))
    (Alt (Seq Bnd (Seq (digits 1 None) (Seq (lit 37) Bnd)))
         (Seq Bnd (Seq (digits 1 None) (Seq (lit 46) (Seq (digits 1 None) Bnd))))).
Definition fact_name_re : regex :=
  Seq Bnd (Seq capitalized (Seq (plus (Chr is_space)) (Seq capitalized Bnd))).

Definition _check_fact_consistency (self : SpeechEvaluator) : result Q :=
  let slides_numbers := findall fact_number_re (slides_content self) in
  let slides_names := findall fact_name_re (slides_content self) in
  speech_text ← speech_text_of self;
  let speech_numbers := findall fact_number_re speech_text in
  let speech_names := findall fact_name_re speech_text in
  let total_facts := length slides_numbers + length slides_names in
  if total_facts =? 0 then Ok 1%Q
  else
    let matched_facts := 0 in
    let matched_facts :=
      matched_facts + length (filter (λ num, str_in num speech_text) slides_numbers) in
    let matched_facts :=
      matched_facts + length (filter (λ name, str_in name speech_text) slides_names) in
    py_div (Qnat matched_facts) (Qnat total_facts).

Definition _detect_hallucination_risk (source_keywords target_keywords : gmap str nat)
    : result Q :=
  if bool_decide (target_keywords = ∅) then Ok 0%Q
  else
    let new_keywords := dom target_keywords ∖ dom source_keywords in
    risk_ratio ← py_div (Qnat (size new_keywords)) (Qnat (size target_keywords));
    if Qleb risk_ratio 0.3 then Ok (risk_ratio / 0.3 * 0.3)%Q
    else Ok (0.3 + (risk_ratio - 0.3) / 0.7 * 0.7)%Q.

Record ContentConsistency := {
  keyword_coverage : Q;
  concept_coverage : Q;
  slide_title_coverage : Q;
  fact_accuracy : Q;
  hallucination_risk_score : Q;
  content_overall_score : Q
}.

Definition evaluate_content_consistency (self : SpeechEvaluator)
    : result ContentConsistency :=
  let slides_keywords := _extract_keywords (slides_content self) in
  let slides_concepts := _extract_key_concepts (slides_content self) in
  speech_text ← speech_text_of self;
  let speech_keywords := _extract_keywords speech_text in
  let speech_concepts := _extract_key_concepts speech_text in
  keyword_coverage ← _calculate_coverage (ICounter slides_keywords) (ICounter speech_keywords);
  concept_coverage ← _calculate_coverage (ISet slides_concepts) (ISet speech_concepts);
  slide_coverage ← _check_slide_title_coverage self;
  hallucination_risk ← _detect_hallucination_risk slides_keywords speech_keywords;
  fact_accuracy ← _check_fact_consistency self;
  mret {| keyword_coverage := keyword_coverage;
          concept_coverage := concept_coverage;
          slide_title_coverage := slide_coverage;
          fact_accuracy := fact_accuracy;
          hallucination_risk_score := hallucination_risk;
          content_overall_score :=
            (keyword_coverage + concept_coverage + slide_coverage + fact_accuracy
             + (1 - hallucination_risk)) / 5 |}%Q.

(** ** 2. Structure *)

(** [all(l[i] <= l[i+1] for i in range(len(l)-1))] *)
Definition non_decreasing (l : list Z) : bool :=
  forallb (λ i, (nth i l 0 <=? nth (i + 1) l 0)%Z) (seq 0 (length l - 1)).

Definition _evaluate_coherence (self : SpeechEvaluator) : result Q :=
  slide_numbers ← mapM (λ p, getitem "slide" (plan_slide p)) (plan self);
  script_slides ← mapM (λ s, getitem "slide" (script_slide s)) (script self);
  let is_sequential := non_decreasing slide_numbers in
  let script_sequential := non_decreasing script_slides in
  let plan_slides : gset Z := list_to_set slide_numbers in
  let script_slide_set : gset Z := list_to_set script_slides in
  coverage ←
    (if bool_decide (plan_slides = ∅) then Ok 1%Q
     else py_div (Qnat (size (plan_slides ∩ script_slide_set))) (Qnat (size plan_slides)));
  mret ((Qbool is_sequential + Qbool script_sequential + coverage) / 3)%Q.

(** The loop that opens [_evaluate_time_balance], [_evaluate_time_distribution]
    and [_evaluate_pace]: the parsed durations that are positive. *)
Definition timed_durations (self : SpeechEvaluator) : list Q :=
  filter (λ duration_minutes, Qltb 0 duration_minutes)
    (map (λ p, _parse_duration (get_default (plan_duration p) (utf8 "0 minute")))
         (plan self)).

Definition _evaluate_time_balance (self : SpeechEvaluator) : result Q :=
  let durations := timed_durations self in
  if (length durations =? 0) || (length durations <? 3) then Ok 1%Q
  else
    mean ← py_div (Qsum durations) (Qnat (length durations));
    if Qeq_bool mean 0 then Ok 0%Q
    else
      squares ← mapM (λ x, py_pow2 (x - mean)) durations;
      variance ← py_div (Qsum squares) (Qnat (length durations));
      std_dev ← math_sqrt variance;
      cv ← py_div std_dev mean;
      let balance_score := py_max 0 (1 - cv) in
      mret (py_min balance_score 1).

Definition transition_phrases : list str :=
  map utf8
    ["let's"; "next"; "now"; "moving"; "turn to"; "consider";
     "however"; "therefore"; "furthermore"; "additionally";
     "in conclusion"; "to summarize"; "brings us to";
     "接下来"; "现在"; "然后"; "因此"; "此外"; "总之";
     "让我们"; "下面"; "首先"; "其次"; "最后"].

Definition has_transition (text : str) : bool :=
  let first_sentence :=
    if str_in (utf8 ".") text then split_first 46 text else text in
  existsb (λ phrase, str_in phrase (str_lower first_sentence)) transition_phrases.

Fixpoint transitions_loop (i : nat) (items : list ScriptItem) (transition_count : nat)
    : result nat :=
  match items with
  | [] => Ok transition_count
  | script :: rest =>
      if i =? 0 then transitions_loop (S i) rest transition_count
      else
        text ← getitem "text" (script_text script);
        let text := str_lower text in
        if has_transition text
        then transitions_loop (S i) rest (S transition_count)
        else transitions_loop (S i) rest transition_count
  end.

Definition _evaluate_transitions (self : SpeechEvaluator) : result Q :=
  transition_count ← transitions_loop 0 (script self) 0;
  let ideal_transitions := (Z.of_nat (length (script self)) - 1)%Z in
  if (0 <? ideal_transitions)%Z
  then py_div (Qnat transition_count) (inject_Z ideal_transitions)
  else Ok 1%Q.

Definition enumerate {A} (l : list A) : list (nat * A) := imap pair l.

(** The three checks of [_evaluate_organization]. *)
Definition plan_title_lower (p : PlanItem) : str :=
  str_lower (get_default (plan_title p) []).

Definition has_intro (self : SpeechEvaluator) : bool :=
  existsb (λ '(i, p),
             str_in (utf8 "introduction") (plan_title_lower p)
             || str_in (utf8 "intro") (plan_title_lower p)
             || (i =? 0))
          (enumerate (plan self)).

Definition has_conclusion (self : SpeechEvaluator) : bool :=
  existsb (λ '(i, p),
             str_in (utf8 "conclusion") (plan_title_lower p)
             || str_in (utf8 "summary") (plan_title_lower p)
             || str_in (utf8 "q&a") (plan_title_lower p)
             || (Z.of_nat i =? Z.of_nat (length (plan self)) - 1)%Z)
          (enumerate (plan self)).

Definition has_body (self : SpeechEvaluator) : bool := 3 <=? length (plan self).

Definition _evaluate_organization (self : SpeechEvaluator) : Q :=
  ((Qbool (has_intro self) + Qbool (has_conclusion self) + Qbool (has_body self)) / 3)%Q.

Record Structure := {
  coherence_score : Q;
  time_balance_score : Q;
  transition_score : Q;
  organization_score : Q;
  structure_overall_score : Q
}.

Definition evaluate_structure (self : SpeechEvaluator) : result Structure :=
  coherence_score ← _evaluate_coherence self;
  time_balance ← _evaluate_time_balance self;
  transition_score ← _evaluate_transitions self;
  let organization_score := _evaluate_organization self in
  mret {| coherence_score := coherence_score;
          time_balance_score := time_balance;
          transition_score := transition_score;
          organization_score := organization_score;
          structure_overall_score :=
            (coherence_score + time_balance + transition_score + organization_score) / 4 |}%Q.

(** ** 3. Language quality *)

Definition sentence_end_re : regex := plus (one_of [46; 33; 63; 12290; 33; 63]%N).

Definition _evaluate_clarity (self : SpeechEvaluator) : result Q :=
  all_text ← speech_text_of self;
  let sentences := re_split sentence_end_re all_text in
  let sentences := map str_strip (filter (λ s, str_strip s ≠ []) sentences) in
  match sentences with
  | [] => Ok 0%Q
  | _ =>
      avg_length ← py_div (Qnat (sum_list (map (λ s, length (str_split s)) sentences)))
                          (Qnat (length sentences));
      if Qleb 12 avg_length && Qleb avg_length 25 then Ok 1%Q
      else if Qltb avg_length 12 then Ok (0.7 + (avg_length / 12) * 0.3)%Q
      else Ok (py_max 0.3 (1 - (avg_length - 25) / 25))%Q
  end.

Definition conversational_markers : list str :=
  map utf8
    ["let's"; "we'll"; "i'm"; "you'll"; "we're"; "i'll";
     "today"; "now"; "here"; "our"; "my"; "your";
     "everyone"; "thank you"; "hello"; "hi";
     "大家"; "我们"; "今天"; "现在"; "让我们";
     "你们"; "咱们"; "这里"; "那么"].

Definition _evaluate_conversational_style (self : SpeechEvaluator) : result Q :=
  all_text ← speech_text_of self;
  let all_text := str_lower all_text in
  let words := str_split all_text in
  let marker_count :=
    length (filter (λ word, existsb (λ marker, str_in marker word) conversational_markers)
                   words) in
  ratio ←
    match words with
    | [] => Ok 0%Q
    | _ => q ← py_div (Qnat marker_count) (Qnat (length words)); mret (q * 100)%Q
    end;
  if Qleb 2 ratio && Qleb ratio 6 then Ok 1%Q
  else if Qltb ratio 2 then Ok (ratio / 2)%Q
  else Ok (py_max 0.5 (1 - (ratio - 6) / 10))%Q.

Definition ascii_word_re : regex := Seq Bnd (Seq (plus (Chr is_az)) Bnd).
Definition chinese_run_re : regex := plus (Chr is_cjk).

Definition _evaluate_vocabulary (self : SpeechEvaluator) : result Q :=
  all_text ← speech_text_of self;
  let all_text := str_lower all_text in
  let words := findall ascii_word_re all_text in
  let chinese_words := findall chinese_run_re all_text in
  let all_words := words ++ chinese_words in
  match all_words with
  | [] => Ok 0%Q
  | _ =>
      let unique_words := size (list_to_set all_words : gset str) in
      let total_words := length all_words in
      ttr ← py_div (Qnat unique_words) (Qnat total_words);
      if Qleb 0.35 ttr && Qleb ttr 0.65 then Ok 1%Q
      else if Qltb ttr 0.35 then Ok (ttr / 0.35)%Q
      else Ok (py_max 0.6 (1 - (ttr - 0.65) / 0.35))%Q
  end.

Definition technical_terms : list str :=
  map utf8
    ["llm"; "large language model"; "fact-checking"; "hallucination";
     "argumentation"; "evidence"; "verification"; "benchmark";
     "algorithm"; "dataset"; "evaluation"; "accuracy"].

Definition _evaluate_professionalism (self : SpeechEvaluator) : result Q :=
  all_text ← speech_text_of self;
  let term_usage :=
    length (filter (λ term, str_in term (str_lower all_text)) technical_terms) in
  q ← py_div (Qnat term_usage) (Qnat (length technical_terms) / 2);
  mret (py_min q 1).

Record LanguageQuality := {
  clarity_score : Q;
  conversational_score : Q;
  vocabulary_richness : Q;
  professionalism_score : Q;
  language_overall_score : Q
}.

Definition evaluate_language_quality (self : SpeechEvaluator) : result LanguageQuality :=
  clarity_score ← _evaluate_clarity self;
  conversational_score ← _evaluate_conversational_style self;
  vocabulary_richness ← _evaluate_vocabulary self;
  professionalism ← _evaluate_professionalism self;
  mret {| clarity_score := clarity_score;
          conversational_score := conversational_score;
          vocabulary_richness := vocabulary_richness;
          professionalism_score := professionalism;
          language_overall_score :=
            (clarity_score + conversational_score + vocabulary_richness
             + professionalism) / 4 |}%Q.

(** ** 4. Detail richness *)

Definition _calculate_expansion_ratio (self : SpeechEvaluator) : result Q :=
  let slides_words := length (str_split (slides_content self)) in
  all_text ← speech_text_of self;
  let speech_words := length (str_split all_text) in
  if slides_words =? 0 then Ok 0%Q
  else
    ratio ← py_div (Qnat speech_words) (Qnat slides_words);
    if Qleb 1.5 ratio && Qleb ratio 3 then Ok 1%Q
    else if Qltb ratio 1.5 then Ok (ratio / 1.5)%Q
    else Ok (py_max 0.5 (1 - (ratio - 3) / 3))%Q.

Definition example_indicators : list str :=
  map utf8
    ["example"; "for instance"; "such as"; "like";
     "consider"; "let's take"; "case"; "illustrate";
     "例如"; "比如"; "举例"; "案例"; "考虑"].

Definition _check_example_usage (self : SpeechEvaluator) : result Q :=
  all_text ← speech_text_of self;
  let all_text := str_lower all_text in
  let example_count := sum_list (map (λ indicator, str_count all_text indicator)
                                     example_indicators) in
  let ideal_examples := (Qnat (length (script self)) / 4.5)%Q in
  q ← py_div (Qnat example_count) (py_max ideal_examples 1);
  let score := py_min q 1 in
  mret score.

Definition explanation_markers : list str :=
  map utf8
    ["this means"; "in other words"; "specifically";
     "that is"; "namely"; "essentially"; "simply put";
     "也就是说"; "换句话说"; "具体来说"; "简单来说"].

Definition _evaluate_explanations (self : SpeechEvaluator) : result Q :=
  all_text ← speech_text_of self;
  let all_text := str_lower all_text in
  let explanation_count := sum_list (map (λ marker, str_count all_text marker)
                                         explanation_markers) in
  let ideal_explanations := (Qnat (length (script self)) / 3)%Q in
  q ← py_div (Qnat explanation_count) (py_max ideal_explanations 1);
  let score := py_min q 1 in
  mret score.

Definition context_keywords : list str :=
  map utf8
    ["background"; "motivation"; "why"; "important"; "challenge";
     "problem"; "goal"; "objective"; "significance";
     "背景"; "动机"; "为什么"; "重要"; "挑战"; "问题"; "目标"; "意义"].

Definition _evaluate_context (self : SpeechEvaluator) : result Q :=
  all_text ← speech_text_of self;
  let all_text := str_lower all_text in
  let context_count :=
    length (filter (λ keyword, str_in keyword all_text) context_keywords) in
  mret (py_min (Qnat context_count / 4) 1).

Record DetailRichness := {
  expansion_ratio_score : Q;
  example_usage_score : Q;
  explanation_quality : Q;
  context_provision : Q;
  detail_overall_score : Q
}.

Definition evaluate_detail_richness (self : SpeechEvaluator) : result DetailRichness :=
  expansion_ratio ← _calculate_expansion_ratio self;
  example_usage ← _check_example_usage self;
  explanation_quality ← _evaluate_explanations self;
  context_provision ← _evaluate_context self;
  mret {| expansion_ratio_score := expansion_ratio;
          example_usage_score := example_usage;
          explanation_quality := explanation_quality;
          context_provision := context_provision;
          detail_overall_score :=
            (expansion_ratio + example_usage + explanation_quality
             + context_provision) / 4 |}%Q.

(** ** 5. Time management *)

Definition _calculate_total_time (self : SpeechEvaluator) : Q :=
  fold_left (λ total p,
               total + _parse_duration (get_default (plan_duration p) (utf8 "0 minute")))%Q
            (plan self) 0%Q.

Definition _evaluate_duration_appropriateness (self : SpeechEvaluator) (total_minutes : Q)
    : result Q :=
  let num_slides := length (plan self) in
  let ideal_min := (Qnat num_slides * 1)%Q in
  let ideal_max := (Qnat num_slides * 2.5)%Q in
  if Qleb ideal_min total_minutes && Qleb total_minutes ideal_max then Ok 1%Q
  else if Qltb total_minutes ideal_min then py_div total_minutes ideal_min
  else
    q ← py_div (total_minutes - ideal_max) ideal_max;
    mret (py_max 0.4 (1 - q)).

Definition _evaluate_time_distribution (self : SpeechEvaluator) : Q :=
  let durations := timed_durations self in
  if length durations <? 3 then 1%Q
  else
    let intro_ok := Qleb (nth 0 durations 0%Q) 2 in
    let outro_ok := Qleb (List.last durations 0%Q) 2 in
    let middle_durations :=
      if 2 <? length durations
      then drop 1 (take (length durations - 1) durations)
      else durations in
    let middle_ok := forallb (λ d, Qleb 1 d) middle_durations in
    ((Qbool intro_ok + Qbool outro_ok + Qbool middle_ok) / 3)%Q.

(** [d > mean * 2 or d < mean * 0.5] *)
Definition extreme (mean d : Q) : bool := Qltb (mean * 2) d || Qltb d (mean * 0.5).

Definition _evaluate_pace (self : SpeechEvaluator) : result Q :=
  let durations := timed_durations self in
  match durations with
  | [] => Ok 1%Q
  | _ =>
      mean ← py_div (Qsum durations) (Qnat (length durations));
      let extreme_count := length (filter (extreme mean) durations) in
      q ← py_div (Qnat extreme_count) (Qnat (length durations));
      mret (py_max 0 (1 - q))
  end.

Record TimeManagement := {
  total_minutes : Q;
  duration_appropriateness : Q;
  time_distribution_score : Q;
  pace_consistency : Q;
  time_overall_score : Q
}.

Definition evaluate_time_management (self : SpeechEvaluator) : result TimeManagement :=
  let total_time := _calculate_total_time self in
  duration_appropriateness ← _evaluate_duration_appropriateness self total_time;
  let time_distribution := _evaluate_time_distribution self in
  pace_consistency ← _evaluate_pace self;
  mret {| total_minutes := total_time;
          duration_appropriateness := duration_appropriateness;
          time_distribution_score := time_distribution;
          pace_consistency := pace_consistency;
          time_overall_score :=
            (duration_appropriateness + time_distribution + pace_consistency) / 3 |}%Q.

(** ** Aggregation *)

Definition _get_grade (score : Q) : str :=
  if Qleb 0.90 score then utf8 "A+ (优秀)"
  else if Qleb 0.85 score then utf8 "A (优秀)"
  else if Qleb 0.80 score then utf8 "B+ (良好)"
  else if Qleb 0.75 score then utf8 "B (良好)"
  else if Qleb 0.70 score then utf8 "C+ (中等)"
  else if Qleb 0.65 score then utf8 "C (中等)"
  else if Qleb 0.60 score then utf8 "D (及格)"
  else utf8 "F (不及格)".

Definition weights : list (string * Q) :=
  [("content_consistency", 0.30); ("structure", 0.25); ("language_quality", 0.20);
   ("detail_richness", 0.15); ("time_management", 0.10)]%Q.

(** The weights as the binary64 values Python reads from their literals,
    in the order of the [weights] dictionary. *)
#[local] Set Warnings "-inexact-float".
Definition weights_binary64 : list float := [0.30; 0.25; 0.20; 0.15; 0.10]%float.
#[local] Set Warnings "inexact-float".

(** The five dimension entries of [results]. *)
Record Dimensions := {
  content_consistency : ContentConsistency;
  structure : Structure;
  language_quality : LanguageQuality;
  detail_richness : DetailRichness;
  time_management : TimeManagement
}.

(** [results[key]['overall_score']] *)
Definition dimension_overall_score (results : Dimensions) (key : string) : result Q :=
  if String.eqb key "content_consistency" then Ok (content_overall_score (content_consistency results))
  else if String.eqb key "structure" then Ok (structure_overall_score (structure results))
  else if String.eqb key "language_quality" then Ok (language_overall_score (language_quality results))
  else if String.eqb key "detail_richness" then Ok (detail_overall_score (detail_richness results))
  else if String.eqb key "time_management" then Ok (time_overall_score (time_management results))
  else Raise (KeyError key).

Record Results := {
  dimensions : Dimensions;
  overall_score : Q;
  grade : str;
  result_weights : list (string * Q)
}.

Definition evaluate_all (self : SpeechEvaluator) : result Results :=
  cc ← evaluate_content_consistency self;
  st ← evaluate_structure self;
  lq ← evaluate_language_quality self;
  dr ← evaluate_detail_richness self;
  tm ← evaluate_time_management self;
  let results :=
    {| content_consistency := cc; structure := st; language_quality := lq;
       detail_richness := dr; time_management := tm |} in
  terms ← mapM (λ '(key, w), s ← dimension_overall_score results key; mret (s * w)%Q)
               weights;
  let overall_score := Qsum terms in
  mret {| dimensions := results;
          overall_score := overall_score;
          grade := _get_grade overall_score;
          result_weights := weights |}.

(** ** Report *)

Definition nl : str := [10%N].

(** [s * n]: the empty string when [n] is not positive. *)
Definition str_mul (s : str) (n : Z) : str := concat (replicate (Z.to_nat n) s).

(** [str(n)] of an [int]. *)
Definition str_of_int (n : Z) : str := utf8 (NilZero.string_of_int (Z.to_int n)).

(** The nearest integer, ties to the even one, of a value that is not
    negative. *)
Definition round_half_even (x : Q) : Z :=
  let q := (Qnum x / Z.pos (Qden x))%Z in
  let r := (Qnum x mod Z.pos (Qden x))%Z in
  match (2 * r ?= Z.pos (Qden x))%Z with
  | Lt => q
  | Gt => (q + 1)%Z
  | Eq => if Z.even q then q else (q + 1)%Z
  end.

(** [f"{x:.<precision>f}"]: the correctly rounded decimal expansion, here
    of the exact value. *)
Definition format_f (precision : nat) (x : Q) : str :=
  let unit := (10 ^ Z.of_nat precision)%Z in
  let scaled := round_half_even (Qabs x * inject_Z unit) in
  let fraction := str_of_int (scaled mod unit) in
  (if Qltb x 0 then utf8 "-" else [])
  ++ str_of_int (scaled / unit)
  ++ match precision with
     | O => []
     | _ => utf8 "." ++ replicate (precision - length fraction) 48%N ++ fraction
     end.

(** [f"{x:.<precision>%}"] *)
Definition format_percent (precision : nat) (x : Q) : str :=
  format_f precision (x * 100) ++ utf8 "%".

(** [f"{s:<width>s}"] *)
Definition format_s (width : nat) (s : str) : str := s ++ replicate (width - length s) 32%N.

(** [f"  {i+1}. {s}" for i, s in enumerate(suggestions)] *)
Definition numbered (suggestions : list str) : list str :=
  map (λ '(i, s), utf8 "  " ++ str_of_int (Z.of_nat i + 1) ++ utf8 ". " ++ s)
      (enumerate suggestions).

(** [if c: l.append(s)] *)
Definition when (c : bool) (s : str) : list str := if c then [s] else [].

(** The rules of [_generate_suggestions] whose messages are fixed. *)
Definition fixed_issues (results : Results) : list str :=
  let cc := content_consistency (dimensions results) in
  let st := structure (dimensions results) in
  let lq := language_quality (dimensions results) in
  let dr := detail_richness (dimensions results) in
  when (Qltb (keyword_coverage cc) 0.6)
       (utf8 " [高优先级] 关键词覆盖不足 - 确保幻灯片中的重要概念都在演讲稿中体现")
  ++ when (Qltb (slide_title_coverage cc) 0.7)
       (utf8 " [高优先级] 幻灯片标题覆盖不完整 - 每张幻灯片的主题都应在演讲中明确提及")
  ++ when (Qltb 0.4 (hallucination_risk_score cc))
       (utf8 " [高优先级] 幻觉风险较高 - 减少幻灯片中未出现的额外内容，保持一致性")
  ++ when (Qltb (fact_accuracy cc) 0.7)
       (utf8 " [高优先级] 事实准确性不足 - 确保幻灯片中的数字、人名等关键事实被准确传达")
  ++ when (Qltb (coherence_score st) 0.7)
       (utf8 " [中优先级] 逻辑连贯性有待提升 - 确保演讲内容按照幻灯片顺序展开")
  ++ when (Qltb (transition_score st) 0.5)
       (utf8 " [中优先级] 缺少过渡语句 - 在段落间添加'接下来'、'让我们看看'等过渡词")
  ++ when (Qltb (time_balance_score st) 0.6)
       (utf8 " [中优先级] 时间分配不均衡 - 调整各部分时长，避免某些部分过长或过短")
  ++ when (Qltb (conversational_score lq) 0.5)
       (utf8 " [中低优先级] 口语化程度不足 - 使用更多'我们'、'让我们'等口语化表达")
  ++ when (Qltb (clarity_score lq) 0.6)
       (utf8 " [中低优先级] 句子长度需优化 - 调整句子长度，建议12-25词为宜")
  ++ when (Qltb (professionalism_score lq) 0.6)
       (utf8 " [中低优先级] 专业性不足 - 适当使用幻灯片中的专业术语和概念")
  ++ when (Qltb (example_usage_score dr) 0.4)
       (utf8 " [低优先级] 缺少具体例子 - 为抽象概念添加具体案例说明")
  ++ when (Qltb (explanation_quality dr) 0.4)
       (utf8 " [低优先级] 解释不够充分 - 为技术术语和复杂概念提供更多解释")
  ++ when (Qltb (expansion_ratio_score dr) 0.5)
       (utf8 " [低优先级] 内容扩展不足 - 适当增加细节描述，丰富演讲内容").

(** The last rule of [_generate_suggestions], whose message shows the
    total time. *)
Definition duration_issue (results : Results) : result (list str) :=
  let tm := time_management (dimensions results) in
  if Qltb (duration_appropriateness tm) 0.6 then
    let total_mins := total_minutes tm in
    total_secs ← py_int (total_mins * 60);
    mret [utf8 "🟡 [中低优先级] 总时长需调整 - 当前" ++ format_f 1 total_mins
          ++ utf8 "分钟(" ++ str_of_int total_secs ++ utf8 "秒)，建议调整以匹配场合需求"]
  else mret [].

Definition priority_issues (results : Results) : result (list str) :=
  last_issue ← duration_issue results;
  mret (fixed_issues results ++ last_issue).

(** The list [_generate_suggestions] joins. *)
Definition suggestions (results : Results) : result (list str) :=
  issues ← priority_issues results;
  mret ((match issues with
         | [] => [utf8 " 整体质量优秀，各项指标均达标，继续保持！"]
         | issues => issues
         end)
        ++ (if Qltb (overall_score results) 0.7
            then [nl ++ utf8 " 总体建议: 重点关注内容一致性和结构合理性，这是演讲稿的基础"]
            else if Qltb (overall_score results) 0.85
            then [nl ++ utf8 " 总体建议: 在保持现有质量的基础上，可进一步优化语言表达和细节丰富度"]
            else [])).

Definition _generate_suggestions (results : Results) : result str :=
  lines ← suggestions results;
  mret (str_join nl (numbered lines)).

(** The list [_generate_strengths] joins. *)
Definition strengths (results : Results) : list str :=
  let cc := content_consistency (dimensions results) in
  let st := structure (dimensions results) in
  let lq := language_quality (dimensions results) in
  let dr := detail_richness (dimensions results) in
  let tm := time_management (dimensions results) in
  let strengths :=
    when (Qleb 0.75 (keyword_coverage cc))
         (utf8 "✓ 关键词覆盖全面，准确传达了幻灯片核心内容")
    ++ when (Qleb 0.8 (fact_accuracy cc))
         (utf8 "✓ 事实数据准确，保持了良好的信息一致性")
    ++ when (Qleb (hallucination_risk_score cc) 0.25)
         (utf8 "✓ 内容忠实于原材料，幻觉风险控制良好")
    ++ when (Qleb 0.8 (coherence_score st))
         (utf8 "✓ 逻辑结构清晰，演讲流程合理")
    ++ when (Qleb 0.65 (transition_score st))
         (utf8 "✓ 段落过渡自然，听众体验流畅")
    ++ when (Qleb 0.8 (organization_score st))
         (utf8 "✓ 整体组织结构完整，有明确的引入和总结")
    ++ when (Qleb 0.6 (conversational_score lq))
         (utf8 "✓ 口语化表达自然，适合现场演讲")
    ++ when (Qleb 0.75 (clarity_score lq))
         (utf8 "✓ 表达清晰易懂，句子长度适中")
    ++ when (Qleb 0.7 (professionalism_score lq))
         (utf8 "✓ 专业性强，恰当使用了学术术语")
    ++ when (Qleb 0.5 (example_usage_score dr))
         (utf8 "✓ 合理使用例子，帮助听众理解")
    ++ when (Qleb 0.5 (explanation_quality dr))
         (utf8 "✓ 解释充分，技术概念阐述清楚")
    ++ when (Qleb 0.65 (context_provision dr))
         (utf8 "✓ 提供了充足的背景信息")
    ++ when (Qleb 0.75 (duration_appropriateness tm))
         (utf8 "✓ 时长规划合理，符合演讲场合要求")
    ++ when (Qleb 0.7 (time_distribution_score tm))
         (utf8 "✓ 时间分配得当，重点突出") in
  match strengths with
  | [] => [utf8 "继续努力，提升各项指标"]
  | _ => strengths
  end.

Definition _generate_strengths (results : Results) : str :=
  str_join nl (map (λ s, utf8 "  • " ++ s) (strengths results)).

Definition name_map (key : string) : result str :=
  if String.eqb key "content_consistency" then Ok (utf8 "内容一致性")
  else if String.eqb key "structure" then Ok (utf8 "结构合理性")
  else if String.eqb key "language_quality" then Ok (utf8 "语言质量")
  else if String.eqb key "detail_richness" then Ok (utf8 "细节丰富度")
  else if String.eqb key "time_management" then Ok (utf8 "时间规划")
  else Raise (KeyError key).

(** The bar of a dimension in the overview. *)
Definition bar (score : Q) : result str :=
  bar_length ← py_int (score * 40);
  mret (str_mul (utf8 "█") bar_length ++ str_mul (utf8 "░") (40 - bar_length)).

(** The body of the loop over [results['weights'].items()]. *)
Definition overview_line (results : Results) (item : string * Q) : result str :=
  let '(key, weight) := item in
  score ← dimension_overall_score (dimensions results) key;
  bar ← bar score;
  name ← name_map key;
  mret (format_s 8 name ++ utf8 " (" ++ format_percent 0 weight ++ utf8 ") ["
        ++ bar ++ utf8 "] " ++ format_percent 1 score ++ nl).

(** A line of the detailed analysis: the value as a percentage and the
    mark its test selects. *)
Definition detail_line (label : string) (value : Q) (test : bool) (good bad : string) : str :=
  utf8 label ++ format_percent 1 value ++ utf8 "  "
  ++ utf8 (if test then good else bad) ++ nl.

Definition overall_line (value : Q) : str :=
  utf8 "  综合得分:         " ++ format_percent 1 value ++ nl ++ nl.

Definition generate_report (self : SpeechEvaluator) : result str :=
  results ← evaluate_all self;
  let total_time := _calculate_total_time self in
  total_time_secs ← py_int (total_time * 60);
  overview ← mapM (overview_line results) (result_weights results);
  let cc := content_consistency (dimensions results) in
  let st := structure (dimensions results) in
  let lq := language_quality (dimensions results) in
  let dr := detail_richness (dimensions results) in
  let tm := time_management (dimensions results) in
  let total_mins := total_minutes tm in
  total_secs ← py_int (total_mins * 60);
  suggestions ← _generate_suggestions results;
  let double_rule := str_mul (utf8 "=") 70 ++ nl in
  let rule := str_mul (utf8 "-") 70 ++ nl in
  let good := "✓ 优秀"%string in
  let bad := "✗ 需改进"%string in
  mret (concat [
    nl; double_rule;
    str_mul (utf8 " ") 20; utf8 "演讲稿质量评估报告"; nl;
    str_mul (utf8 " ") 20; utf8 "Speech Quality Evaluation Report"; nl;
    double_rule; nl;
    utf8 "【总体评分】 "; format_percent 1 (overall_score results); nl;
    utf8 "【评级等级】 "; grade results; nl;
    utf8 "【演讲时长】 "; format_f 1 total_time; utf8 "分钟 (";
      str_of_int total_time_secs; utf8 "秒)"; nl;
    utf8 "【幻灯片数】 "; str_of_int (Z.of_nat (length (plan self))); utf8 "张"; nl; nl;
    rule; utf8 "各维度得分总览:"; nl; rule;
    concat overview;
    nl; double_rule; utf8 "详细评分分析:"; nl; double_rule; nl;
    utf8 "【1. 内容一致性】 权重: 30%"; nl; rule;
    detail_line "  关键词覆盖率:     " (keyword_coverage cc)
                (Qleb 0.7 (keyword_coverage cc)) good bad;
    detail_line "  概念覆盖率:       " (concept_coverage cc)
                (Qleb 0.7 (concept_coverage cc)) good bad;
    detail_line "  标题覆盖率:       " (slide_title_coverage cc)
                (Qleb 0.8 (slide_title_coverage cc)) good bad;
    detail_line "  事实准确性:       " (fact_accuracy cc)
                (Qleb 0.8 (fact_accuracy cc)) good bad;
    detail_line "  幻觉风险评分:     " (hallucination_risk_score cc)
                (Qleb (hallucination_risk_score cc) 0.3) "✓ 风险低" "⚠ 风险较高";
    overall_line (content_overall_score cc);
    utf8 "【2. 结构合理性】 权重: 25%"; nl; rule;
    detail_line "  逻辑连贯性:       " (coherence_score st)
                (Qleb 0.8 (coherence_score st)) good bad;
    detail_line "  时间平衡性:       " (time_balance_score st)
                (Qleb 0.7 (time_balance_score st)) good bad;
    detail_line "  过渡自然性:       " (transition_score st)
                (Qleb 0.6 (transition_score st)) good bad;
    detail_line "  组织结构:         " (organization_score st)
                (Qleb 0.8 (organization_score st)) good bad;
    overall_line (structure_overall_score st);
    utf8 "【3. 语言质量】 权重: 20%"; nl; rule;
    detail_line "  表达清晰度:       " (clarity_score lq)
                (Qleb 0.7 (clarity_score lq)) good bad;
    detail_line "  口语化程度:       " (conversational_score lq)
                (Qleb 0.6 (conversational_score lq)) good bad;
    detail_line "  词汇丰富度:       " (vocabulary_richness lq)
                (Qleb 0.5 (vocabulary_richness lq)) good bad;
    detail_line "  专业性:           " (professionalism_score lq)
                (Qleb 0.7 (professionalism_score lq)) good bad;
    overall_line (language_overall_score lq);
    utf8 "【4. 细节丰富度】 权重: 15%"; nl; rule;
    detail_line "  内容扩展比:       " (expansion_ratio_score dr)
                (Qleb 0.7 (expansion_ratio_score dr)) good bad;
    detail_line "  例子使用:         " (example_usage_score dr)
                (Qleb 0.5 (example_usage_score dr)) good bad;
    detail_line "  解释质量:         " (explanation_quality dr)
                (Qleb 0.5 (explanation_quality dr)) good bad;
    detail_line "  背景信息:         " (context_provision dr)
                (Qleb 0.6 (context_provision dr)) good bad;
    overall_line (detail_overall_score dr);
    utf8 "【5. 时间规划】 权重: 10%"; nl; rule;
    utf8 "  总时长:           "; format_f 1 total_mins; utf8 " 分钟 (";
      str_of_int total_secs; utf8 "秒)  ";
      utf8 (if Qleb 10 total_mins && Qleb total_mins 30 then "✓ 合理" else "⚠ 注意"); nl;
    detail_line "  时长合理性:       " (duration_appropriateness tm)
                (Qleb 0.7 (duration_appropriateness tm)) good bad;
    detail_line "  时间分布:         " (time_distribution_score tm)
                (Qleb 0.6 (time_distribution_score tm)) good bad;
    detail_line "  节奏一致性:       " (pace_consistency tm)
                (Qleb 0.7 (pace_consistency tm)) good bad;
    overall_line (time_overall_score tm);
    double_rule; utf8 "改进建议:"; nl; double_rule;
    suggestions; nl;
    double_rule; utf8 "优点总结:"; nl; double_rule;
    _generate_strengths results; nl;
    double_rule; utf8 "评估完成!"; nl; double_rule
  ]).

(** ** Construction: [json.loads] and [__init__] *)

#[local] Unset Elimination Schemes.
Inductive json :=
| JNull
| JBool (b : bool)
| JNumber (lexeme : str)
| JString (s : str)
| JArray (l : list json)
| JObject (members : list (str * json)).
#[local] Set Elimination Schemes.

Definition is_json_ws (c : N) : bool :=
  (c =? 32)%N || (c =? 9)%N || (c =? 10)%N || (c =? 13)%N.

Fixpoint skip_ws (s : str) : str :=
  match s with
  | c :: s' => if is_json_ws c then skip_ws s' else s
  | [] => []
  end.

Definition hex_val (c : N) : option N :=
  if is_digit c then Some (c - 48)%N
  else if in_range 97 102 c then Some (c - 87)%N
  else if in_range 65 70 c then Some (c - 55)%N
  else None.

Definition hex4 (a b c d : N) : option N :=
  x ← hex_val a; y ← hex_val b; z ← hex_val c; w ← hex_val d;
  Some (((x * 16 + y) * 16 + z) * 16 + w)%N.

(** The characters of a string literal after its opening quote. *)
Fixpoint scan_string (s : str) (acc : str) : option (str * str) :=
  match s with
  | [] => None
  | 34%N :: rest => Some (rev acc, rest)
  | 92%N :: e :: rest =>
      if (e =? 117)%N then
        match rest with
        | a :: b :: c :: d :: rest' =>
            match hex4 a b c d with
            | None => None
            | Some hi =>
                match rest' with
                | 92%N :: 117%N :: a' :: b' :: c' :: d' :: rest'' =>
                    match hex4 a' b' c' d' with
                    | Some lo =>
                        if in_range 55296 56319 hi && in_range 56320 57343 lo
                        then scan_string rest''
                               ((65536 + (hi - 55296) * 1024 + (lo - 56320))%N :: acc)
                        else scan_string rest' (hi :: acc)
                    | None => scan_string rest' (hi :: acc)
                    end
                | _ => scan_string rest' (hi :: acc)
                end
            end
        | _ => None
        end
      else
        match (if (e =? 34)%N then Some 34 else if (e =? 92)%N then Some 92
               else if (e =? 47)%N then Some 47 else if (e =? 98)%N then Some 8
               else if (e =? 102)%N then Some 12 else if (e =? 110)%N then Some 10
               else if (e =? 114)%N then Some 13 else if (e =? 116)%N then Some 9
               else None)%N with
        | Some c => scan_string rest (c :: acc)
        | None => None
        end
  | c :: rest => if (c <? 32)%N then None else scan_string rest (c :: acc)
  end.

Definition json_number_re : regex :=
  Seq (opt (lit 45))
    (Seq (Alt (lit 48) (Seq (Chr (in_range 49 57)) (star (Chr is_digit))))
       (Seq (opt (Seq (lit 46) (plus (Chr is_digit))))
            (opt (Seq (one_of [101; 69]%N)
                      (Seq (opt (one_of [45; 43]%N)) (plus (Chr is_digit))))))).

Definition scan_literal (s : str) : option (json * str) :=
  let keyword (w : string) (v : json) :=
    if str_startswith s (utf8 w) then Some (v, drop (length (utf8 w)) s) else None in
  match keyword "null" JNull with
  | Some r => Some r
  | None =>
  match keyword "true" (JBool true) with
  | Some r => Some r
  | None =>
  match keyword "false" (JBool false) with
  | Some r => Some r
  | None =>
  match match_at json_number_re None s with
  | Some rest => Some (JNumber (take (length s - length rest) s), rest)
  | None =>
  match keyword "NaN" (JNumber (utf8 "NaN")) with
  | Some r => Some r
  | None =>
  match keyword "Infinity" (JNumber (utf8 "Infinity")) with
  | Some r => Some r
  | None => keyword "-Infinity" (JNumber (utf8 "-Infinity"))
  end end end end end end.

Fixpoint scan_value (fuel : nat) (s : str) : option (json * str) :=
  match fuel with
  | O => None
  | S fuel =>
      match s with
      | 34%N :: rest =>
          '(text, rest) ← scan_string rest []; Some (JString text, rest)
      | 91%N :: rest =>
          match skip_ws rest with
          | 93%N :: rest => Some (JArray [], rest)
          | rest => '(l, rest) ← scan_elements fuel rest; Some (JArray l, rest)
          end
      | 123%N :: rest =>
          match skip_ws rest with
          | 125%N :: rest => Some (JObject [], rest)
          | rest => '(m, rest) ← scan_members fuel rest; Some (JObject m, rest)
          end
      | _ => scan_literal s
      end
  end
with scan_elements (fuel : nat) (s : str) : option (list json * str) :=
  match fuel with
  | O => None
  | S fuel =>
      '(v, rest) ← scan_value fuel s;
      match skip_ws rest with
      | 44%N :: rest =>
          '(l, rest) ← scan_elements fuel (skip_ws rest); Some (v :: l, rest)
      | 93%N :: rest => Some ([v], rest)
      | _ => None
      end
  end
with scan_members (fuel : nat) (s : str) : option (list (str * json) * str) :=
  match fuel with
  | O => None
  | S fuel =>
      match s with
      | 34%N :: rest =>
          '(key, rest) ← scan_string rest [];
          match skip_ws rest with
          | 58%N :: rest =>
              '(v, rest) ← scan_value fuel (skip_ws rest);
              match skip_ws rest with
              | 44%N :: rest =>
                  '(m, rest) ← scan_members fuel (skip_ws rest);
                  Some ((key, v) :: m, rest)
              | 125%N :: rest => Some ([(key, v)], rest)
              | _ => None
              end
          | _ => None
          end
      | _ => None
      end
  end.

(** [json.loads]: [None] stands for [JSONDecodeError]. *)
Definition json_loads (s : str) : option json :=
  '(v, rest) ← scan_value (2 * length s + 2) (skip_ws s);
  match skip_ws rest with
  | [] => Some v
  | _ => None
  end.

(** [d.get(k, default)] on a decoded value; a repeated key keeps its last value. *)
Definition members_get (members : list (str * json)) (k : str) : option json :=
  snd <$> List.find (λ kv, bool_decide (fst kv = k)) (rev members).

Definition json_get (d : json) (k : str) (dflt : json) : result json :=
  match d with
  | JObject members => Ok (default dflt (members_get members k))
  | _ => Raise AttributeError
  end.

Definition strip_fences (speech_json_str : str) : str :=
  let speech_json_str := str_strip speech_json_str in
  let speech_json_str :=
    if str_startswith speech_json_str (utf8 "```json")
    then drop 7 speech_json_str else speech_json_str in
  let speech_json_str :=
    if str_startswith speech_json_str (utf8 "```")
    then drop 3 speech_json_str else speech_json_str in
  let speech_json_str :=
    if str_endswith speech_json_str (utf8 "```")
    then take (length speech_json_str - 3) speech_json_str else speech_json_str in
  str_strip speech_json_str.

(** The attributes [__init__] sets. *)
Record Attributes := {
  attr_slides_content : str;
  attr_speech_data : json;
  attr_plan : json;
  attr_script : json
}.

Definition __init__ (slides_text speech_json_str : str) : result Attributes :=
  let speech_json_str := strip_fences speech_json_str in
  match json_loads speech_json_str with
  | None => Raise JSONDecodeError
  | Some speech_data =>
      plan ← json_get speech_data (utf8 "plan") (JArray []);
      script ← json_get speech_data (utf8 "script") (JArray []);
      mret {| attr_slides_content := slides_text;
              attr_speech_data := speech_data;
              attr_plan := plan;
              attr_script := script |}
  end.

(** *** Reading the decoded arrays as items of the data model *)

Definition as_str (j : json) : option str :=
  match j with JString s => Some s | _ => None end.

Definition as_int (j : json) : option Z :=
  match j with
  | JNumber (45%N :: ds) =>
      if forallb is_digit ds then Some (- digits_val ds)%Z else None
  | JNumber ds => if forallb is_digit ds then Some (digits_val ds) else None
  | _ => None
  end.

(** An absent key reads as [None]; a key with a value of another type has
    no reading. *)
Definition field {A} (conv : json → option A) (members : list (str * json)) (k : string)
    : option (option A) :=
  match members_get members (utf8 k) with
  | None => Some None
  | Some v => Some <$> conv v
  end.

Definition plan_item_of (j : json) : option PlanItem :=
  match j with
  | JObject members =>
      slide ← field as_int members "slide";
      title ← field as_str members "title";
      duration ← field as_str members "duration";
      content ← field as_str members "content";
      Some {| plan_slide := slide; plan_title := title;
              plan_duration := duration; plan_content := content |}
  | _ => None
  end.

Definition script_item_of (j : json) : option ScriptItem :=
  match j with
  | JObject members =>
      slide ← field as_int members "slide";
      text ← field as_str members "text";
      Some {| script_slide := slide; script_text := text |}
  | _ => None
  end.

Definition items_of {A} (item_of : json → option A) (j : json) : option (list A) :=
  match j with
  | JArray l => mapM item_of l
  | _ => None
  end.

Definition evaluator_of (a : Attributes) : option SpeechEvaluator :=
  plan ← items_of plan_item_of (attr_plan a);
  script ← items_of script_item_of (attr_script a);
  Some {| slides_content := attr_slides_content a; plan := plan; script := script |}.

(** Payload literals are written with an apostrophe where the payload has a
    double quote. *)
Definition payload (s : string) : str :=
  map (λ c, if (c =? 39)%N then 34%N else c) (utf8 s).

(** ** Vocabulary of the properties *)

(** A value in the unit interval. *)
Definition unit_score (v : Q) : Prop := (0 <= v <= 1)%Q.

(** A computation that returns a value in the unit interval. *)
Definition returns_unit (m : result Q) : Prop := ∃ v, m = Ok v ∧ unit_score v.

(** Every script item has the key [text]. *)
Definition texts_present (self : SpeechEvaluator) : Prop :=
  Forall (λ s, is_Some (script_text s)) (script self).

(** Every plan item and every script item has the key [slide]. *)
Definition slides_present (self : SpeechEvaluator) : Prop :=
  Forall (λ p, is_Some (plan_slide p)) (plan self)
  ∧ Forall (λ s, is_Some (script_slide s)) (script self).

(** The keys the evaluator subscripts; [title] and [duration] are read
    with [get] and a default and are not among them. *)
Definition required_keys_present (self : SpeechEvaluator) : Prop :=
  texts_present self ∧ slides_present self.

#[global] Instance required_keys_present_dec self : Decision (required_keys_present self).
Proof. unfold required_keys_present, texts_present, slides_present. apply _. Defined.

(** The scores of each dimension are in the unit interval. *)
Definition content_in_range (c : ContentConsistency) : Prop :=
  unit_score (keyword_coverage c) ∧ unit_score (concept_coverage c)
  ∧ unit_score (slide_title_coverage c) ∧ unit_score (fact_accuracy c)
  ∧ unit_score (hallucination_risk_score c) ∧ unit_score (content_overall_score c).

Definition structure_in_range (s : Structure) : Prop :=
  unit_score (coherence_score s) ∧ unit_score (time_balance_score s)
  ∧ unit_score (transition_score s) ∧ unit_score (organization_score s)
  ∧ unit_score (structure_overall_score s).

Definition language_in_range (l : LanguageQuality) : Prop :=
  unit_score (clarity_score l) ∧ unit_score (conversational_score l)
  ∧ unit_score (vocabulary_richness l) ∧ unit_score (professionalism_score l)
  ∧ unit_score (language_overall_score l).

Definition detail_in_range (d : DetailRichness) : Prop :=
  unit_score (expansion_ratio_score d) ∧ unit_score (example_usage_score d)
  ∧ unit_score (explanation_quality d) ∧ unit_score (context_provision d)
  ∧ unit_score (detail_overall_score d).

(** [total_minutes] is a duration, the other entries are scores. *)
Definition time_in_range (t : TimeManagement) : Prop :=
  (0 <= total_minutes t)%Q
  ∧ unit_score (duration_appropriateness t) ∧ unit_score (time_distribution_score t)
  ∧ unit_score (pace_consistency t) ∧ unit_score (time_overall_score t).

(** [sum(results[key]['overall_score'] * weights[key] for key in weights)] *)
Definition weighted_sum (d : Dimensions) : Q :=
  (0 + content_overall_score (content_consistency d) * 0.30
     + structure_overall_score (structure d) * 0.25
     + language_overall_score (language_quality d) * 0.20
     + detail_overall_score (detail_richness d) * 0.15
     + time_overall_score (time_management d) * 0.10)%Q.

Definition dimensions_in_range (d : Dimensions) : Prop :=
  content_in_range (content_consistency d) ∧ structure_in_range (structure d)
  ∧ language_in_range (language_quality d) ∧ detail_in_range (detail_richness d)
  ∧ time_in_range (time_management d).

(** The rank of a grade label, [F] lowest. *)
Definition grade_rank (g : str) : nat :=
  if bool_decide (g = utf8 "A+ (优秀)") then 7
  else if bool_decide (g = utf8 "A (优秀)") then 6
  else if bool_decide (g = utf8 "B+ (良好)") then 5
  else if bool_decide (g = utf8 "B (良好)") then 4
  else if bool_decide (g = utf8 "C+ (中等)") then 3
  else if bool_decide (g = utf8 "C (中等)") then 2
  else if bool_decide (g = utf8 "D (及格)") then 1
  else 0.

(** The threshold table of the grade. *)
Definition grade_table (score : Q) : Prop :=
  ((0.90 <= score)%Q → _get_grade score = utf8 "A+ (优秀)")
  ∧ ((0.85 <= score < 0.90)%Q → _get_grade score = utf8 "A (优秀)")
  ∧ ((0.80 <= score < 0.85)%Q → _get_grade score = utf8 "B+ (良好)")
  ∧ ((0.75 <= score < 0.80)%Q → _get_grade score = utf8 "B (良好)")
  ∧ ((0.70 <= score < 0.75)%Q → _get_grade score = utf8 "C+ (中等)")
  ∧ ((0.65 <= score < 0.70)%Q → _get_grade score = utf8 "C (中等)")
  ∧ ((0.60 <= score < 0.65)%Q → _get_grade score = utf8 "D (及格)")
  ∧ ((score < 0.60)%Q → _get_grade score = utf8 "F (不及格)").

Definition timed_item (duration : string) : PlanItem :=
  {| plan_slide := None; plan_title := None;
     plan_duration := Some (utf8 duration); plan_content := None |}.

Definition keyed_item (slide : Z) (duration : string) : PlanItem :=
  {| plan_slide := Some slide; plan_title := None;
     plan_duration := Some (utf8 duration); plan_content := None |}.

(** A run of zeros, for long decimal numerals. *)
Fixpoint zeros (n : nat) : string :=
  match n with O => EmptyString | S n' => "0" +:+ zeros n' end.

(** A plan whose parsed durations are 0.5, 0.5 and 10 minutes. *)
Definition pace_scenario : SpeechEvaluator :=
  {| slides_content := [];
     plan := [timed_item "0.5 minute"; timed_item "0.5 minute"; timed_item "10 minute"];
     script := [] |}.

(** The sentence terminators of the specification: [.], [!], [?] and
    their CJK equivalents. *)
Definition sentence_terminators : list N := [46; 33; 63; 12290; 65281; 65311]%N.
Definition is_terminator (c : N) : bool := existsb (N.eqb c) sentence_terminators.

(** The leading clause of the specification: the text up to the first
    sentence terminator. *)
Fixpoint leading_clause (text : str) : str :=
  match text with
  | [] => []
  | c :: text' => if is_terminator c then [] else c :: leading_clause text'
  end.

(** The leading clause the code takes: the text up to the first full stop. *)
Definition first_sentence (text : str) : str := split_first 46 text.

(** A clause has one of the transition phrases, case ignored. *)
Definition mentions_transition (clause : str) : bool :=
  existsb (λ phrase, str_in phrase (str_lower clause)) transition_phrases.

(** The transitions score over the texts of the items, for a way to take
    the leading clause: with the clause of the specification, and with the
    clause of the code. *)
Definition transitions_score (clause : str → str) (texts : list str) : Q :=
  match texts with
  | [] | [_] => 1
  | _ :: later =>
      Qnat (length (filter (λ t, mentions_transition (clause t)) later))
      / Qnat (length later)
  end%Q.
Definition transitions_spec (texts : list str) : Q :=
  transitions_score leading_clause texts.
Definition transitions_by_full_stop (texts : list str) : Q :=
  transitions_score first_sentence texts.

(** A text whose only sentence terminator, if any, is the full stop. *)
Definition full_stops_only (text : str) : Prop :=
  Forall (λ c, is_terminator c = true → c = 46%N) text.

(** The planned time up to which binary64 neither overflows in the
    evaluation nor in the report, and a plan within it. *)
Definition duration_bound : Q := inject_Z (10 ^ 150).
Definition durations_bounded (self : SpeechEvaluator) : Prop :=
  (_calculate_total_time self <= duration_bound)%Q.

(** Characters on which the character classes of this development are
    those of Python in every version: ASCII and the CJK unified ideographs
    U+4E00 to U+9FA5.  Elsewhere [\d], [\w] and [lower] know digits, letters
    and cases that [is_digit], [is_word] and [chr_lower] do not. *)
Definition in_alphabet (c : N) : bool := (c <? 128)%N || in_range 19968 40869 c.

Definition spoken (slide : Z) (text : string) : ScriptItem :=
  {| script_slide := Some slide; script_text := Some (utf8 text) |}.

Record Run := {
  run_attributes : Attributes;
  run_evaluator : SpeechEvaluator;
  run_outcome : result Results
}.

(** Construction followed by [evaluate_all], for a payload whose arrays
    read as items of the data model. *)
Definition run (slides_text speech_json_str : str) : result (option Run) :=
  a ← __init__ slides_text speech_json_str;
  mret (self ← evaluator_of a;
        Some {| run_attributes := a; run_evaluator := self;
                run_outcome := evaluate_all self |}).

(** A one-slide talk planned for five minutes. *)
Definition five_minute_talk : SpeechEvaluator :=
  {| slides_content := utf8 "Results";
     plan := [{| plan_slide := Some 1%Z; plan_title := Some (utf8 "Results");
                 plan_duration := Some (utf8 "5 min"); plan_content := None |}];
     script := [spoken 1 "Here are the results."] |}.

(** The keys a collection is compared on. *)
Definition item_keys (x : items) : gset str :=
  match x with ICounter c => dom c | ISet s => s end.

(** A bar of forty cells, the filled ones first, as many of them as the
    integer part of forty times the score. *)
Definition forty_cells (score : Q) (cells : str) : Prop :=
  ∃ filled : nat,
    filled ≤ 40
    ∧ (inject_Z (Z.of_nat filled) <= score * 40 < inject_Z (Z.of_nat filled) + 1)%Q
    ∧ cells = replicate filled 9608%N ++ replicate (40 - filled) 9617%N.

(** The scores that [_generate_suggestions] and [_generate_strengths] both
    have a rule for: the heading of the issue and the strength. *)
Definition feedback_pairs : list (str * str) :=
  [(utf8 " [高优先级] 关键词覆盖不足", utf8 "✓ 关键词覆盖全面，准确传达了幻灯片核心内容");
   (utf8 " [高优先级] 事实准确性不足", utf8 "✓ 事实数据准确，保持了良好的信息一致性");
   (utf8 " [高优先级] 幻觉风险较高", utf8 "✓ 内容忠实于原材料，幻觉风险控制良好");
   (utf8 " [中优先级] 逻辑连贯性有待提升", utf8 "✓ 逻辑结构清晰，演讲流程合理");
   (utf8 " [中优先级] 缺少过渡语句", utf8 "✓ 段落过渡自然，听众体验流畅");
   (utf8 " [中低优先级] 口语化程度不足", utf8 "✓ 口语化表达自然，适合现场演讲");
   (utf8 " [中低优先级] 句子长度需优化", utf8 "✓ 表达清晰易懂，句子长度适中");
   (utf8 " [中低优先级] 专业性不足", utf8 "✓ 专业性强，恰当使用了学术术语");
   (utf8 " [低优先级] 缺少具体例子", utf8 "✓ 合理使用例子，帮助听众理解");
   (utf8 " [低优先级] 解释不够充分", utf8 "✓ 解释充分，技术概念阐述清楚");
   (utf8 "🟡 [中低优先级] 总时长需调整", utf8 "✓ 时长规划合理，符合演讲场合要求")].

(** Some suggestion opens with the heading; the strength is listed. *)
Definition raises (heading : str) (results : Results) : bool :=
  match suggestions results with
  | Ok issued => existsb (λ s, str_startswith s heading) issued
  | Raise _ => false
  end.
Definition praises (strength : str) (results : Results) : bool :=
  existsb (λ s, bool_decide (s = strength)) (strengths results).

(** Results whose scores all have one value, apart from the risk score. *)
Definition uniform_results (score risk : Q) : Results :=
  {| dimensions :=
       {| content_consistency :=
            {| keyword_coverage := score; concept_coverage := score;
               slide_title_coverage := score; fact_accuracy := score;
               hallucination_risk_score := risk; content_overall_score := score |};
          structure :=
            {| coherence_score := score; time_balance_score := score;
               transition_score := score; organization_score := score;
               structure_overall_score := score |};
          language_quality :=
            {| clarity_score := score; conversational_score := score;
               vocabulary_richness := score; professionalism_score := score;
               language_overall_score := score |};
          detail_richness :=
            {| expansion_ratio_score := score; example_usage_score := score;
               explanation_quality := score; context_provision := score;
               detail_overall_score := score |};
          time_management :=
            {| total_minutes := 0; duration_appropriateness := score;
               time_distribution_score := score; pace_consistency := score;
               time_overall_score := score |} |};
     overall_score := score;
     grade := _get_grade score;
     result_weights := weights |}.

(** The two closing remarks of [_generate_suggestions]. *)
Definition basics_advice : str :=
  nl ++ utf8 " 总体建议: 重点关注内容一致性和结构合理性，这是演讲稿的基础".
Definition polish_advice : str :=
  nl ++ utf8 " 总体建议: 在保持现有质量的基础上，可进一步优化语言表达和细节丰富度".


(** The titles [_check_slide_title_coverage] looks for, and a title of
    ASCII and CJK characters all of whose words have three characters at
    most. *)
Definition titles_of (self : SpeechEvaluator) : list str :=
  filter (λ t, t ≠ []) (map (λ p, get_default (plan_title p) []) (plan self)).
Definition short_worded (title : str) : Prop :=
  let title_words := findall word_re (str_lower title) in
  Forall (λ c, in_alphabet c = true) title
  ∧ title_words ≠ [] ∧ Forall (λ word, length word ≤ 3) title_words.

(** A talk with one script item and one titled plan item. *)
Definition one_slide_talk (slides title text : string) : SpeechEvaluator :=
  {| slides_content := utf8 slides;
     plan := [{| plan_slide := Some 1%Z; plan_title := Some (utf8 title);
                 plan_duration := None; plan_content := None |}];
     script := [spoken 1 text] |}.

(** * Properties *)

(** ** Tactics *)

(** [lra] on [Q] has no division: a division by a literal becomes a
    multiplication by its inverse first. *)
Ltac qconst :=
  unfold Qdiv in *;
  repeat match goal with
  | |- context [Qinv ?c] =>
      let v := eval vm_compute in (Qinv c) in
      lazymatch v with Qmake _ _ => change (Qinv c) with v end
  | H : context [Qinv ?c] |- _ =>
      let v := eval vm_compute in (Qinv c) in
      lazymatch v with Qmake _ _ => change (Qinv c) with v in H end
  end.
Ltac qlra := qconst; lra.

Ltac monad := cbn [mbind mret result_bind result_ret].

(** ** Arithmetic helpers *)

Section Arithmetic.
Local Open Scope Q_scope.

Lemma Qleb_true x y : Qleb x y = true ↔ x <= y.
Proof. apply Qle_bool_iff. Qed.

Lemma Qleb_false x y : Qleb x y = false ↔ y < x.
Proof.
  unfold Qleb. split; intros H.
  - apply Qnot_le_lt. intros Hle. apply Qle_bool_iff in Hle. congruence.
  - apply not_true_is_false. intros Hle. apply Qle_bool_iff in Hle. lra.
Qed.

Lemma Qltb_true x y : Qltb x y = true ↔ x < y.
Proof. unfold Qltb. rewrite negb_true_iff. apply Qleb_false. Qed.

Lemma Qltb_false x y : Qltb x y = false ↔ y <= x.
Proof. unfold Qltb. rewrite negb_false_iff. apply Qleb_true. Qed.

Lemma py_div_ok x y : ¬ y == 0 → py_div x y = Ok (x / y).
Proof.
  intros Hy. unfold py_div. destruct (Qeq_bool y 0) eqn:E; [|done].
  apply Qeq_bool_iff in E. contradiction.
Qed.

Lemma Qnat_nonneg n : 0 <= Qnat n.
Proof. unfold Qnat. change 0 with (inject_Z 0). rewrite <- Zle_Qle. lia. Qed.

Lemma Qnat_le a b : (a ≤ b)%nat → Qnat a <= Qnat b.
Proof. intros H. unfold Qnat. rewrite <- Zle_Qle. lia. Qed.

Lemma Qnat_pos n : (0 < n)%nat → 0 < Qnat n.
Proof. intros H. unfold Qnat. change 0 with (inject_Z 0). rewrite <- Zlt_Qlt. lia. Qed.

Lemma unit_div a b : 0 <= a → a <= b → 0 < b → unit_score (a / b).
Proof.
  intros Ha Hab Hb. split.
  - apply Qle_shift_div_l; lra.
  - apply Qle_shift_div_r; lra.
Qed.

Lemma unit_ratio a b : (a ≤ b)%nat → (0 < b)%nat → unit_score (Qnat a / Qnat b).
Proof.
  intros Hab Hb. apply unit_div.
  - apply Qnat_nonneg.
  - by apply Qnat_le.
  - by apply Qnat_pos.
Qed.

Lemma py_min_unit x : 0 <= x → unit_score (py_min x 1).
Proof.
  intros Hx. unfold py_min, unit_score.
  destruct (Qltb 1 x) eqn:E; [lra|]. apply Qltb_false in E. lra.
Qed.

Lemma py_max_unit c x : 0 <= c → c <= 1 → x <= 1 → unit_score (py_max c x).
Proof.
  intros Hc Hc1 Hx. unfold py_max, unit_score.
  destruct (Qltb c x) eqn:E; [|lra]. apply Qltb_true in E. lra.
Qed.

Lemma Qbool_unit b : unit_score (Qbool b).
Proof. unfold unit_score. destruct b; simpl; lra. Qed.

Lemma unit_mean3 a b c : unit_score a → unit_score b → unit_score c →
  unit_score ((a + b + c) / 3).
Proof. unfold unit_score. intros. split; qlra. Qed.

Lemma unit_mean4 a b c d : unit_score a → unit_score b → unit_score c → unit_score d →
  unit_score ((a + b + c + d) / 4).
Proof. unfold unit_score. intros. split; qlra. Qed.
End Arithmetic.

Ltac bools :=
  repeat match goal with
  | H : (_ && _) = true |- _ => apply andb_true_iff in H as [? ?]
  | H : (_ && _) = false |- _ => apply andb_false_iff in H
  | H : Qleb _ _ = true |- _ => apply Qleb_true in H
  | H : Qleb _ _ = false |- _ => apply Qleb_false in H
  | H : Qltb _ _ = true |- _ => apply Qltb_true in H
  | H : Qltb _ _ = false |- _ => apply Qltb_false in H
  | H : _ ∨ _ |- _ => destruct H
  end.

Lemma returns_unit_ok v : unit_score v → returns_unit (Ok v).
Proof. intros H. by exists v. Qed.

Lemma returns_unit_ratio a b :
  a ≤ b → 0 < b → returns_unit (py_div (Qnat a) (Qnat b)).
Proof.
  intros Hab Hb. exists (Qnat a / Qnat b)%Q. split; [|by apply unit_ratio].
  apply py_div_ok. pose proof (Qnat_pos b Hb). lra.
Qed.

(** ** Subscription of the items *)

Lemma mapM_getitem_ok {A B} (k : string) (f : A → option B) (l : list A) :
  Forall (λ x, is_Some (f x)) l →
  ∃ vs, mapM (λ x, getitem k (f x)) l = Ok vs ∧ length vs = length l.
Proof.
  induction 1 as [|x l [v Hv] _ [vs [IH Hlen]]]; simpl.
  - by exists [].
  - exists (v :: vs). rewrite Hv. simpl. rewrite IH. simpl. by rewrite Hlen.
Qed.

Lemma mapM_getitem_missing {A B} (k : string) (f : A → option B) (l : list A) :
  Exists (λ x, f x = None) l →
  mapM (λ x, getitem k (f x)) l = Raise (KeyError k).
Proof.
  induction 1 as [x l Hx|x l _ IH]; simpl.
  - by rewrite Hx.
  - destruct (f x); simpl; [by rewrite IH|done].
Qed.

(** ** Which keys the evaluator needs *)

Lemma speech_text_of_ok self :
  texts_present self → ∃ t, speech_text_of self = Ok t.
Proof.
  intros H. unfold speech_text_of.
  destruct (mapM_getitem_ok "text" script_text (script self) H) as [vs [-> _]].
  simpl. eauto.
Qed.

Lemma speech_text_of_missing self :
  ¬ texts_present self → speech_text_of self = Raise (KeyError "text").
Proof.
  intros H. unfold speech_text_of. rewrite mapM_getitem_missing; [done|].
  apply not_Forall_Exists in H; [|apply _].
  eapply Exists_impl; [exact H|]. simpl. intros s Hs.
  by apply eq_None_not_Some.
Qed.

(** ** Content consistency stays in the unit interval *)

Lemma fold_count_le {A} (f : A → bool) (l : list A) (k : nat) :
  fold_left (λ n x, if f x then S n else n) l k ≤ k + length l.
Proof.
  revert k. induction l as [|x l IH]; intros k; simpl; [lia|].
  destruct (f x); etrans; [apply IH| |apply IH|]; lia.
Qed.

Lemma coverage_sets_unit (s t : gset str) :
  s ≠ ∅ → returns_unit (py_div (Qnat (size (s ∩ t))) (Qnat (size s))).
Proof.
  intros Hs. apply returns_unit_ratio.
  - apply subseteq_size, intersection_subseteq_l.
  - assert (size s ≠ 0); [|lia].
    apply size_non_empty_iff. intros Heq. apply Hs. by apply leibniz_equiv.
Qed.

Lemma _calculate_coverage_unit source target :
  (∀ c t, source = ISet c → target ≠ ICounter t) →
  returns_unit (_calculate_coverage source target).
Proof.
  intros Hty. unfold _calculate_coverage.
  destruct (items_empty source) eqn:E.
  { apply returns_unit_ok. split; lra. }
  destruct source as [c|s]; simpl in E.
  - apply bool_decide_eq_false in E. apply coverage_sets_unit.
    intros Hd. apply E. by apply dom_empty_inv_L.
  - apply bool_decide_eq_false in E.
    destruct target as [t|t]; [by destruct (Hty s t)|].
    by apply coverage_sets_unit.
Qed.

Lemma _check_slide_title_coverage_unit self :
  texts_present self → returns_unit (_check_slide_title_coverage self).
Proof.
  intros [t Ht]%speech_text_of_ok. unfold _check_slide_title_coverage.
  set (titles := filter _ _).
  destruct titles as [|x rest] eqn:E.
  { apply returns_unit_ok. split; lra. }
  rewrite Ht. simpl. apply returns_unit_ratio.
  - apply (fold_count_le (title_covered (str_lower t)) (x :: rest) 0).
  - simpl. lia.
Qed.

Lemma _check_fact_consistency_unit self :
  texts_present self → returns_unit (_check_fact_consistency self).
Proof.
  intros [t Ht]%speech_text_of_ok. unfold _check_fact_consistency.
  rewrite Ht. simpl.
  set (numbers := findall fact_number_re (slides_content self)).
  set (names := findall fact_name_re (slides_content self)).
  destruct (length numbers + length names =? 0) eqn:E.
  { apply returns_unit_ok. split; lra. }
  apply Nat.eqb_neq in E. apply returns_unit_ratio; [|lia].
  pose proof (length_filter (λ num, str_in num t) numbers).
  pose proof (length_filter (λ name, str_in name t) names).
  lia.
Qed.

Lemma _detect_hallucination_risk_unit (source target : gmap str nat) :
  returns_unit (_detect_hallucination_risk source target).
Proof.
  unfold _detect_hallucination_risk. case_bool_decide as E.
  { apply returns_unit_ok. split; lra. }
  destruct (returns_unit_ratio (size (dom target ∖ dom source)) (size target))
    as [r [-> [Hr0 Hr1]]].
  - rewrite <- (size_dom target). by apply subseteq_size, subseteq_difference_l.
  - assert (size target ≠ 0); [|lia]. by apply map_size_non_empty_iff.
  - simpl. destruct (Qleb r 0.3); apply returns_unit_ok; split; qlra.
Qed.

Lemma evaluate_content_consistency_range self :
  texts_present self →
  ∃ c, evaluate_content_consistency self = Ok c ∧ content_in_range c.
Proof.
  intros Htexts. unfold evaluate_content_consistency.
  destruct (speech_text_of_ok self Htexts) as [t ->]. simpl.
  destruct (_calculate_coverage_unit (ICounter (_extract_keywords (slides_content self)))
              (ICounter (_extract_keywords t))) as [kc [-> Hkc]]; [done|].
  destruct (_calculate_coverage_unit (ISet (_extract_key_concepts (slides_content self)))
              (ISet (_extract_key_concepts t))) as [cc [-> Hcc]].
  { intros c t' [= <-]. done. }
  destruct (_check_slide_title_coverage_unit self Htexts) as [tc [-> Htc]].
  destruct (_detect_hallucination_risk_unit (_extract_keywords (slides_content self))
              (_extract_keywords t)) as [hr [-> Hhr]].
  destruct (_check_fact_consistency_unit self Htexts) as [fa [-> Hfa]].
  simpl. eexists. split; [done|].
  unfold content_in_range, unit_score in *. simpl. repeat split; qlra.
Qed.

(** ** Structure stays in the unit interval *)

Lemma fold_Qplus_ge (l : list Q) (a : Q) :
  Forall (λ d, 0 <= d)%Q l → (a <= fold_left Qplus l a)%Q.
Proof.
  intros H. revert a. induction H as [|d l Hd _ IH]; intros a; simpl; [lra|].
  specialize (IH (a + d)%Q). lra.
Qed.

Lemma Qsum_nonneg (l : list Q) : Forall (λ d, 0 <= d)%Q l → (0 <= Qsum l)%Q.
Proof. apply fold_Qplus_ge. Qed.

Lemma Qsum_pos (l : list Q) : l ≠ [] → Forall (λ d, 0 < d)%Q l → (0 < Qsum l)%Q.
Proof.
  intros Hne H. destruct H as [|d l Hd H]; [done|].
  unfold Qsum. simpl.
  assert (0 + d <= fold_left Qplus l (0 + d))%Q; [|lra].
  apply fold_Qplus_ge. eapply Forall_impl; [exact H|]. simpl. intros. lra.
Qed.

Lemma timed_durations_pos self : Forall (λ d, 0 < d)%Q (timed_durations self).
Proof.
  apply Forall_forall. intros d Hd. unfold timed_durations in Hd.
  apply list_elem_of_filter in Hd as [Hd _]. apply Is_true_true in Hd.
  by apply Qltb_true.
Qed.

Lemma clamp_unit x : unit_score (py_min (py_max 0 x) 1).
Proof.
  apply py_min_unit. unfold py_max. destruct (Qltb 0 x) eqn:E; [|lra].
  apply Qltb_true in E. lra.
Qed.

Lemma _evaluate_coherence_unit self :
  slides_present self → returns_unit (_evaluate_coherence self).
Proof.
  intros [Hp Hs]. unfold _evaluate_coherence.
  destruct (mapM_getitem_ok "slide" plan_slide (plan self) Hp) as [ps [-> _]].
  destruct (mapM_getitem_ok "slide" script_slide (script self) Hs) as [ss [-> _]].
  simpl.
  assert (returns_unit
            (if bool_decide ((list_to_set ps : gset Z) = ∅) then Ok 1%Q
             else py_div (Qnat (size ((list_to_set ps : gset Z) ∩ list_to_set ss)))
                         (Qnat (size (list_to_set ps : gset Z))))) as [c [-> Hc]].
  { case_bool_decide as E.
    - apply returns_unit_ok. split; lra.
    - apply returns_unit_ratio.
      + apply subseteq_size, intersection_subseteq_l.
      + assert (size (list_to_set ps : gset Z) ≠ 0); [|lia].
        apply size_non_empty_iff. intros Heq. apply E. by apply leibniz_equiv. }
  simpl. apply returns_unit_ok, unit_mean3; auto using Qbool_unit.
Qed.

Lemma mapM_cons {A B} (f : A → result B) (x : A) (l : list A) :
  mapM f (x :: l) = (y ← f x; k ← mapM f l; mret (y :: k)).
Proof. reflexivity. Qed.

(** The squares of the deviations: all of them, or [OverflowError] at the
    first one that leaves the binary64 range. *)
Lemma mapM_pow2_cases (m : Q) (l : list Q) :
  (mapM (λ x, py_pow2 (x - m)) l = Ok (map (λ x, (x - m) ^ 2)%Q l)
   ∧ Forall (λ x, (x - m) ^ 2 <= float_max)%Q l)
  ∨ (mapM (λ x, py_pow2 (x - m)) l = Raise OverflowError
     ∧ Exists (λ x, float_max < (x - m) ^ 2)%Q l).
Proof.
  induction l as [|x l IH]; [left; by split|].
  rewrite mapM_cons.
  change (py_pow2 (x - m))
    with (if Qleb ((x - m) ^ 2) float_max then Ok ((x - m) ^ 2)%Q
          else Raise OverflowError).
  destruct (Qleb ((x - m) ^ 2) float_max) eqn:E.
  - apply Qleb_true in E. monad.
    destruct IH as [[-> Hl]|[-> Hl]]; monad.
    + left. split; [done|]. by constructor.
    + right. split; [done|]. by apply Exists_cons_tl.
  - apply Qleb_false in E. right. split; [done|]. by apply Exists_cons_hd.
Qed.

(** The time balance score is in the unit interval unless a squared
    deviation overflows. *)
Lemma _evaluate_time_balance_cases self :
  let durations := timed_durations self in
  let mean := (Qsum durations / Qnat (length durations))%Q in
  returns_unit (_evaluate_time_balance self)
  ∨ (_evaluate_time_balance self = Raise OverflowError
     ∧ Exists (λ x, float_max < (x - mean) ^ 2)%Q durations).
Proof.
  intros durations mean. unfold _evaluate_time_balance.
  pose proof (timed_durations_pos self) as Hpos.
  fold durations in Hpos |- *. cbv zeta.
  destruct ((length durations =? 0) || (length durations <? 3)) eqn:E.
  { left. apply returns_unit_ok. split; lra. }
  apply orb_false_iff in E as [E0 E3].
  apply Nat.eqb_neq in E0. apply Nat.ltb_ge in E3.
  assert (0 < Qsum durations)%Q as Hsum.
  { apply Qsum_pos; [|done]. by destruct durations. }
  assert (0 < Qnat (length durations))%Q as Hlen by (apply Qnat_pos; lia).
  rewrite py_div_ok by lra. monad. fold mean.
  assert (0 < mean)%Q as Hmean.
  { unfold mean. apply Qlt_shift_div_l; lra. }
  destruct (Qeq_bool mean 0) eqn:Em.
  { left. apply returns_unit_ok. split; lra. }
  destruct (mapM_pow2_cases mean durations) as [[-> _]|[-> Hover]]; monad;
    [left|right; by split].
  rewrite py_div_ok by lra. monad.
  set (variance := (Qsum _ / Qnat (length durations))%Q).
  assert (0 <= variance)%Q as Hvar.
  { unfold variance. apply Qle_shift_div_l; [lra|]. rewrite Qmult_0_l.
    apply Qsum_nonneg, Forall_forall. intros y [x [-> _]]%list_elem_of_fmap.
    apply Qsqr_nonneg. }
  unfold math_sqrt. replace (Qltb variance 0) with false.
  2:{ symmetry. by apply Qltb_false. }
  monad. rewrite py_div_ok by lra. monad.
  apply returns_unit_ok, clamp_unit.
Qed.

(** The loop counts one transition per later item whose opening sentence
    has a transition phrase. *)
Lemma transitions_loop_later (i : nat) (items : list ScriptItem) (texts : list str) (k : nat) :
  Forall2 (λ s t, script_text s = Some t) items texts →
  transitions_loop (S i) items k
  = Ok (k + length (filter (λ t, has_transition (str_lower t)) texts)).
Proof.
  intros H. revert i k. induction H as [|s t items texts Hs _ IH]; intros i k; simpl.
  - f_equal. lia.
  - rewrite Hs. simpl. rewrite filter_cons.
    destruct (has_transition (str_lower t)) eqn:E; simpl; rewrite IH; f_equal; lia.
Qed.

Lemma texts_of_items (items : list ScriptItem) :
  Forall (λ s, is_Some (script_text s)) items →
  ∃ texts, Forall2 (λ s t, script_text s = Some t) items texts.
Proof.
  induction 1 as [|s items [t Ht] _ [texts IH]].
  - by exists [].
  - exists (t :: texts). by constructor.
Qed.

Lemma _evaluate_transitions_unit self :
  texts_present self → returns_unit (_evaluate_transitions self).
Proof.
  unfold texts_present, _evaluate_transitions. intros H.
  destruct (script self) as [|first rest]; simpl.
  { apply returns_unit_ok. split; lra. }
  apply Forall_cons in H as [_ H].
  destruct (texts_of_items rest H) as [texts Htexts].
  rewrite (transitions_loop_later 0 rest texts 0 Htexts). simpl "≫=".
  pose proof (Forall2_length _ _ _ Htexts) as Hlen.
  pose proof (length_filter (λ t, has_transition (str_lower t)) texts) as Hle.
  set (n := length (filter _ texts)) in *.
  simpl length.
  replace (Z.of_nat (S (length rest)) - 1)%Z with (Z.of_nat (length rest)) by lia.
  destruct (0 <? Z.of_nat (length rest))%Z eqn:E.
  - apply Z.ltb_lt in E. apply (returns_unit_ratio n (length rest)); lia.
  - apply returns_unit_ok. split; lra.
Qed.

Lemma _evaluate_organization_unit self : unit_score (_evaluate_organization self).
Proof. apply unit_mean3; apply Qbool_unit. Qed.

Lemma evaluate_structure_range self :
  texts_present self → slides_present self →
  returns_unit (_evaluate_time_balance self) →
  ∃ s, evaluate_structure self = Ok s ∧ structure_in_range s.
Proof.
  intros Ht Hs Hbalance. unfold evaluate_structure.
  destruct (_evaluate_coherence_unit self Hs) as [a [-> Ha]].
  destruct Hbalance as [b [-> Hb]].
  destruct (_evaluate_transitions_unit self Ht) as [c [-> Hc]].
  pose proof (_evaluate_organization_unit self) as Hd.
  simpl. eexists. split; [done|].
  unfold structure_in_range. simpl. repeat split; try apply Ha; try apply Hb;
    try apply Hc; try apply Hd; by apply unit_mean4.
Qed.

Lemma evaluate_structure_overflow self :
  slides_present self →
  _evaluate_time_balance self = Raise OverflowError →
  evaluate_structure self = Raise OverflowError.
Proof.
  intros Hs Hbalance. unfold evaluate_structure.
  destruct (_evaluate_coherence_unit self Hs) as [a [-> Ha]]. monad.
  by rewrite Hbalance.
Qed.

(** ** Language quality and detail richness stay in the unit interval *)

Lemma ratio_nonneg a b : 0 < b → ∃ r, py_div (Qnat a) (Qnat b) = Ok r ∧ (0 <= r)%Q.
Proof.
  intros Hb. pose proof (Qnat_pos b Hb). pose proof (Qnat_nonneg a).
  rewrite py_div_ok by lra. eexists. split; [done|].
  apply Qle_shift_div_l; lra.
Qed.

Lemma _evaluate_clarity_unit self :
  texts_present self → returns_unit (_evaluate_clarity self).
Proof.
  intros [t Ht]%speech_text_of_ok. unfold _evaluate_clarity. rewrite Ht. simpl.
  destruct (map str_strip _) as [|s sentences].
  { apply returns_unit_ok. split; lra. }
  destruct (ratio_nonneg (sum_list (map (λ s, length (str_split s)) (s :: sentences)))
              (length (s :: sentences))) as [avg [-> Havg]]; [simpl; lia|].
  simpl "≫=".
  destruct (Qleb 12 avg && Qleb avg 25) eqn:E1; [apply returns_unit_ok; split; lra|].
  destruct (Qltb avg 12) eqn:E2; bools; apply returns_unit_ok; try (split; qlra);
    apply py_max_unit; qlra.
Qed.

Lemma _evaluate_conversational_style_unit self :
  texts_present self → returns_unit (_evaluate_conversational_style self).
Proof.
  intros [t Ht]%speech_text_of_ok. unfold _evaluate_conversational_style.
  rewrite Ht. simpl.
  set (words := str_split (str_lower t)).
  set (count := length (filter _ words)).
  assert (∃ ratio,
            match words with
            | [] => Ok 0%Q
            | _ => q ← py_div (Qnat count) (Qnat (length words)); mret (q * 100)%Q
            end = Ok ratio ∧ (0 <= ratio)%Q) as [ratio [-> Hr]].
  { destruct words as [|w words'] eqn:E; [eexists; split; [done|lra]|].
    rewrite <- E.
    destruct (ratio_nonneg count (length words)) as [q [-> Hq]]; [rewrite E; simpl; lia|].
    simpl. eexists. split; [done|lra]. }
  simpl "≫=".
  destruct (Qleb 2 ratio && Qleb ratio 6) eqn:E1; [apply returns_unit_ok; split; lra|].
  destruct (Qltb ratio 2) eqn:E2; bools; apply returns_unit_ok; try (split; qlra);
    apply py_max_unit; qlra.
Qed.

Lemma size_list_to_set_le (l : list str) : size (list_to_set l : gset str) ≤ length l.
Proof.
  induction l as [|x l IH].
  - by rewrite list_to_set_nil, size_empty.
  - rewrite list_to_set_cons, size_union_alt, size_singleton.
    assert (size ((list_to_set l : gset str) ∖ {[x]}) ≤ size (list_to_set l : gset str)).
    { by apply subseteq_size, subseteq_difference_l. }
    simpl length. lia.
Qed.

Lemma _evaluate_vocabulary_unit self :
  texts_present self → returns_unit (_evaluate_vocabulary self).
Proof.
  intros [t Ht]%speech_text_of_ok. unfold _evaluate_vocabulary. rewrite Ht. simpl.
  destruct (_ ++ _) as [|w all_words] eqn:E.
  { apply returns_unit_ok. split; lra. }
  destruct (returns_unit_ratio (size (list_to_set (w :: all_words) : gset str))
              (length (w :: all_words))) as [ttr [-> [H0 H1]]].
  { apply size_list_to_set_le. }
  { simpl. lia. }
  simpl "≫=".
  destruct (Qleb 0.35 ttr && Qleb ttr 0.65) eqn:E1; [apply returns_unit_ok; split; lra|].
  destruct (Qltb ttr 0.35) eqn:E2; bools; apply returns_unit_ok; try (split; qlra);
    apply py_max_unit; qlra.
Qed.

Lemma py_div_capped a d :
  (0 < d)%Q → ∃ q, py_div (Qnat a) d = Ok q ∧ unit_score (py_min q 1).
Proof.
  intros Hd. rewrite py_div_ok by lra. eexists. split; [done|].
  apply py_min_unit. pose proof (Qnat_nonneg a). apply Qle_shift_div_l; lra.
Qed.

Lemma _evaluate_professionalism_unit self :
  texts_present self → returns_unit (_evaluate_professionalism self).
Proof.
  intros [t Ht]%speech_text_of_ok. unfold _evaluate_professionalism. rewrite Ht. monad.
  edestruct py_div_capped as [q [-> Hq]]; [|by apply returns_unit_ok].
  by vm_compute.
Qed.

Lemma evaluate_language_quality_range self :
  texts_present self →
  ∃ l, evaluate_language_quality self = Ok l ∧ language_in_range l.
Proof.
  intros Ht. unfold evaluate_language_quality.
  destruct (_evaluate_clarity_unit self Ht) as [a [-> Ha]].
  destruct (_evaluate_conversational_style_unit self Ht) as [b [-> Hb]].
  destruct (_evaluate_vocabulary_unit self Ht) as [c [-> Hc]].
  destruct (_evaluate_professionalism_unit self Ht) as [d [-> Hd]].
  simpl. eexists. split; [done|].
  unfold language_in_range. simpl. repeat split; try apply Ha; try apply Hb;
    try apply Hc; try apply Hd; by apply unit_mean4.
Qed.

Lemma _calculate_expansion_ratio_unit self :
  texts_present self → returns_unit (_calculate_expansion_ratio self).
Proof.
  intros [t Ht]%speech_text_of_ok. unfold _calculate_expansion_ratio. rewrite Ht. monad.
  destruct (length (str_split (slides_content self)) =? 0) eqn:E.
  { apply returns_unit_ok. split; lra. }
  apply Nat.eqb_neq in E.
  destruct (ratio_nonneg (length (str_split t))
              (length (str_split (slides_content self)))) as [ratio [-> Hr]]; [lia|].
  simpl "≫=".
  destruct (Qleb 1.5 ratio && Qleb ratio 3) eqn:E1; [apply returns_unit_ok; split; lra|].
  destruct (Qltb ratio 1.5) eqn:E2; bools; apply returns_unit_ok; try (split; qlra);
    apply py_max_unit; qlra.
Qed.

Lemma py_max_one_pos x : (0 < py_max x 1)%Q.
Proof. unfold py_max. destruct (Qltb x 1) eqn:E; bools; lra. Qed.

Lemma _check_example_usage_unit self :
  texts_present self → returns_unit (_check_example_usage self).
Proof.
  intros [t Ht]%speech_text_of_ok. unfold _check_example_usage. rewrite Ht. monad.
  edestruct py_div_capped as [q [-> Hq]]; [|by apply returns_unit_ok].
  apply py_max_one_pos.
Qed.

Lemma _evaluate_explanations_unit self :
  texts_present self → returns_unit (_evaluate_explanations self).
Proof.
  intros [t Ht]%speech_text_of_ok. unfold _evaluate_explanations. rewrite Ht. monad.
  edestruct py_div_capped as [q [-> Hq]]; [|by apply returns_unit_ok].
  apply py_max_one_pos.
Qed.

Lemma _evaluate_context_unit self :
  texts_present self → returns_unit (_evaluate_context self).
Proof.
  intros [t Ht]%speech_text_of_ok. unfold _evaluate_context. rewrite Ht. monad.
  apply returns_unit_ok, py_min_unit.
  set (n := length _). pose proof (Qnat_nonneg n). qlra.
Qed.

Lemma evaluate_detail_richness_range self :
  texts_present self →
  ∃ d, evaluate_detail_richness self = Ok d ∧ detail_in_range d.
Proof.
  intros Ht. unfold evaluate_detail_richness.
  destruct (_calculate_expansion_ratio_unit self Ht) as [a [-> Ha]].
  destruct (_check_example_usage_unit self Ht) as [b [-> Hb]].
  destruct (_evaluate_explanations_unit self Ht) as [c [-> Hc]].
  destruct (_evaluate_context_unit self Ht) as [d [-> Hd]].
  simpl. eexists. split; [done|].
  unfold detail_in_range. simpl. repeat split; try apply Ha; try apply Hb;
    try apply Hc; try apply Hd; by apply unit_mean4.
Qed.

(** ** Time management stays in the unit interval *)

Lemma digits_val_nonneg (s : str) : (0 ≤ digits_val s)%Z.
Proof.
  unfold digits_val.
  assert (∀ a, (0 ≤ a)%Z → (0 ≤ fold_left (λ acc c, acc * 10 + digit_val c) s a)%Z) as H.
  { induction s as [|c s IH]; intros b Hb; simpl; [done|].
    apply IH. unfold digit_val. lia. }
  by apply H.
Qed.

Lemma float_of_decimal_nonneg (s : str) : (0 <= float_of_decimal s)%Q.
Proof.
  unfold float_of_decimal. cbv zeta.
  set (ip := split_first 46 s). set (fp := drop (S (length ip)) s).
  assert (0 <= inject_Z (digits_val ip))%Q.
  { change 0%Q with (inject_Z 0). rewrite <- Zle_Qle. apply digits_val_nonneg. }
  assert (0 <= inject_Z (digits_val fp))%Q.
  { change 0%Q with (inject_Z 0). rewrite <- Zle_Qle. apply digits_val_nonneg. }
  assert (0 < inject_Z (10 ^ Z.of_nat (length fp)))%Q.
  { change 0%Q with (inject_Z 0). rewrite <- Zlt_Qlt. lia. }
  assert (0 <= inject_Z (digits_val fp) / inject_Z (10 ^ Z.of_nat (length fp)))%Q.
  { apply Qle_shift_div_l; lra. }
  lra.
Qed.

Lemma _parse_duration_nonneg (s : str) : (0 <= _parse_duration s)%Q.
Proof.
  unfold _parse_duration. destruct s as [|c s]; [lra|].
  destruct (search _ _) as [m|]; [|lra].
  pose proof (float_of_decimal_nonneg m).
  destruct (_ || _); [qlra|]. destruct (_ || _); lra.
Qed.

Lemma total_time_nonneg (l : list PlanItem) (a : Q) :
  (a <= fold_left (λ total p,
                     total + _parse_duration (get_default (plan_duration p) (utf8 "0 minute")))%Q
                  l a)%Q.
Proof.
  revert a. induction l as [|p l IH]; intros a; simpl; [lra|].
  specialize (IH (a + _parse_duration (get_default (plan_duration p) (utf8 "0 minute")))%Q).
  pose proof (_parse_duration_nonneg (get_default (plan_duration p) (utf8 "0 minute"))).
  lra.
Qed.

Lemma _evaluate_duration_appropriateness_unit self :
  returns_unit (_evaluate_duration_appropriateness self (_calculate_total_time self)).
Proof.
  unfold _evaluate_duration_appropriateness, _calculate_total_time. cbv zeta.
  pose proof (total_time_nonneg (plan self) 0) as Htot.
  destruct (plan self) as [|p l] eqn:Eplan.
  { simpl. apply returns_unit_ok. split; lra. }
  set (total := fold_left _ _ _) in *.
  pose proof (Qnat_pos (length (p :: l))) as Hn. set (n := Qnat _) in *.
  assert (0 < n)%Q by (apply Hn; simpl; lia).
  destruct (Qleb (n * 1) total && Qleb total (n * 2.5)) eqn:E1.
  { apply returns_unit_ok. split; lra. }
  destruct (Qltb total (n * 1)) eqn:E2.
  - bools; (rewrite py_div_ok by lra); apply returns_unit_ok, unit_div; lra.
  - bools; try lra. rewrite py_div_ok by lra. monad.
    apply returns_unit_ok, py_max_unit; try lra.
    assert (0 <= (total - n * 2.5) / (n * 2.5))%Q; [|lra].
    apply Qle_shift_div_l; lra.
Qed.

Lemma _evaluate_time_distribution_unit self :
  unit_score (_evaluate_time_distribution self).
Proof.
  unfold _evaluate_time_distribution. cbv zeta.
  destruct (length (timed_durations self) <? 3); [split; lra|].
  apply unit_mean3; apply Qbool_unit.
Qed.

Lemma _evaluate_pace_unit self : returns_unit (_evaluate_pace self).
Proof.
  unfold _evaluate_pace. cbv zeta.
  destruct (timed_durations self) as [|d durations] eqn:E.
  { apply returns_unit_ok. split; lra. }
  assert (0 < Qnat (length (d :: durations)))%Q as Hn by (apply Qnat_pos; simpl; lia).
  rewrite py_div_ok by lra.
  monad. set (mean := (_ / _)%Q).
  destruct (returns_unit_ratio (length (filter (extreme mean) (d :: durations)))
              (length (d :: durations))) as [q [-> [H0 H1]]].
  { apply length_filter. }
  { simpl. lia. }
  monad. apply returns_unit_ok, py_max_unit; lra.
Qed.

Lemma evaluate_time_management_range self :
  ∃ t, evaluate_time_management self = Ok t ∧ time_in_range t.
Proof.
  unfold evaluate_time_management. cbv zeta.
  destruct (_evaluate_duration_appropriateness_unit self) as [a [-> Ha]].
  pose proof (_evaluate_time_distribution_unit self) as Hb.
  destruct (_evaluate_pace_unit self) as [c [-> Hc]].
  monad. eexists. split; [done|].
  unfold time_in_range. simpl. repeat split; try apply Ha; try apply Hb;
    try apply Hc; try (by apply unit_mean3).
  apply (total_time_nonneg (plan self) 0).
Qed.

(** ** The whole evaluation *)

Lemma duration_le_total (l : list PlanItem) (a : Q) (p : PlanItem) :
  p ∈ l →
  (a + _parse_duration (get_default (plan_duration p) (utf8 "0 minute"))
   <= fold_left (λ total p,
                   total + _parse_duration (get_default (plan_duration p) (utf8 "0 minute")))
                l a)%Q.
Proof.
  revert a. induction l as [|x l IH]; intros a Hin; [by apply elem_of_nil in Hin|].
  cbn [fold_left]. apply elem_of_cons in Hin as [->|Hin].
  - apply total_time_nonneg.
  - specialize (IH (a + _parse_duration (get_default (plan_duration x) (utf8 "0 minute")))%Q Hin).
    pose proof (_parse_duration_nonneg (get_default (plan_duration x) (utf8 "0 minute"))).
    lra.
Qed.

Lemma timed_durations_le_total self :
  Forall (λ d, d <= _calculate_total_time self)%Q (timed_durations self).
Proof.
  apply Forall_forall. intros d Hd. unfold timed_durations in Hd.
  apply list_elem_of_filter in Hd as [_ Hd].
  apply list_elem_of_fmap in Hd as (p & -> & Hp).
  pose proof (duration_le_total (plan self) 0 p Hp) as H.
  unfold _calculate_total_time. lra.
Qed.

Lemma Qnat_S (n : nat) : (Qnat (S n) == Qnat n + 1)%Q.
Proof.
  unfold Qnat. rewrite Nat2Z.inj_succ. unfold Z.succ. by rewrite inject_Z_plus.
Qed.

Lemma fold_Qplus_le (l : list Q) (a b : Q) :
  Forall (λ d, d <= b)%Q l → (fold_left Qplus l a <= a + Qnat (length l) * b)%Q.
Proof.
  intros H. revert a. induction H as [|d l Hd _ IH]; intros a.
  - cbn [fold_left length]. change (Qnat 0) with 0%Q. lra.
  - cbn [fold_left length]. rewrite Qnat_S. specialize (IH (a + d)%Q). lra.
Qed.

Lemma square_within_bound (x mean b : Q) :
  (0 <= x <= b)%Q → (0 <= mean <= b)%Q → (b * b <= float_max)%Q →
  ((x - mean) ^ 2 <= float_max)%Q.
Proof.
  intros Hx Hm Hb. change ((x - mean) ^ 2)%Q with ((x - mean) * (x - mean))%Q. nra.
Qed.

Lemma duration_bound_square : (duration_bound * duration_bound <= float_max)%Q.
Proof. apply Qle_bool_iff. by vm_compute. Qed.

Lemma duration_bound_seconds : (duration_bound * 60 <= float_max)%Q.
Proof. apply Qle_bool_iff. by vm_compute. Qed.

(** Within the bound no squared deviation leaves the binary64 range. *)
Lemma time_balance_within_bound self :
  durations_bounded self → returns_unit (_evaluate_time_balance self).
Proof.
  intros Hbound. destruct (_evaluate_time_balance_cases self) as [H|[_ H]]; [done|].
  exfalso. apply Exists_exists in H as (x & Hx & Hover).
  pose proof (timed_durations_pos self) as Hpos.
  pose proof (timed_durations_le_total self) as Hle.
  set (durations := timed_durations self) in *.
  assert (0 < Qnat (length durations))%Q as Hlen.
  { apply Qnat_pos. destruct durations; [by apply elem_of_nil in Hx|simpl; lia]. }
  assert (Forall (λ d, d <= duration_bound)%Q durations) as Hb.
  { eapply Forall_impl; [exact Hle|]. cbv beta. intros d Hd.
    unfold durations_bounded in Hbound. lra. }
  assert (0 <= Qsum durations)%Q as Hsum0.
  { apply Qsum_nonneg. eapply Forall_impl; [exact Hpos|]. cbv beta. intros. lra. }
  pose proof (fold_Qplus_le durations 0 duration_bound Hb) as Hsum. fold (Qsum durations) in Hsum.
  assert (0 <= Qsum durations / Qnat (length durations) <= duration_bound)%Q as Hmean.
  { split; [apply Qle_shift_div_l; lra|apply Qle_shift_div_r; lra]. }
  rewrite Forall_forall in Hpos, Hb.
  pose proof (Hpos x Hx). pose proof (Hb x Hx).
  pose proof (square_within_bound x (Qsum durations / Qnat (length durations))
                duration_bound ltac:(lra) Hmean duration_bound_square).
  lra.
Qed.

(** The evaluation completes when the time balance does. *)
Lemma evaluate_all_with_balance self :
  required_keys_present self →
  returns_unit (_evaluate_time_balance self) →
  ∃ r, evaluate_all self = Ok r
       ∧ dimensions_in_range (dimensions r)
       ∧ overall_score r = weighted_sum (dimensions r)
       ∧ grade r = _get_grade (overall_score r)
       ∧ result_weights r = weights.
Proof.
  intros [Ht Hs] Hbalance. unfold evaluate_all.
  destruct (evaluate_content_consistency_range self Ht) as [cc [-> Hcc]].
  destruct (evaluate_structure_range self Ht Hs Hbalance) as [st [-> Hst]].
  destruct (evaluate_language_quality_range self Ht) as [lq [-> Hlq]].
  destruct (evaluate_detail_richness_range self Ht) as [dr [-> Hdr]].
  destruct (evaluate_time_management_range self) as [tm [-> Htm]].
  simpl. eexists. split; [done|]. simpl.
  split; [exact (conj Hcc (conj Hst (conj Hlq (conj Hdr Htm))))|]. by repeat split.
Qed.

Lemma evaluate_all_complete self :
  required_keys_present self →
  durations_bounded self →
  ∃ r, evaluate_all self = Ok r
       ∧ dimensions_in_range (dimensions r)
       ∧ overall_score r = weighted_sum (dimensions r)
       ∧ grade r = _get_grade (overall_score r)
       ∧ result_weights r = weights.
Proof.
  intros Hkeys Hbound. apply evaluate_all_with_balance; [done|].
  by apply time_balance_within_bound.
Qed.

(** With the keys present the only failure is the overflow of the time
    balance. *)
Lemma evaluate_all_cases self :
  required_keys_present self →
  (∃ r, evaluate_all self = Ok r
        ∧ dimensions_in_range (dimensions r)
        ∧ overall_score r = weighted_sum (dimensions r)
        ∧ grade r = _get_grade (overall_score r)
        ∧ result_weights r = weights)
  ∨ evaluate_all self = Raise OverflowError.
Proof.
  intros Hkeys. destruct (_evaluate_time_balance_cases self) as [H|[H _]].
  - left. by apply evaluate_all_with_balance.
  - right. destruct Hkeys as [Ht Hs]. unfold evaluate_all.
    destruct (evaluate_content_consistency_range self Ht) as [cc [-> Hcc]]. monad.
    by rewrite (evaluate_structure_overflow self Hs H).
Qed.

Lemma evaluate_all_missing_text self :
  ¬ texts_present self → evaluate_all self = Raise (KeyError "text").
Proof.
  intros Ht. unfold evaluate_all, evaluate_content_consistency.
  by rewrite (speech_text_of_missing self Ht).
Qed.

Lemma _evaluate_coherence_missing_slide self :
  ¬ slides_present self → _evaluate_coherence self = Raise (KeyError "slide").
Proof.
  intros Hnot. unfold _evaluate_coherence.
  destruct (decide (Forall (λ p, is_Some (plan_slide p)) (plan self))) as [Hp|Hp].
  - destruct (mapM_getitem_ok "slide" plan_slide (plan self) Hp) as [ps [-> _]].
    monad. rewrite mapM_getitem_missing; [done|].
    destruct (decide (Forall (λ s, is_Some (script_slide s)) (script self))) as [Hs|Hs].
    { destruct Hnot. exact (conj Hp Hs). }
    apply not_Forall_Exists in Hs; [|apply _].
    eapply Exists_impl; [exact Hs|]. simpl. intros s Hn.
    by apply eq_None_not_Some.
  - rewrite (mapM_getitem_missing "slide" plan_slide); [reflexivity|].
    apply not_Forall_Exists in Hp; [|apply _].
    eapply Exists_impl; [exact Hp|]. simpl. intros p Hn.
    by apply eq_None_not_Some.
Qed.

Lemma evaluate_all_missing_slide self :
  texts_present self → ¬ slides_present self →
  evaluate_all self = Raise (KeyError "slide").
Proof.
  intros Ht Hs. unfold evaluate_all.
  destruct (evaluate_content_consistency_range self Ht) as [cc [-> _]]. monad.
  unfold evaluate_structure. by rewrite (_evaluate_coherence_missing_slide self Hs).
Qed.

(** ** Duration parsing *)

Example parse_1_5_min : (_parse_duration (utf8 "1.5 min") == 3 # 2)%Q.
Proof. by vm_compute. Qed.

Example parse_90s : (_parse_duration (utf8 "90s") == 3 # 2)%Q.
Proof. by vm_compute. Qed.

Example parse_2h : (_parse_duration (utf8 "2h") == 120)%Q.
Proof. by vm_compute. Qed.

Example parse_no_number : (_parse_duration (utf8 "soon") == 0)%Q.
Proof. by vm_compute. Qed.

(** A trailing [s] selects the seconds branch before any other unit is
    looked at. *)
Lemma _parse_duration_trailing_s (duration_str number_match : str) :
  duration_str ≠ [] →
  search number_re (str_strip (str_lower duration_str)) = Some number_match →
  str_endswith (str_strip (str_lower duration_str)) (utf8 "s") = true →
  _parse_duration duration_str = (float_of_decimal number_match / 60)%Q.
Proof.
  intros Hne Hsearch Hs. unfold _parse_duration.
  destruct duration_str as [|c s]; [done|].
  rewrite Hsearch, Hs. by rewrite orb_true_r.
Qed.

(** C1 (a defect of the code).  [_parse_duration] reads "120 seconds" as
    2 minutes, as the specification says, but it reads "2 minutes" as
    2/60 of a minute: the text ends in "s", so the seconds branch fires
    although the unit is the minute, and the two calls are not equal.
    "2 hours" is divided by 60 in the same way, where the specification
    multiplies by 60. *)
Theorem parse_duration_minutes_read_as_seconds :
  (_parse_duration (utf8 "120 seconds") == 2)%Q
  ∧ (_parse_duration (utf8 "2 minutes") == 2 / 60)%Q
  ∧ ¬ (_parse_duration (utf8 "2 minutes") == _parse_duration (utf8 "120 seconds"))%Q
  ∧ (_parse_duration (utf8 "2 hours") == 2 / 60)%Q.
Proof. repeat split; by vm_compute. Qed.

(** ** Grades *)

Lemma _get_grade_rank (score : Q) :
  ((0.90 <= score)%Q ∧ grade_rank (_get_grade score) = 7)
  ∨ ((0.85 <= score < 0.90)%Q ∧ grade_rank (_get_grade score) = 6)
  ∨ ((0.80 <= score < 0.85)%Q ∧ grade_rank (_get_grade score) = 5)
  ∨ ((0.75 <= score < 0.80)%Q ∧ grade_rank (_get_grade score) = 4)
  ∨ ((0.70 <= score < 0.75)%Q ∧ grade_rank (_get_grade score) = 3)
  ∨ ((0.65 <= score < 0.70)%Q ∧ grade_rank (_get_grade score) = 2)
  ∨ ((0.60 <= score < 0.65)%Q ∧ grade_rank (_get_grade score) = 1)
  ∨ ((score < 0.60)%Q ∧ grade_rank (_get_grade score) = 0).
Proof.
  unfold _get_grade.
  destruct (Qleb 0.90 score) eqn:E1; bools; [left; split; [lra|by vm_compute]|right].
  destruct (Qleb 0.85 score) eqn:E2; bools; [left; split; [lra|by vm_compute]|right].
  destruct (Qleb 0.80 score) eqn:E3; bools; [left; split; [lra|by vm_compute]|right].
  destruct (Qleb 0.75 score) eqn:E4; bools; [left; split; [lra|by vm_compute]|right].
  destruct (Qleb 0.70 score) eqn:E5; bools; [left; split; [lra|by vm_compute]|right].
  destruct (Qleb 0.65 score) eqn:E6; bools; [left; split; [lra|by vm_compute]|right].
  destruct (Qleb 0.60 score) eqn:E7; bools; [left|right]; (split; [lra|by vm_compute]).
Qed.

Lemma _get_grade_table (score : Q) : grade_table score.
Proof.
  unfold grade_table, _get_grade.
  destruct (Qleb 0.90 score) eqn:E1; bools; [repeat split; intros; (done || lra)|].
  destruct (Qleb 0.85 score) eqn:E2; bools; [repeat split; intros; (done || lra)|].
  destruct (Qleb 0.80 score) eqn:E3; bools; [repeat split; intros; (done || lra)|].
  destruct (Qleb 0.75 score) eqn:E4; bools; [repeat split; intros; (done || lra)|].
  destruct (Qleb 0.70 score) eqn:E5; bools; [repeat split; intros; (done || lra)|].
  destruct (Qleb 0.65 score) eqn:E6; bools; [repeat split; intros; (done || lra)|].
  destruct (Qleb 0.60 score) eqn:E7; bools; repeat split; intros; (done || lra).
Qed.

(** C6.  [_get_grade] is the descending threshold lookup of the
    specification, and a score that is at least another score gets a
    grade of at least the other's rank. *)
Theorem get_grade_lookup_monotone (a b : Q) :
  (b <= a)%Q →
  grade_table a ∧ grade_table b ∧ grade_rank (_get_grade b) ≤ grade_rank (_get_grade a).
Proof.
  intros Hab. split; [apply _get_grade_table|]. split; [apply _get_grade_table|].
  destruct (_get_grade_rank a) as [[Ha ->]|[[Ha ->]|[[Ha ->]|[[Ha ->]|[[Ha ->]|
    [[Ha ->]|[[Ha ->]|[Ha ->]]]]]]]];
  destruct (_get_grade_rank b) as [[Hb ->]|[[Hb ->]|[[Hb ->]|[[Hb ->]|[[Hb ->]|
    [[Hb ->]|[[Hb ->]|[Hb ->]]]]]]]]; (lia || lra).
Qed.

Lemma get_grade_lookup_monotone_witness :
  (0.62 <= 0.91)%Q ∧ grade_rank (_get_grade 0.62) ≤ grade_rank (_get_grade 0.91).
Proof.
  assert (0.62 <= 0.91)%Q as H by (by vm_compute).
  split; [exact H|]. exact (proj2 (proj2 (get_grade_lookup_monotone 0.91 0.62 H))).
Defined.

(** ** Organization *)

Lemma existsb_enumerate {A} (f : nat * A → bool) (l : list A) (i : nat) (x : A) :
  l !! i = Some x → f (i, x) = true → existsb f (enumerate l) = true.
Proof.
  intros Hl Hf. apply existsb_exists. exists (i, x). split; [|done].
  apply list_elem_of_In. unfold enumerate.
  apply list_elem_of_lookup. exists i. by rewrite list_lookup_imap, Hl.
Qed.

(** C9.  On a plan that is not empty the introduction check and the
    conclusion check hold by position alone, whatever the titles are: the
    organization score is 1 for three items or more and 2/3 otherwise. *)
Theorem organization_by_position (self : SpeechEvaluator) :
  plan self ≠ [] →
  has_intro self = true
  ∧ has_conclusion self = true
  ∧ (_evaluate_organization self == if 3 <=? length (plan self) then 1 else 2 / 3)%Q.
Proof.
  intros Hne.
  assert (has_intro self = true) as Hi.
  { unfold has_intro. destruct (plan self) as [|p l] eqn:E; [done|].
    apply (existsb_enumerate _ (p :: l) 0 p); [done|]. by rewrite orb_true_r. }
  assert (has_conclusion self = true) as Hc.
  { unfold has_conclusion.
    destruct (plan self) as [|p l] eqn:E using rev_ind; [done|]. clear IHl.
    apply (existsb_enumerate _ (l ++ [p]) (length l) p).
    - by rewrite lookup_app_r, Nat.sub_diag.
    - rewrite length_app. simpl length.
      replace (Z.of_nat (length l) =? Z.of_nat (length l + 1) - 1)%Z with true.
      + by rewrite orb_true_r.
      + symmetry. apply Z.eqb_eq. lia. }
  split; [done|]. split; [done|].
  unfold _evaluate_organization, has_body. rewrite Hi, Hc.
  destruct (3 <=? length (plan self)); by vm_compute.
Qed.

Lemma organization_by_position_witness :
  let self := {| slides_content := [];
                 plan := [{| plan_slide := Some 1%Z; plan_title := Some (utf8 "Method");
                             plan_duration := None; plan_content := None |};
                          {| plan_slide := Some 2%Z; plan_title := None;
                             plan_duration := None; plan_content := None |}];
                 script := [] |} in
  plan self ≠ [] ∧ (_evaluate_organization self == 2 / 3)%Q.
Proof.
  intros self. assert (plan self ≠ []) as H by done.
  split; [exact H|]. exact (proj2 (proj2 (organization_by_position self H))).
Defined.

(** ** Weights *)

Lemma evaluate_all_inv self r :
  evaluate_all self = Ok r →
  evaluate_content_consistency self = Ok (content_consistency (dimensions r))
  ∧ evaluate_structure self = Ok (structure (dimensions r))
  ∧ evaluate_language_quality self = Ok (language_quality (dimensions r))
  ∧ evaluate_detail_richness self = Ok (detail_richness (dimensions r))
  ∧ evaluate_time_management self = Ok (time_management (dimensions r))
  ∧ overall_score r = weighted_sum (dimensions r)
  ∧ grade r = _get_grade (overall_score r)
  ∧ result_weights r = weights.
Proof.
  unfold evaluate_all.
  destruct (evaluate_content_consistency self) as [cc|]; [|done].
  destruct (evaluate_structure self) as [st|]; [|done].
  destruct (evaluate_language_quality self) as [lq|]; [|done].
  destruct (evaluate_detail_richness self) as [dr|]; [|done].
  destruct (evaluate_time_management self) as [tm|]; [|done].
  simpl. intros [= <-]. simpl. by repeat split.
Qed.

(** In binary64 too, adding the weights from 0 in dictionary order gives
    exactly 1.0. *)
Lemma weights_binary64_sum : fold_left PrimFloat.add weights_binary64 0%float = 1%float.
Proof. reflexivity. Qed.

(** C7.  The weights are the five constants of the specification, they
    add up to 1, and the overall score of an evaluation is the sum of the
    dimension scores weighted by them. *)
Theorem overall_score_is_weighted_sum (self : SpeechEvaluator) (r : Results) :
  evaluate_all self = Ok r →
  weights = [("content_consistency", 0.30%Q); ("structure", 0.25%Q);
             ("language_quality", 0.20%Q); ("detail_richness", 0.15%Q);
             ("time_management", 0.10%Q)]
  ∧ (Qsum (map snd weights) == 1)%Q
  ∧ result_weights r = weights
  ∧ (overall_score r ==
       0.30 * content_overall_score (content_consistency (dimensions r))
       + 0.25 * structure_overall_score (structure (dimensions r))
       + 0.20 * language_overall_score (language_quality (dimensions r))
       + 0.15 * detail_overall_score (detail_richness (dimensions r))
       + 0.10 * time_overall_score (time_management (dimensions r)))%Q.
Proof.
  intros H. apply evaluate_all_inv in H as (_ & _ & _ & _ & _ & Ho & _ & Hw).
  split; [done|]. split; [by vm_compute|]. split; [done|].
  rewrite Ho. unfold weighted_sum. lra.
Qed.

Lemma overall_score_is_weighted_sum_witness :
  let self := {| slides_content := utf8 "Fact checking with language models";
                 plan := [{| plan_slide := Some 1%Z; plan_title := Some (utf8 "Introduction");
                             plan_duration := Some (utf8 "90 seconds");
                             plan_content := None |}];
                 script := [{| script_slide := Some 1%Z;
                               script_text := Some (utf8 "Today we look at fact checking.") |}] |} in
  ∃ r, evaluate_all self = Ok r
       ∧ (overall_score r ==
            0.30 * content_overall_score (content_consistency (dimensions r))
            + 0.25 * structure_overall_score (structure (dimensions r))
            + 0.20 * language_overall_score (language_quality (dimensions r))
            + 0.15 * detail_overall_score (detail_richness (dimensions r))
            + 0.10 * time_overall_score (time_management (dimensions r)))%Q.
Proof.
  intros self. destruct (evaluate_all self) as [r|e] eqn:E; [|by vm_compute in E].
  exists r. split; [done|].
  exact (proj2 (proj2 (proj2 (overall_score_is_weighted_sum self r E)))).
Defined.

(** ** Pace *)

Lemma filter_all {A} (f : A → bool) (l : list A) :
  Forall (λ x, f x = true) l → filter f l = l.
Proof.
  induction 1 as [|x l Hx _ IH]; [done|].
  rewrite filter_cons, IH. rewrite decide_True; [done|]. by rewrite Hx.
Qed.

(** C3 as stated fails: on durations 0.5, 0.5 and 10 the pace score is not
    1 - 1/3, and the 10-minute item is not the only extreme one. *)
Lemma pace_scenario_not_two_thirds :
  Forall2 Qeq (timed_durations pace_scenario) [0.5; 0.5; 10]%Q
  ∧ (∃ v, _evaluate_pace pace_scenario = Ok v ∧ ¬ (v == 1 - 1 / 3)%Q)
  ∧ length (filter (extreme (Qsum (timed_durations pace_scenario)
                             / Qnat (length (timed_durations pace_scenario))))
                    (timed_durations pace_scenario)) = 3.
Proof.
  split; [|split].
  - vm_compute. repeat constructor.
  - eexists. split; [vm_compute; reflexivity|]. by vm_compute.
  - by vm_compute.
Qed.

(** C3, amended.  When the parsed durations are 0.5, 0.5 and 10 minutes the
    mean is 11/3, every one of the three items is extreme (10 exceeds twice
    the mean and 0.5 is below half of it), and the pace score is 0. *)
Theorem pace_all_extreme (self : SpeechEvaluator) :
  Forall2 Qeq (timed_durations self) [0.5; 0.5; 10]%Q →
  let mean := (Qsum (timed_durations self) / Qnat (length (timed_durations self)))%Q in
  (mean == 11 / 3)%Q
  ∧ Forall (λ d, extreme mean d = true) (timed_durations self)
  ∧ ∃ v, _evaluate_pace self = Ok v ∧ (v == 0)%Q.
Proof.
  intros H. unfold _evaluate_pace. cbv zeta.
  destruct (timed_durations self) as [|d1 [|d2 [|d3 [|d4 l]]]];
    try (by repeat match goal with H : Forall2 _ _ _ |- _ => inversion H; clear H; subst end).
  apply Forall2_cons in H as [H1 H]. apply Forall2_cons in H as [H2 H].
  apply Forall2_cons in H as [H3 _].
  assert (Qsum [d1; d2; d3] / Qnat (length [d1; d2; d3]) == 11 / 3)%Q as Hmean.
  { unfold Qsum. simpl fold_left. qlra. }
  assert (Forall (λ d, extreme (Qsum [d1; d2; d3] / Qnat (length [d1; d2; d3])) d = true)
            [d1; d2; d3]) as Hext.
  { unfold extreme. repeat constructor; apply orb_true_iff.
    - right. apply Qltb_true. qlra.
    - right. apply Qltb_true. qlra.
    - left. apply Qltb_true. qlra. }
  split; [done|]. split; [done|].
  rewrite py_div_ok by (by vm_compute). monad.
  rewrite (filter_all _ _ Hext).
  rewrite py_div_ok by (by vm_compute). monad.
  eexists. split; [done|]. by vm_compute.
Qed.

Lemma pace_all_extreme_witness :
  Forall2 Qeq (timed_durations pace_scenario) [0.5; 0.5; 10]%Q
  ∧ ∃ v, _evaluate_pace pace_scenario = Ok v ∧ (v == 0)%Q.
Proof.
  assert (Forall2 Qeq (timed_durations pace_scenario) [0.5; 0.5; 10]%Q) as H.
  { vm_compute. repeat constructor. }
  split; [exact H|]. exact (proj2 (proj2 (pace_all_extreme pace_scenario H))).
Defined.

(** ** Transitions *)

(** What [sub in s] decides: [sub] occurs in [s] as a block. *)
Lemma str_startswith_spec (s p : str) : str_startswith s p = true ↔ ∃ r, s = p ++ r.
Proof.
  revert s. induction p as [|a p IH]; intros s; simpl.
  - split; [eauto|]. by destruct s.
  - destruct s as [|b s]; simpl.
    + split; [done|]. by intros [r Hr].
    + rewrite andb_true_iff, N.eqb_eq, IH. split.
      * intros [-> [r ->]]. eauto.
      * intros [r [= -> ->]]. eauto.
Qed.

Lemma str_in_spec (sub s : str) : str_in sub s = true ↔ ∃ l r, s = l ++ sub ++ r.
Proof.
  induction s as [|c s IH]; cbn [str_in].
  - rewrite orb_false_r, str_startswith_spec. split.
    + intros [r Hr]. by exists [], r.
    + intros [l [r Hr]]. symmetry in Hr.
      apply app_eq_nil in Hr as [-> Hr]. exists r. done.
  - rewrite orb_true_iff, str_startswith_spec, IH. split.
    + intros [[r Hr]|[l [r ->]]]; [by exists [], r|by exists (c :: l), r].
    + intros [[|c' l] [r Hr]]; [left; by exists r|right].
      injection Hr as -> ->. eauto.
Qed.

Lemma first_sentence_spec (text : str) :
  (46%N ∉ first_sentence text)
  ∧ (text = first_sentence text ∨ ∃ rest, text = first_sentence text ++ 46%N :: rest).
Proof.
  unfold first_sentence. induction text as [|c text [IH1 IH2]]; simpl.
  - split; [by apply not_elem_of_nil|by left].
  - destruct (N.eqb_spec c 46) as [->|Hc].
    + split; [by apply not_elem_of_nil|right; by exists text].
    + split.
      * rewrite not_elem_of_cons. split; [intros E; by apply Hc|done].
      * destruct IH2 as [IH2|[rest IH2]]; [left|right; exists rest]; simpl;
          by rewrite <- IH2.
Qed.

Lemma chr_lower_stop (c : N) : (chr_lower c =? 46)%N = (c =? 46)%N.
Proof.
  unfold chr_lower, is_AZ, in_range.
  destruct (N.leb_spec 65 c), (N.leb_spec c 90); simpl; try done.
  destruct (N.eqb_spec (c + 32) 46), (N.eqb_spec c 46); (done || lia).
Qed.

Lemma chr_lower_idemp (c : N) : chr_lower (chr_lower c) = chr_lower c.
Proof.
  unfold chr_lower, is_AZ, in_range.
  destruct (N.leb_spec 65 c), (N.leb_spec c 90); simpl;
    destruct (N.leb_spec 65 (c + 32)), (N.leb_spec (c + 32) 90); simpl; try done; try lia;
    destruct (N.leb_spec 65 c), (N.leb_spec c 90); simpl; (done || lia).
Qed.

Lemma split_first_lower (t : str) :
  split_first 46 (str_lower t) = str_lower (split_first 46 t).
Proof.
  induction t as [|c t IH]; simpl; [done|].
  rewrite chr_lower_stop. destruct (c =? 46)%N; simpl; [done|]. by rewrite IH.
Qed.

Lemma str_lower_idemp (t : str) : str_lower (str_lower t) = str_lower t.
Proof.
  unfold str_lower. rewrite map_map. apply map_ext. intros c. apply chr_lower_idemp.
Qed.

Lemma split_first_no_stop (t : str) : str_in [46%N] t = false → split_first 46 t = t.
Proof.
  induction t as [|c t IH]; [done|]. cbn [str_in str_startswith split_first].
  rewrite orb_false_iff, andb_false_iff. intros [[Hc|Hc] Ht]; [|by destruct t].
  rewrite N.eqb_sym, Hc. by rewrite IH.
Qed.

Lemma has_transition_lower (t : str) :
  has_transition (str_lower t) = mentions_transition (first_sentence t).
Proof.
  unfold has_transition, mentions_transition, first_sentence.
  change (utf8 ".") with [46%N].
  destruct (str_in [46%N] (str_lower t)) eqn:E.
  - by rewrite split_first_lower, str_lower_idemp.
  - rewrite str_lower_idemp, <- split_first_lower.
    by rewrite (split_first_no_stop _ E).
Qed.

(** On a text whose only terminator is the full stop, the clause of the
    specification is the clause of the code. *)
Lemma leading_clause_full_stops (t : str) :
  full_stops_only t → leading_clause t = first_sentence t.
Proof.
  unfold first_sentence. induction 1 as [|c t Hc _ IH]; [done|].
  cbn [leading_clause split_first]. destruct (is_terminator c) eqn:E.
  - by rewrite (Hc eq_refl).
  - destruct (N.eqb_spec c 46) as [->|_]; [by vm_compute in E|]. by rewrite IH.
Qed.

(** C4 as stated fails: the clause of the code ends at the first full
    stop only.  After a question mark the code reads on, finds [now] and
    counts a transition, where the text up to the first sentence terminator
    has none. *)
Lemma question_mark_does_not_end_the_clause :
  let self := {| slides_content := [];
                 plan := [];
                 script := [spoken 1 "Hi."; spoken 2 "Really? Now we go on."] |} in
  let texts := [utf8 "Hi."; utf8 "Really? Now we go on."] in
  Forall2 (λ s t, script_text s = Some t) (script self) texts
  ∧ leading_clause (utf8 "Really? Now we go on.") = utf8 "Really"
  ∧ first_sentence (utf8 "Really? Now we go on.") = utf8 "Really? Now we go on"
  ∧ (transitions_spec texts == 0)%Q
  ∧ ∃ v, _evaluate_transitions self = Ok v ∧ (v == 1)%Q ∧ ¬ (v == transitions_spec texts)%Q.
Proof.
  intros self texts. split; [repeat constructor|].
  split; [by vm_compute|]. split; [by vm_compute|]. split; [by vm_compute|].
  eexists. split; [vm_compute; reflexivity|]. split; by vm_compute.
Qed.

(** C4, amended.  With at most one item the transitions score is 1.  With
    more, it is the number of later items whose leading clause has a
    transition phrase, case ignored, over the number of later items, the
    leading clause being the text up to the first full stop (the whole text
    when it has none).  This is the score of the specification on every
    script whose texts have no other sentence terminator than the full
    stop. *)
Theorem transitions_refines_spec (self : SpeechEvaluator) (texts : list str) :
  Forall2 (λ s t, script_text s = Some t) (script self) texts →
  (length (script self) ≤ 1 → _evaluate_transitions self = Ok 1%Q)
  ∧ ∃ v, _evaluate_transitions self = Ok v
         ∧ (v == transitions_by_full_stop texts)%Q
         ∧ (Forall full_stops_only texts → (v == transitions_spec texts)%Q).
Proof.
  intros H.
  assert (Forall full_stops_only texts →
          transitions_spec texts = transitions_by_full_stop texts) as Hspec.
  { assert (∀ l, Forall full_stops_only l →
              filter (λ t, mentions_transition (leading_clause t)) l
              = filter (λ t, mentions_transition (first_sentence t)) l) as Hfilter.
    { induction 1 as [|t l Ht _ IH]; [done|].
      rewrite !filter_cons, IH. by rewrite (leading_clause_full_stops t Ht). }
    intros Hstops. unfold transitions_spec, transitions_by_full_stop, transitions_score.
    destruct Hstops as [|t0 later _ Hstops]; [done|]. destruct later as [|t1 later]; [done|].
    by rewrite (Hfilter _ Hstops). }
  unfold _evaluate_transitions.
  destruct H as [|first t later texts Hfirst Hlater].
  { split; [done|]. exists 1%Q. split; [done|]. split; [reflexivity|].
    intros Hstops. by rewrite (Hspec Hstops). }
  cbn [transitions_loop Nat.eqb].
  rewrite (transitions_loop_later 0 later texts 0 Hlater). monad.
  pose proof (Forall2_length _ _ _ Hlater) as Hlen.
  simpl length.
  replace (Z.of_nat (S (length later)) - 1)%Z with (Z.of_nat (length later)) by lia.
  destruct Hlater as [|s2 t2 later texts Hs2 Hlater].
  { split; [done|]. exists 1%Q. split; [done|]. split; [reflexivity|].
    intros Hstops. by rewrite (Hspec Hstops). }
  split; [simpl; lia|].
  replace (0 <? Z.of_nat (length (s2 :: later)))%Z with true
    by (symmetry; apply Z.ltb_lt; simpl; lia).
  rewrite py_div_ok.
  2:{ pose proof (Qnat_pos (length (s2 :: later))) as Hp. simpl in Hp.
      change (inject_Z (Z.of_nat (length (s2 :: later)))) with (Qnat (length (s2 :: later))).
      simpl. specialize (Hp ltac:(lia)). lra. }
  eexists. split; [done|].
  assert (∀ a b : Q, a = b → (a == b)%Q) as Heq by (by intros a b ->).
  assert (inject_Z (Z.of_nat (0 + length (filter (λ t, has_transition (str_lower t))
                                            (t2 :: texts))))
          / inject_Z (Z.of_nat (length (s2 :: later)))
          = transitions_by_full_stop (t :: t2 :: texts))%Q as Hcode.
  { unfold transitions_by_full_stop, transitions_score.
    rewrite (list_filter_iff (λ t, has_transition (str_lower t))
               (λ t, mentions_transition (first_sentence t)))
      by (intros x; by rewrite has_transition_lower).
    simpl length in *. rewrite Hlen. reflexivity. }
  split; [by apply Heq|]. intros Hstops. rewrite (Hspec Hstops). by apply Heq.
Qed.

Lemma transitions_refines_spec_witness :
  let self := {| slides_content := [];
                 plan := [];
                 script := [spoken 1 "Hello everyone.";
                            spoken 2 "Next, we look at the results. More follows.";
                            spoken 3 "This part is plain. However, it goes on."] |} in
  let texts := [utf8 "Hello everyone.";
                utf8 "Next, we look at the results. More follows.";
                utf8 "This part is plain. However, it goes on."] in
  Forall2 (λ s t, script_text s = Some t) (script self) texts
  ∧ (transitions_by_full_stop texts == 1 / 2)%Q
  ∧ ∃ v, _evaluate_transitions self = Ok v
         ∧ (v == transitions_by_full_stop texts)%Q
         ∧ (Forall full_stops_only texts → (v == transitions_spec texts)%Q).
Proof.
  intros self texts.
  assert (Forall2 (λ s t, script_text s = Some t) (script self) texts) as H.
  { repeat constructor. }
  split; [exact H|]. split; [by vm_compute|].
  exact (proj2 (transitions_refines_spec self texts H)).
Defined.

(** ** Coverage and the empty slide text *)

Lemma evaluate_content_consistency_empty_slides self c :
  slides_content self = [] →
  evaluate_content_consistency self = Ok c → keyword_coverage c = 1%Q.
Proof.
  intros Hs. unfold evaluate_content_consistency. rewrite Hs.
  destruct (speech_text_of self) as [t|]; [|done]. monad.
  change (_calculate_coverage (ICounter (_extract_keywords [])) (ICounter (_extract_keywords t)))
    with (Ok 1%Q : result Q). monad.
  destruct (_calculate_coverage _ _); [|done]. monad.
  destruct (_check_slide_title_coverage _); [|done]. monad.
  destruct (_detect_hallucination_risk _ _); [|done]. monad.
  destruct (_check_fact_consistency _); [|done]. monad.
  by intros [= <-].
Qed.

Lemma evaluate_detail_richness_empty_slides self d :
  slides_content self = [] →
  evaluate_detail_richness self = Ok d → expansion_ratio_score d = 0%Q.
Proof.
  intros Hs. unfold evaluate_detail_richness, _calculate_expansion_ratio. rewrite Hs.
  destruct (speech_text_of self) as [t|]; [|done]. monad.
  change (length (str_split []) =? 0) with true. monad.
  destruct (_check_example_usage _); [|done]. monad.
  destruct (_evaluate_explanations _); [|done]. monad.
  destruct (_evaluate_context _); [|done]. monad.
  by intros [= <-].
Qed.

(** C8.  Coverage of an empty source is 1 against every target.  With an
    empty slide text and a script of one item with some text, the
    evaluation completes, keyword coverage is 1 and the expansion ratio
    score is 0 (the planned time being within the binary64 bound). *)
Theorem coverage_of_empty_source (plan_items : list PlanItem) (slide : Z) (text : str) :
  Forall (λ p, is_Some (plan_slide p)) plan_items →
  text ≠ [] →
  durations_bounded {| slides_content := []; plan := plan_items; script := [] |} →
  (∀ T, _calculate_coverage (ICounter ∅) T = Ok 1%Q
        ∧ _calculate_coverage (ISet ∅) T = Ok 1%Q)
  ∧ ∃ r, evaluate_all {| slides_content := [];
                         plan := plan_items;
                         script := [{| script_slide := Some slide;
                                       script_text := Some text |}] |} = Ok r
         ∧ keyword_coverage (content_consistency (dimensions r)) = 1%Q
         ∧ expansion_ratio_score (detail_richness (dimensions r)) = 0%Q.
Proof.
  intros Hplan Htext Hbound. split; [by intros T|].
  set (self := {| slides_content := []; plan := plan_items;
                  script := [{| script_slide := Some slide; script_text := Some text |}] |}).
  destruct (evaluate_all_complete self) as [r [Hr _]].
  { split; [|split]; try done; repeat constructor; simpl; eauto. }
  { exact Hbound. }
  exists r. split; [done|].
  apply evaluate_all_inv in Hr as (Hc & _ & _ & Hd & _).
  split.
  - by apply (evaluate_content_consistency_empty_slides self).
  - by apply (evaluate_detail_richness_empty_slides self).
Qed.

Lemma coverage_of_empty_source_witness :
  let plan_items := [{| plan_slide := Some 1%Z; plan_title := Some (utf8 "Overview");
                        plan_duration := Some (utf8 "60 seconds"); plan_content := None |}] in
  Forall (λ p, is_Some (plan_slide p)) plan_items
  ∧ utf8 "Welcome to the talk." ≠ []
  ∧ durations_bounded {| slides_content := []; plan := plan_items; script := [] |}
  ∧ ∃ r, evaluate_all {| slides_content := [];
                         plan := plan_items;
                         script := [{| script_slide := Some 1%Z;
                                       script_text := Some (utf8 "Welcome to the talk.") |}] |}
         = Ok r
         ∧ keyword_coverage (content_consistency (dimensions r)) = 1%Q
         ∧ expansion_ratio_score (detail_richness (dimensions r)) = 0%Q.
Proof.
  intros plan_items.
  assert (Forall (λ p, is_Some (plan_slide p)) plan_items) as H1.
  { repeat constructor. simpl. eauto. }
  assert (utf8 "Welcome to the talk." ≠ []) as H2 by (by vm_compute).
  assert (durations_bounded {| slides_content := []; plan := plan_items; script := [] |})
    as H3 by (apply Qle_bool_iff; by vm_compute).
  split; [exact H1|]. split; [exact H2|]. split; [exact H3|].
  exact (proj2 (coverage_of_empty_source plan_items 1
                  (utf8 "Welcome to the talk.") H1 H2 H3)).
Defined.

(** ** Missing keys *)

(** C10.  A script item without [text] makes the evaluation raise
    [KeyError]; so does, when every text is there, a plan or script item
    without [slide].  With these keys present the evaluation raises no
    [KeyError], whether or not the plan items carry [title] and [duration],
    and it completes when the planned time is within the binary64 bound. *)
Theorem missing_key_raises_key_error (self : SpeechEvaluator) :
  (¬ texts_present self → evaluate_all self = Raise (KeyError "text"))
  ∧ (texts_present self → ¬ slides_present self →
     evaluate_all self = Raise (KeyError "slide"))
  ∧ (required_keys_present self → is_key_error (evaluate_all self) = false)
  ∧ (required_keys_present self → durations_bounded self →
     is_ok (evaluate_all self) = true)
  ∧ (¬ required_keys_present self → is_key_error (evaluate_all self) = true).
Proof.
  split; [|split; [|split; [|split]]].
  - apply evaluate_all_missing_text.
  - apply evaluate_all_missing_slide.
  - intros H. by destruct (evaluate_all_cases self H) as [[r [-> _]]| ->].
  - intros H Hb. by destruct (evaluate_all_complete self H Hb) as [r [-> _]].
  - intros H. destruct (decide (texts_present self)) as [Ht|Ht].
    + rewrite evaluate_all_missing_slide; [done|done|]. intros Hs. by apply H.
    + by rewrite evaluate_all_missing_text.
Qed.

Lemma missing_key_raises_key_error_witness :
  let no_text := {| slides_content := utf8 "Results"; plan := [];
                    script := [{| script_slide := Some 1%Z; script_text := None |}] |} in
  let no_slide := {| slides_content := utf8 "Results";
                     plan := [{| plan_slide := None; plan_title := Some (utf8 "Results");
                                 plan_duration := Some (utf8 "60 seconds");
                                 plan_content := None |}];
                     script := [spoken 1 "Here are the results."] |} in
  let bare := {| slides_content := utf8 "Results";
                 plan := [{| plan_slide := Some 1%Z; plan_title := None;
                             plan_duration := None; plan_content := None |}];
                 script := [spoken 1 "Here are the results."] |} in
  (¬ texts_present no_text ∧ evaluate_all no_text = Raise (KeyError "text"))
  ∧ (texts_present no_slide ∧ ¬ slides_present no_slide
     ∧ evaluate_all no_slide = Raise (KeyError "slide"))
  ∧ (required_keys_present bare ∧ durations_bounded bare
     ∧ is_key_error (evaluate_all bare) = false ∧ is_ok (evaluate_all bare) = true).
Proof.
  intros no_text no_slide bare.
  assert (¬ texts_present no_text) as H1.
  { intros H. apply Forall_cons in H as [[v Hv] _]. discriminate Hv. }
  assert (texts_present no_slide) as H2.
  { repeat constructor. simpl. eauto. }
  assert (¬ slides_present no_slide) as H3.
  { intros [H _]. apply Forall_cons in H as [[v Hv] _]. discriminate Hv. }
  assert (required_keys_present bare) as H4.
  { repeat constructor; simpl; eauto. }
  split; [|split].
  - split; [exact H1|]. exact (proj1 (missing_key_raises_key_error no_text) H1).
  - split; [exact H2|]. split; [exact H3|].
    exact (proj1 (proj2 (missing_key_raises_key_error no_slide)) H2 H3).
  - assert (durations_bounded bare) as H5 by (apply Qle_bool_iff; by vm_compute).
    split; [exact H4|]. split; [exact H5|]. split.
    + exact (proj1 (proj2 (proj2 (missing_key_raises_key_error bare))) H4).
    + exact (proj1 (proj2 (proj2 (proj2 (missing_key_raises_key_error bare)))) H4 H5).
Defined.

(** The same on payloads: valid JSON with both arrays, one raising
    [KeyError], one completing without [title] and [duration]. *)
Example payload_without_text :
  run_outcome <$> default None (match run (utf8 "Results")
      (payload "{'plan': [{'slide': 1, 'title': 'Results', 'duration': '60 seconds'}], 'script': [{'slide': 1}]}")
    with Ok o => Some o | Raise _ => None end)
  = Some (Raise (KeyError "text")).
Proof. by vm_compute. Qed.

Example payload_without_title_and_duration :
  is_ok <$> (run_outcome <$> default None (match run (utf8 "Results")
      (payload "{'plan': [{'slide': 1}], 'script': [{'slide': 1, 'text': 'Here are the results.'}]}")
    with Ok o => Some o | Raise _ => None end))
  = Some true.
Proof. by vm_compute. Qed.

(** ** Every score is in the unit interval *)



(** C5 as stated fails on a second count: a plan whose items carry every
    key makes the evaluation raise [OverflowError] when a duration is so
    long that a squared deviation of the time balance leaves the binary64
    range. *)
Lemma huge_duration_overflows :
  let self := {| slides_content := utf8 "Results";
                 plan := [keyed_item 1 ("1" +:+ zeros 200 +:+ " min");
                          keyed_item 2 "1 min"; keyed_item 3 "1 min"];
                 script := [spoken 1 "Here are the results."] |} in
  required_keys_present self
  ∧ _evaluate_time_balance self = Raise OverflowError
  ∧ evaluate_all self = Raise OverflowError.
Proof.
  intros self. split; [repeat constructor; simpl; eauto|]. split; by vm_compute.
Qed.



(** ** Parse errors *)

(** C2 as stated fails: a payload that is valid JSON without [script] is
    constructed with an empty script and evaluated to the end. *)
Lemma payload_without_script_is_evaluated :
  json_loads (strip_fences (payload "{'plan': []}"))
  = Some (JObject [(utf8 "plan", JArray [])])
  ∧ members_get [(utf8 "plan", JArray [])] (utf8 "script") = None
  ∧ ∃ o, run [] (payload "{'plan': []}") = Ok (Some o)
         ∧ attr_script (run_attributes o) = JArray []
         ∧ is_ok (run_outcome o) = true.
Proof.
  split; [by vm_compute|]. split; [by vm_compute|].
  eexists. split; [vm_compute; reflexivity|]. split; by vm_compute.
Qed.

(** C2, amended.  Construction fails with the parse error exactly when the
    payload, its code fence stripped, is not valid JSON.  A JSON object
    without [script] is constructed with the empty script.  A payload that
    is constructed never raises the parse error when it is evaluated. *)
Theorem parse_error_iff_invalid_json (slides_text speech_json_str : str) :
  (__init__ slides_text speech_json_str = Raise JSONDecodeError
   ↔ json_loads (strip_fences speech_json_str) = None)
  ∧ (run slides_text speech_json_str = Raise JSONDecodeError
     ↔ json_loads (strip_fences speech_json_str) = None)
  ∧ (∀ members,
       json_loads (strip_fences speech_json_str) = Some (JObject members) →
       members_get members (utf8 "script") = None →
       ∃ a, __init__ slides_text speech_json_str = Ok a ∧ attr_script a = JArray [])
  ∧ (∀ o, run slides_text speech_json_str = Ok (Some o) →
          run_outcome o ≠ Raise JSONDecodeError).
Proof.
  assert (__init__ slides_text speech_json_str = Raise JSONDecodeError
          ↔ json_loads (strip_fences speech_json_str) = None) as Hinit.
  { unfold __init__. destruct (json_loads _) as [d|]; [|done].
    split; [|done]. destruct d; simpl; done. }
  split; [done|]. split; [|split].
  - rewrite <- Hinit. unfold run.
    destruct (__init__ slides_text speech_json_str) as [a|e]; simpl; [done|].
    split; by intros [= ->].
  - intros members Hload Hget. unfold __init__. rewrite Hload. simpl.
    rewrite Hget. simpl. eauto.
  - intros o. unfold run.
    destruct (__init__ slides_text speech_json_str) as [a|e]; simpl; [|done].
    destruct (evaluator_of a) as [self|]; simpl; [|done].
    intros [= <-]. simpl.
    destruct (decide (required_keys_present self)) as [H|H].
    + by destruct (evaluate_all_cases self H) as [[r [-> _]]| ->].
    + destruct (decide (texts_present self)) as [Ht|Ht].
      * rewrite evaluate_all_missing_slide; [done|done|]. intros Hs. by apply H.
      * by rewrite evaluate_all_missing_text.
Qed.

(** * Further properties of the evaluator *)

(** ** Keyword sets: coverage and new vocabulary *)

Lemma coverage_value `{Countable K} (s t : gset K) :
  s ≠ ∅ →
  ∃ v, py_div (Qnat (size (s ∩ t))) (Qnat (size s)) = Ok v
       ∧ ((v == 1)%Q ↔ s ⊆ t) ∧ ((v == 0)%Q ↔ s ## t).
Proof.
  intros Hs.
  assert (0 < size s) as Hpos.
  { assert (size s ≠ 0); [|lia].
    apply size_non_empty_iff. intros Heq. apply Hs. by apply leibniz_equiv. }
  pose proof (Qnat_pos _ Hpos) as HQ.
  rewrite py_div_ok by lra. eexists. split; [done|]. split.
  - split.
    + intros Hv. apply subseteq_intersection_2_L.
      apply set_subseteq_size_eq; [apply intersection_subseteq_l|].
      assert (Qnat (size s) <= Qnat (size (s ∩ t)))%Q as Hle.
      { apply (Qmult_lt_0_le_reg_r _ _ (/ Qnat (size s))).
        - by apply Qinv_lt_0_compat.
        - rewrite Qmult_inv_r by lra. unfold Qdiv in Hv. rewrite Hv. lra. }
      unfold Qnat in Hle. rewrite <- Zle_Qle in Hle. lia.
    + intros Hsub. rewrite (subseteq_intersection_1_L _ _ Hsub).
      unfold Qdiv. rewrite Qmult_inv_r by lra. reflexivity.
  - split.
    + intros Hv. apply disjoint_intersection_L.
      apply leibniz_equiv, size_empty_iff.
      assert (Qnat (size (s ∩ t)) == 0)%Q as Hz.
      { rewrite <- (Qmult_0_l (Qnat (size s))), <- Hv. field. lra. }
      unfold Qnat, Qeq in Hz. simpl in Hz. lia.
    + intros Hd. apply disjoint_intersection_L in Hd. rewrite Hd, size_empty.
      unfold Qdiv. change (Qnat 0) with 0%Q. lra.
Qed.

(** X1.  On a source that is not empty, coverage is 1 exactly when every
    source key is in the target and 0 exactly when none is. *)
Theorem coverage_full_iff_subset (source target : items) :
  items_empty source = false →
  (∀ c t, source = ISet c → target ≠ ICounter t) →
  ∃ v, _calculate_coverage source target = Ok v
       ∧ ((v == 1)%Q ↔ item_keys source ⊆ item_keys target)
       ∧ ((v == 0)%Q ↔ item_keys source ## item_keys target).
Proof.
  intros E Hty. unfold _calculate_coverage. rewrite E.
  destruct source as [c|s]; simpl in E; apply bool_decide_eq_false in E.
  - assert (dom c ≠ (∅ : gset str)) as Hd.
    { intros Hd. apply E. by apply dom_empty_inv_L. }
    destruct target as [t|t]; apply (coverage_value _ _ Hd).
  - destruct target as [t|t]; [by destruct (Hty s t)|].
    apply (coverage_value _ _ E).
Qed.

Lemma coverage_full_iff_subset_witness :
  let source := ISet {[utf8 "model"; utf8 "data"]} in
  let target := ISet {[utf8 "data"; utf8 "model"; utf8 "graph"]} in
  items_empty source = false
  ∧ ∃ v, _calculate_coverage source target = Ok v
         ∧ ((v == 1)%Q ↔ item_keys source ⊆ item_keys target)
         ∧ ((v == 0)%Q ↔ item_keys source ## item_keys target).
Proof.
  intros source target.
  assert (items_empty source = false) as H1 by (by vm_compute).
  assert (∀ c t, source = ISet c → target ≠ ICounter t) as H2 by done.
  split; [exact H1|]. exact (coverage_full_iff_subset source target H1 H2).
Defined.

(** X2.  The two linear pieces of the hallucination remap are the identity:
    the risk is the share of the speech keywords that the slides do not
    have, 0 for a speech without keywords or with slide keywords only, and
    1 when speech and slides share no keyword. *)
Theorem hallucination_risk_is_new_share (source target : gmap str nat) :
  ∃ v, _detect_hallucination_risk source target = Ok v
       ∧ (v == if bool_decide (target = ∅) then 0
               else Qnat (size (dom target ∖ dom source)) / Qnat (size (dom target)))%Q
       ∧ (dom target ⊆ dom source → (v == 0)%Q)
       ∧ (target ≠ ∅ → dom target ## dom source → (v == 1)%Q).
Proof.
  unfold _detect_hallucination_risk. case_bool_decide as E.
  { exists 0%Q. split; [done|]. split; [reflexivity|]. split; [reflexivity|done]. }
  assert (0 < size target) as Hpos.
  { assert (size target ≠ 0); [|lia]. by apply map_size_non_empty_iff. }
  pose proof (Qnat_pos _ Hpos) as HQ.
  rewrite py_div_ok by lra. monad. rewrite size_dom.
  set (r := (Qnat (size (dom target ∖ dom source)) / Qnat (size target))%Q).
  assert (∃ v, (if Qleb r 0.3 then Ok (r / 0.3 * 0.3)%Q
                else Ok (0.3 + (r - 0.3) / 0.7 * 0.7)%Q) = Ok v ∧ (v == r)%Q)
    as [v [-> Hv]].
  { destruct (Qleb r 0.3); eexists; (split; [done|]); qlra. }
  exists v. split; [done|]. split; [done|]. split.
  - intros Hsub. rewrite Hv. unfold r.
    rewrite (subseteq_empty_difference_L _ _ Hsub), size_empty.
    unfold Qdiv. change (Qnat 0) with 0%Q. lra.
  - intros _ Hdisj. rewrite Hv. unfold r.
    rewrite (difference_disjoint_L _ _ Hdisj).
    rewrite size_dom. unfold Qdiv. rewrite Qmult_inv_r by lra. reflexivity.
Qed.

(** ** Coherence *)

Lemma forallb_seq_shift (f : nat → bool) (a n : nat) :
  forallb f (seq (S a) n) = forallb (λ i, f (S i)) (seq a n).
Proof.
  revert a. induction n as [|n IH]; intros a; simpl; [done|]. by rewrite IH.
Qed.

Lemma forallb_pointwise {A} (f g : A → bool) (l : list A) :
  (∀ x, f x = g x) → forallb f l = forallb g l.
Proof. intros H. induction l as [|x l IH]; simpl; [done|]. by rewrite H, IH. Qed.

Lemma non_decreasing_cons (x y : Z) (l : list Z) :
  non_decreasing (x :: y :: l) = (x <=? y)%Z && non_decreasing (y :: l).
Proof.
  unfold non_decreasing. simpl length. rewrite Nat.sub_succ, Nat.sub_0_r.
  replace (S (length l) - 1) with (length l) by lia.
  simpl seq. cbn [forallb]. f_equal.
  rewrite forallb_seq_shift. apply forallb_pointwise. intros i.
  by replace (S i + 1) with (S (i + 1)) by lia.
Qed.

(** X3.  The index loop of the coherence check decides sortedness: it
    holds exactly when each slide index is at most the next one. *)
Theorem non_decreasing_iff_sorted (l : list Z) :
  non_decreasing l = true ↔ Sorted Z.le l.
Proof.
  induction l as [|x [|y l] IH].
  - split; [constructor|done].
  - split; [repeat constructor|done].
  - rewrite non_decreasing_cons, andb_true_iff, IH, Z.leb_le. split.
    + intros [Hxy Hs]. constructor; [done|]. by constructor.
    + intros Hs. apply Sorted_inv in Hs as [Hs Hhd].
      split; [|done]. by apply HdRel_inv in Hhd.
Qed.

Lemma mapM_getitem_Forall2 {A B} (k : string) (f : A → option B) (l : list A) (vs : list B) :
  Forall2 (λ x v, f x = Some v) l vs → mapM (λ x, getitem k (f x)) l = Ok vs.
Proof.
  induction 1 as [|x v l vs Hx _ IH]; simpl; [done|].
  rewrite Hx. simpl. by rewrite IH.
Qed.

(** X4.  When every item carries its slide index, the coherence score is 1
    exactly when the plan indices and the script indices are sorted and
    every slide of the plan is spoken about in the script. *)
Theorem coherence_full_iff (self : SpeechEvaluator) (ps ss : list Z) :
  Forall2 (λ p z, plan_slide p = Some z) (plan self) ps →
  Forall2 (λ s z, script_slide s = Some z) (script self) ss →
  ∃ v, _evaluate_coherence self = Ok v
       ∧ ((v == 1)%Q ↔ Sorted Z.le ps ∧ Sorted Z.le ss ∧ ∀ z, z ∈ ps → z ∈ ss).
Proof.
  intros Hp Hs. unfold _evaluate_coherence.
  rewrite (mapM_getitem_Forall2 "slide" plan_slide _ _ Hp). monad.
  rewrite (mapM_getitem_Forall2 "slide" script_slide _ _ Hs). monad.
  set (P := list_to_set ps : gset Z). set (S := list_to_set ss : gset Z).
  assert ((∀ z, z ∈ ps → z ∈ ss) ↔ P ⊆ S) as Hsubset.
  { unfold P, S. split.
    - intros H z. rewrite !elem_of_list_to_set. apply H.
    - intros H z Hz. apply (elem_of_list_to_set (C:=gset Z)).
      apply H. by apply elem_of_list_to_set. }
  assert (∃ c, (if bool_decide (P = ∅) then Ok 1%Q
                else py_div (Qnat (size (P ∩ S))) (Qnat (size P))) = Ok c
               ∧ unit_score c ∧ ((c == 1)%Q ↔ P ⊆ S)) as (c & -> & [Hc0 Hc1] & Hc).
  { case_bool_decide as E.
    - exists 1%Q. split; [done|]. split; [split; lra|]. split; [|reflexivity].
      intros _. rewrite E. apply empty_subseteq.
    - destruct (coverage_value P S E) as (c & Hc & Hfull & _).
      exists c. split; [done|]. split; [|done].
      destruct (returns_unit_ratio (size (P ∩ S)) (size P)) as (c' & Hc' & Hu).
      + apply subseteq_size, intersection_subseteq_l.
      + assert (size P ≠ 0); [|lia].
        apply size_non_empty_iff. intros Heq. apply E. by apply leibniz_equiv.
      + rewrite Hc in Hc'. by injection Hc' as ->. }
  monad. eexists. split; [done|].
  rewrite <- !non_decreasing_iff_sorted, Hsubset, <- Hc.
  destruct (non_decreasing ps), (non_decreasing ss); simpl; split.
  all: try (intros Hv; repeat split; qlra).
  all: try (intros (? & ? & Hsub); qlra).
  all: intros (? & ? & _); done.
Qed.

Lemma coherence_full_iff_witness :
  let self := {| slides_content := [];
                 plan := [{| plan_slide := Some 1%Z; plan_title := None;
                             plan_duration := None; plan_content := None |};
                          {| plan_slide := Some 2%Z; plan_title := None;
                             plan_duration := None; plan_content := None |}];
                 script := [spoken 1 "First."; spoken 2 "Second."; spoken 3 "Third."] |} in
  Forall2 (λ p z, plan_slide p = Some z) (plan self) [1; 2]%Z
  ∧ Forall2 (λ s z, script_slide s = Some z) (script self) [1; 2; 3]%Z
  ∧ ∃ v, _evaluate_coherence self = Ok v
         ∧ ((v == 1)%Q ↔ Sorted Z.le [1; 2]%Z ∧ Sorted Z.le [1; 2; 3]%Z
                          ∧ ∀ z, z ∈ [1; 2]%Z → z ∈ [1; 2; 3]%Z).
Proof.
  intros self.
  assert (Forall2 (λ p z, plan_slide p = Some z) (plan self) [1; 2]%Z) as H1
    by repeat constructor.
  assert (Forall2 (λ s z, script_slide s = Some z) (script self) [1; 2; 3]%Z) as H2
    by repeat constructor.
  split; [exact H1|]. split; [exact H2|].
  exact (coherence_full_iff self [1; 2]%Z [1; 2; 3]%Z H1 H2).
Defined.

(** ** Durations *)




Lemma Qnum_zero (x : Q) : (x == 0)%Q → Qnum x = 0%Z.
Proof. destruct x as [n m]. unfold Qeq. simpl. lia. Qed.




Lemma forallb_Forall_Qleb (c : Q) (l : list Q) :
  forallb (λ d, Qleb c d) l = true ↔ Forall (λ d, c <= d)%Q l.
Proof.
  induction l as [|x l IH]; simpl.
  - split; [constructor|done].
  - rewrite andb_true_iff, IH, Qleb_true, Forall_cons. done.
Qed.

(** X6.  With three timed items or more, the time distribution score is 1
    exactly when the first and the last item take at most 2 minutes and
    every item between them takes at least 1 minute. *)
Theorem time_distribution_full_iff (self : SpeechEvaluator)
    (first last : Q) (middle : list Q) :
  timed_durations self = first :: middle ++ [last] →
  middle ≠ [] →
  (_evaluate_time_distribution self == 1)%Q
  ↔ (first <= 2)%Q ∧ (last <= 2)%Q ∧ Forall (λ d, 1 <= d)%Q middle.
Proof.
  intros E Hm. unfold _evaluate_time_distribution. cbv zeta. rewrite E.
  assert (length (first :: middle ++ [last]) = S (S (length middle))) as Hlen.
  { simpl. rewrite length_app. simpl. lia. }
  rewrite Hlen.
  replace (S (S (length middle)) <? 3) with false.
  2:{ symmetry. apply Nat.ltb_ge. destruct middle; [done|simpl; lia]. }
  replace (2 <? S (S (length middle))) with true.
  2:{ symmetry. apply Nat.ltb_lt. destruct middle; [done|simpl; lia]. }
  replace (List.last (first :: middle ++ [last]) 0%Q) with last.
  2:{ symmetry. rewrite app_comm_cons. apply last_last. }
  replace (drop 1 (take (S (S (length middle)) - 1) (first :: middle ++ [last])))
    with middle.
  2:{ replace (S (S (length middle)) - 1) with (S (length middle)) by lia.
      cbn [take drop]. by rewrite take_app_length. }
  cbn [nth]. rewrite <- forallb_Forall_Qleb, <- !Qleb_true.
  destruct (Qleb first 2), (Qleb last 2), (forallb (λ d, Qleb 1 d) middle); simpl;
    split; try (intros H; by vm_compute in H); try (intros (? & ? & ?); done);
    try (intros _; by vm_compute).
Qed.

Lemma time_distribution_full_iff_witness :
  let self := {| slides_content := [];
                 plan := [timed_item "60 seconds"; timed_item "3 min";
                          timed_item "90 seconds"];
                 script := [] |} in
  timed_durations self = [60 / 60; 3 + 0 / 1; 90 / 60]%Q
  ∧ (_evaluate_time_distribution self == 1)%Q.
Proof.
  intros self.
  assert (timed_durations self
          = (60 / 60)%Q :: [(3 + 0 / 1)%Q] ++ [(90 / 60)%Q]) as H by (by vm_compute).
  assert ([(3 + 0 / 1)%Q] ≠ []) as Hm by done.
  split; [exact H|].
  apply (proj2 (time_distribution_full_iff self _ _ _ H Hm)).
  split; [by vm_compute|]. split; [by vm_compute|]. repeat constructor. by vm_compute.
Defined.

(** X7.  On a plan of n items (n at least 1) the duration score is 1 exactly
    when the total time is between n and 2.5 n minutes; a longer talk never
    scores below 0.4, a shorter one scores its share of n minutes. *)
Theorem duration_appropriateness_bands (self : SpeechEvaluator) :
  plan self ≠ [] →
  let n := Qnat (length (plan self)) in
  let total := _calculate_total_time self in
  ∃ v, _evaluate_duration_appropriateness self total = Ok v
       ∧ ((v == 1)%Q ↔ (n <= total <= n * 2.5)%Q)
       ∧ ((n * 2.5 < total)%Q → (0.4 <= v < 1)%Q)
       ∧ ((total < n)%Q → (v == total / n)%Q).
Proof.
  intros Hne. cbv zeta. unfold _evaluate_duration_appropriateness. cbv zeta.
  pose proof (total_time_nonneg (plan self) 0) as Htot.
  fold (_calculate_total_time self) in Htot.
  set (total := _calculate_total_time self) in *.
  assert (0 < Qnat (length (plan self)))%Q as Hn.
  { apply Qnat_pos. destruct (plan self); [done|simpl; lia]. }
  set (n := Qnat (length (plan self))) in *.
  destruct (Qleb (n * 1) total && Qleb total (n * 2.5)) eqn:E1.
  { bools. exists 1%Q. split; [done|]. split; [|split]; lra. }
  destruct (Qltb total (n * 1)) eqn:E2.
  - bools; (rewrite py_div_ok by lra); eexists; (split; [done|]).
    all: assert (total / n < 1)%Q by (apply Qlt_shift_div_r; lra).
    all: assert (total / (n * 1) == total / n)%Q as Hsame
           by (apply Qdiv_comp; [reflexivity|lra]).
    all: set (q := (total / n)%Q) in *; set (q' := (total / (n * 1))%Q) in *.
    all: split; [|split]; lra.
  - bools; try lra. rewrite py_div_ok by lra. monad. eexists. split; [done|].
    assert (0 < (total - n * 2.5) / (n * 2.5))%Q as Hq.
    { apply Qlt_shift_div_l; lra. }
    set (q := ((total - n * 2.5) / (n * 2.5))%Q) in *.
    unfold py_max.
    destruct (Qltb 0.4 (1 - q)) eqn:E3; bools; (split; [|split]); lra.
Qed.

Lemma duration_appropriateness_bands_witness :
  let self := {| slides_content := [];
                 plan := [timed_item "60 seconds"; timed_item "3 min"];
                 script := [] |} in
  plan self ≠ []
  ∧ ∃ v, _evaluate_duration_appropriateness self (_calculate_total_time self) = Ok v
         ∧ ((v == 1)%Q ↔ (Qnat 2 <= _calculate_total_time self <= Qnat 2 * 2.5)%Q).
Proof.
  intros self. assert (plan self ≠ []) as H by done.
  split; [exact H|].
  destruct (duration_appropriateness_bands self H) as (v & Hv & Hone & _).
  exists v. split; [exact Hv|exact Hone].
Defined.

Lemma total_time_compat (l : list PlanItem) (a b : Q) :
  (a == b)%Q →
  (fold_left (λ total p,
                total + _parse_duration (get_default (plan_duration p) (utf8 "0 minute")))%Q
             l a
   == fold_left (λ total p,
                   total + _parse_duration (get_default (plan_duration p) (utf8 "0 minute")))%Q
                l b)%Q.
Proof.
  revert a b. induction l as [|q l IH]; intros a b Hab; [done|].
  cbn [fold_left]. apply IH. by rewrite Hab.
Qed.

Lemma total_time_skips_untimed (l : list PlanItem) (a : Q) :
  (fold_left (λ total p,
                total + _parse_duration (get_default (plan_duration p) (utf8 "0 minute")))%Q
             l a
   == fold_left (λ total p,
                   total + _parse_duration (get_default (plan_duration p) (utf8 "0 minute")))%Q
                (filter (λ p, is_Some (plan_duration p)) l) a)%Q.
Proof.
  revert a. induction l as [|p l IH]; intros a; [reflexivity|].
  rewrite filter_cons. destruct (decide (is_Some (plan_duration p))) as [Hd|Hd].
  - cbn [fold_left]. apply IH.
  - cbn [fold_left]. rewrite <- IH.
    apply eq_None_not_Some in Hd. rewrite Hd. cbn [get_default].
    apply total_time_compat.
    assert (_parse_duration (utf8 "0 minute") == 0)%Q as Hz by (by vm_compute).
    rewrite Hz. lra.
Qed.

(** X8.  An item without [duration] counts for nothing: the total time and
    the list of timed durations are those of the plan without such items. *)
Theorem untimed_items_are_ignored (slides : str) (items : list PlanItem)
    (spoken_items : list ScriptItem) :
  let self := {| slides_content := slides; plan := items; script := spoken_items |} in
  let kept := {| slides_content := slides;
                 plan := filter (λ p, is_Some (plan_duration p)) items;
                 script := spoken_items |} in
  (_calculate_total_time self == _calculate_total_time kept)%Q
  ∧ timed_durations self = timed_durations kept.
Proof.
  cbv zeta. unfold _calculate_total_time, timed_durations. simpl.
  split; [apply total_time_skips_untimed|].
  induction items as [|p items IH]; [done|].
  rewrite filter_cons. cbn [map]. rewrite filter_cons.
  destruct (decide (is_Some (plan_duration p))) as [Hd|Hd].
  - cbn [map]. rewrite filter_cons. by rewrite IH.
  - apply eq_None_not_Some in Hd. rewrite Hd. cbn [get_default].
    rewrite decide_False; [done|]. by vm_compute.
Qed.

Lemma match_number_needs_digit (prev : option N) (s : str) :
  (∀ c s', s = c :: s' → is_digit c = false) → match_at number_re prev s = None.
Proof.
  intros H. unfold match_at, number_re, plus. cbn [rmatch].
  destruct s as [|c s']; [done|]. cbn. by rewrite (H c s').
Qed.

Lemma search_number_needs_digit (prev : option N) (s : str) :
  Forall (λ c, is_digit c = false) s → search_go number_re prev s = None.
Proof.
  intros H. revert prev. induction H as [|c s Hc _ IH]; intros prev; [done|].
  cbn [search_go]. rewrite match_number_needs_digit; [apply IH|].
  by intros c' s' [= <- <-].
Qed.

Lemma lstrip_Forall (P : N → Prop) (s : str) : Forall P s → Forall P (lstrip s).
Proof.
  induction 1 as [|c s Hc H IH]; simpl; [constructor|].
  destruct (is_space c); [done|by constructor].
Qed.

Lemma str_strip_Forall (P : N → Prop) (s : str) : Forall P s → Forall P (str_strip s).
Proof.
  intros H. unfold str_strip.
  apply Forall_rev, lstrip_Forall, Forall_rev, lstrip_Forall, H.
Qed.

Lemma chr_lower_digit (c : N) : is_digit (chr_lower c) = is_digit c.
Proof.
  unfold chr_lower, is_AZ, is_digit, in_range.
  destruct (N.leb_spec 65 c), (N.leb_spec c 90); simpl; try done.
  destruct (N.leb_spec 48 (c + 32)), (N.leb_spec (c + 32) 57),
    (N.leb_spec 48 c), (N.leb_spec c 57); simpl; (done || lia).
Qed.

(** X9.  A duration text of ASCII and CJK characters without any digit
    parses to 0 minutes, whatever unit words it has. *)
Theorem parse_duration_without_digit (duration_str : str) :
  Forall (λ c, in_alphabet c = true ∧ is_digit c = false) duration_str →
  _parse_duration duration_str = 0%Q.
Proof.
  intros Halphabet.
  assert (Forall (λ c, is_digit c = false) duration_str) as H.
  { eapply Forall_impl; [exact Halphabet|]. by intros c [_ Hc]. }
  unfold _parse_duration. destruct duration_str as [|c s]; [done|].
  unfold search. rewrite search_number_needs_digit; [done|].
  apply str_strip_Forall. unfold str_lower. apply Forall_map.
  eapply Forall_impl; [exact H|]. simpl. intros x Hx. by rewrite chr_lower_digit.
Qed.

Lemma parse_duration_without_digit_witness :
  Forall (λ c, in_alphabet c = true ∧ is_digit c = false) (utf8 "a few seconds")
  ∧ _parse_duration (utf8 "a few seconds") = 0%Q.
Proof.
  assert (Forall (λ c, in_alphabet c = true ∧ is_digit c = false) (utf8 "a few seconds"))
    as H.
  { vm_compute. repeat constructor. }
  split; [exact H|]. exact (parse_duration_without_digit _ H).
Defined.

(** ** The empty script *)

Lemma expansion_ratio_empty_script (slides : str) (plan_items : list PlanItem) :
  ∃ e, _calculate_expansion_ratio
         {| slides_content := slides; plan := plan_items; script := [] |} = Ok e
       ∧ (e == 0)%Q.
Proof.
  unfold _calculate_expansion_ratio.
  change (speech_text_of {| slides_content := slides; plan := plan_items; script := [] |})
    with (Ok [] : result str).
  monad. cbv zeta. cbn [slides_content].
  destruct (length (str_split slides) =? 0) eqn:E; [by exists 0%Q|].
  apply Nat.eqb_neq in E.
  assert (0 < Qnat (length (str_split slides)))%Q as Hn by (apply Qnat_pos; lia).
  rewrite py_div_ok by lra. monad.
  set (ratio := (Qnat (length (str_split [])) / Qnat (length (str_split slides)))%Q).
  assert (ratio == 0)%Q as Hr.
  { unfold ratio, Qdiv. change (Qnat (length (str_split []))) with 0%Q. lra. }
  replace (Qleb 1.5 ratio) with false by (symmetry; apply Qleb_false; lra).
  replace (Qltb ratio 1.5) with true by (symmetry; apply Qltb_true; lra).
  cbn [andb]. eexists. split; [done|]. qlra.
Qed.

(** X10.  With an empty script, whatever the slides and the plan are, the
    four language scores and the four detail scores are all 0, and so are
    the two dimension scores: the fallback of these metrics is 0, not 1. *)
Theorem empty_script_scores_zero (self : SpeechEvaluator) :
  script self = [] →
  (∃ l, evaluate_language_quality self = Ok l
        ∧ (clarity_score l == 0)%Q ∧ (conversational_score l == 0)%Q
        ∧ (vocabulary_richness l == 0)%Q ∧ (professionalism_score l == 0)%Q
        ∧ (language_overall_score l == 0)%Q)
  ∧ (∃ d, evaluate_detail_richness self = Ok d
          ∧ (expansion_ratio_score d == 0)%Q ∧ (example_usage_score d == 0)%Q
          ∧ (explanation_quality d == 0)%Q ∧ (context_provision d == 0)%Q
          ∧ (detail_overall_score d == 0)%Q).
Proof.
  destruct self as [slides plan_items script_items]. simpl. intros ->. split.
  - eexists. split; [vm_compute; reflexivity|]. simpl. repeat split; by vm_compute.
  - unfold evaluate_detail_richness.
    destruct (expansion_ratio_empty_script slides plan_items) as (e & -> & He). monad.
    set (self := {| slides_content := slides; plan := plan_items; script := [] |}).
    assert (∃ x, _check_example_usage self = Ok x ∧ (x == 0)%Q) as (x & -> & Hx).
    { eexists. split; [vm_compute; reflexivity|by vm_compute]. }
    assert (∃ y, _evaluate_explanations self = Ok y ∧ (y == 0)%Q) as (y & -> & Hy).
    { eexists. split; [vm_compute; reflexivity|by vm_compute]. }
    assert (∃ z, _evaluate_context self = Ok z ∧ (z == 0)%Q) as (z & -> & Hz).
    { eexists. split; [vm_compute; reflexivity|by vm_compute]. }
    monad. eexists. split; [done|]. simpl. repeat split; try done. qlra.
Qed.

Lemma empty_script_scores_zero_witness :
  let self := {| slides_content := utf8 "Fact checking for language models";
                 plan := [timed_item "60 seconds"]; script := [] |} in
  script self = []
  ∧ ∃ l, evaluate_language_quality self = Ok l ∧ (language_overall_score l == 0)%Q.
Proof.
  intros self. assert (script self = []) as H by done.
  split; [exact H|].
  destruct (proj1 (empty_script_scores_zero self H)) as (l & Hl & _ & _ & _ & _ & Ho).
  exists l. split; [exact Hl|exact Ho].
Defined.

(** ** Construction *)

Lemma lstrip_spaces (ws s : str) :
  Forall (λ c, is_space c = true) ws → lstrip (ws ++ s) = lstrip s.
Proof. induction 1 as [|c ws Hc _ IH]; simpl; [done|]. by rewrite Hc. Qed.

Lemma lstrip_nonspace (c : N) (s : str) : is_space c = false → lstrip (c :: s) = c :: s.
Proof. intros H. simpl. by rewrite H. Qed.

Lemma str_strip_core (ws1 ws2 middle : str) (a b : N) :
  Forall (λ c, is_space c = true) ws1 →
  Forall (λ c, is_space c = true) ws2 →
  is_space a = false → is_space b = false →
  str_strip (ws1 ++ (a :: middle ++ [b]) ++ ws2) = a :: middle ++ [b].
Proof.
  intros H1 H2 Ha Hb. unfold str_strip.
  rewrite (lstrip_spaces ws1 _ H1). cbn [app]. rewrite (lstrip_nonspace a _ Ha).
  change (a :: (middle ++ [b]) ++ ws2) with ((a :: middle ++ [b]) ++ ws2).
  rewrite rev_app_distr. rewrite lstrip_spaces by (by apply Forall_rev).
  change (a :: middle ++ [b]) with ((a :: middle) ++ [b]).
  rewrite rev_app_distr. cbn [rev app]. rewrite (lstrip_nonspace b _ Hb).
  change (b :: rev middle ++ [a]) with ([b] ++ rev (a :: middle)).
  by rewrite rev_app_distr, rev_involutive.
Qed.

Lemma str_startswith_app (p s : str) : str_startswith (p ++ s) p = true.
Proof. apply str_startswith_spec. by exists s. Qed.

Lemma str_endswith_app (s p : str) : str_endswith (s ++ p) p = true.
Proof.
  unfold str_endswith. rewrite rev_app_distr. apply str_startswith_app.
Qed.

Lemma str_startswith_head (c d : N) (s p : str) :
  c ≠ d → str_startswith (c :: s) (d :: p) = false.
Proof. intros H. simpl. by rewrite (proj2 (N.eqb_neq d c)). Qed.

Lemma str_endswith_last (c d : N) (s p : str) :
  c ≠ d → str_endswith (s ++ [c]) (p ++ [d]) = false.
Proof.
  intros H. unfold str_endswith. rewrite !rev_app_distr. by apply str_startswith_head.
Qed.

Lemma head_of_padded (ws rest : str) (a d : N) :
  Forall (λ c, is_space c = true) ws → is_space d = false → a ≠ d →
  ∀ p, str_startswith (ws ++ a :: rest) (d :: p) = false.
Proof.
  intros Hws Hd Had p. destruct Hws as [|c ws Hc _].
  - by apply str_startswith_head.
  - apply str_startswith_head. intros ->. congruence.
Qed.

Lemma fenced_tail (ws2 ws3 inner : str) :
  Forall (λ c, is_space c = true) ws2 →
  Forall (λ c, is_space c = true) ws3 →
  let rest := ws2 ++ (123%N :: inner ++ [125%N]) ++ ws3 ++ utf8 "```" in
  str_strip
    (let after_fence := if str_startswith rest (utf8 "```") then drop 3 rest else rest in
     if str_endswith after_fence (utf8 "```")
     then take (length after_fence - 3) after_fence else after_fence)
  = 123%N :: inner ++ [125%N].
Proof.
  intros H2 H3 rest. cbv zeta.
  assert (str_startswith rest (utf8 "```") = false) as ->.
  { unfold rest. cbn [app]. by apply head_of_padded. }
  assert (rest = (ws2 ++ (123%N :: inner ++ [125%N]) ++ ws3) ++ utf8 "```") as Hrest.
  { unfold rest. by rewrite <- !app_assoc. }
  rewrite Hrest, str_endswith_app.
  rewrite length_app. change (length (utf8 "```")) with 3.
  rewrite Nat.add_sub, take_app_length.
  by apply str_strip_core.
Qed.

(** X12.  A payload body that opens with a brace and closes with one is
    recovered unchanged from a [```json] fence, from a bare [```] fence and
    from no fence at all, whatever white space surrounds the fences and the
    body. *)
Theorem fences_are_transparent (ws1 ws2 ws3 ws4 inner : str) :
  Forall (λ c, is_space c = true) ws1 →
  Forall (λ c, is_space c = true) ws2 →
  Forall (λ c, is_space c = true) ws3 →
  Forall (λ c, is_space c = true) ws4 →
  let body := 123%N :: inner ++ [125%N] in
  strip_fences (ws1 ++ utf8 "```json" ++ ws2 ++ body ++ ws3 ++ utf8 "```" ++ ws4) = body
  ∧ strip_fences (ws1 ++ utf8 "```" ++ ws2 ++ body ++ ws3 ++ utf8 "```" ++ ws4) = body
  ∧ strip_fences (ws1 ++ body ++ ws4) = body.
Proof.
  intros H1 H2 H3 H4 body.
  set (rest := ws2 ++ body ++ ws3 ++ utf8 "```").
  assert (∀ opening : str,
            str_strip (ws1 ++ (96%N :: opening) ++ ws2 ++ body ++ ws3 ++ utf8 "```" ++ ws4)
            = (96%N :: opening) ++ rest) as Hstrip.
  { intros opening.
    replace (ws1 ++ (96%N :: opening) ++ ws2 ++ body ++ ws3 ++ utf8 "```" ++ ws4)
      with (ws1 ++ (96%N :: (opening ++ ws2 ++ body ++ ws3 ++ [96; 96]%N) ++ [96%N]) ++ ws4).
    2:{ change (utf8 "```") with ([96; 96]%N ++ [96%N]). cbn [app].
        by rewrite <- !app_assoc. }
    rewrite str_strip_core by done.
    unfold rest. change (utf8 "```") with ([96; 96]%N ++ [96%N]). cbn [app].
    by rewrite <- !app_assoc. }
  split; [|split].
  - pose proof (Hstrip [96; 96; 106; 115; 111; 110]%N) as Hs.
    change (96%N :: [96; 96; 106; 115; 111; 110]%N) with (utf8 "```json") in Hs.
    unfold strip_fences. cbv zeta. rewrite !Hs.
    rewrite str_startswith_app.
    change (drop 7 (utf8 "```json" ++ rest)) with rest.
    apply (fenced_tail ws2 ws3 inner H2 H3).
  - pose proof (Hstrip [96; 96]%N) as Hs.
    change (96%N :: [96; 96]%N) with (utf8 "```") in Hs.
    unfold strip_fences. cbv zeta. rewrite !Hs.
    assert (str_startswith (utf8 "```" ++ rest) (utf8 "```json") = false) as ->.
    { change (utf8 "```" ++ rest) with (96%N :: 96%N :: 96%N :: rest).
      change (utf8 "```json") with [96; 96; 96; 106; 115; 111; 110]%N.
      cbn [str_startswith]. rewrite !N.eqb_refl. cbn [andb].
      unfold rest, body. cbn [app]. by apply head_of_padded. }
    rewrite str_startswith_app.
    change (drop 3 (utf8 "```" ++ rest)) with rest.
    assert (str_startswith rest (utf8 "```") = false) as Hno.
    { unfold rest, body. cbn [app]. by apply head_of_padded. }
    pose proof (fenced_tail ws2 ws3 inner H2 H3) as Htail. cbv zeta in Htail.
    fold body in Htail. fold rest in Htail. by rewrite Hno in Htail.
  - unfold strip_fences. cbv zeta. unfold body.
    rewrite str_strip_core by done.
    change (utf8 "```json") with [96; 96; 96; 106; 115; 111; 110]%N.
    change (utf8 "```") with ([96; 96]%N ++ [96%N]).
    rewrite str_startswith_head by done. cbn [app].
    rewrite str_startswith_head by done.
    change (123%N :: inner ++ [125%N]) with ((123%N :: inner) ++ [125%N]) at 1.
    change [96; 96; 96]%N with ([96; 96]%N ++ [96%N]).
    rewrite str_endswith_last by done.
    pose proof (str_strip_core [] [] inner 123 125) as Hcore.
    rewrite app_nil_r in Hcore. by apply Hcore.
Qed.

Lemma fences_are_transparent_witness :
  let body := payload "{'plan': [], 'script': []}" in
  strip_fences (utf8 "```json" ++ nl ++ body ++ nl ++ utf8 "```" ++ nl) = body
  ∧ strip_fences (utf8 "```" ++ nl ++ body ++ nl ++ utf8 "```" ++ nl) = body
  ∧ strip_fences (body ++ nl) = body.
Proof.
  apply (fences_are_transparent [] nl nl nl (payload "'plan': [], 'script': []"));
    by repeat constructor.
Defined.

(** ** Feedback *)

Lemma existsb_when (f : str → bool) (c : bool) (m : str) :
  existsb f (when c m) = c && f m.
Proof. destruct c; simpl; [by rewrite orb_false_r|done]. Qed.

Lemma existsb_fallback (f : str → bool) (l : list str) (d : str) :
  f d = false →
  existsb f (match l with [] => [d] | _ :: _ => l end) = existsb f l.
Proof. intros Hd. destruct l; simpl; [by rewrite Hd|done]. Qed.

Lemma str_startswith_long (a b p : str) :
  length p ≤ length a → str_startswith (a ++ b) p = str_startswith a p.
Proof.
  revert a. induction p as [|c p IH]; intros a Hlen.
  - by destruct a, b.
  - destruct a as [|d a]; simpl in *; [lia|]. rewrite IH; [done|lia].
Qed.

Lemma py_int_ok (x : Q) :
  (0 <= x)%Q → (x <= float_max)%Q → py_int x = Ok (Qnum x ÷ Z.pos (Qden x))%Z.
Proof.
  intros H0 Hmax. unfold py_int.
  assert (Qleb (Qabs x) float_max = true) as ->; [|done].
  apply Qleb_true. by rewrite Qabs_pos.
Qed.

Lemma py_int_overflow (x : Q) : (float_max < x)%Q → py_int x = Raise OverflowError.
Proof.
  intros Hover. unfold py_int.
  assert (Qleb (Qabs x) float_max = false) as ->; [|done].
  apply Qleb_false.
  assert (0 <= float_max)%Q by (apply Qle_bool_iff; by vm_compute).
  rewrite Qabs_pos by lra. done.
Qed.

(** The last rule either fails on the seconds of the total time or adds
    its message when the duration score is below 0.6. *)
Lemma duration_issue_cases (results : Results) :
  duration_issue results = Raise OverflowError
  ∨ ∃ tail, duration_issue results
            = Ok (when (Qltb (duration_appropriateness (time_management (dimensions results)))
                             0.6)
                       (utf8 "🟡 [中低优先级] 总时长需调整 - 当前" ++ tail)).
Proof.
  unfold duration_issue. cbv zeta.
  destruct (Qltb (duration_appropriateness (time_management (dimensions results))) 0.6).
  - unfold py_int. destruct (Qleb _ float_max); monad; [right|by left].
    eexists. reflexivity.
  - right. by exists [].
Qed.

Lemma raises_priority_issue (heading : str) (results : Results) :
  str_startswith (utf8 " 整体质量优秀，各项指标均达标，继续保持！") heading = false →
  str_startswith basics_advice heading = false →
  str_startswith polish_advice heading = false →
  raises heading results
  = match priority_issues results with
    | Ok issues => existsb (λ s, str_startswith s heading) issues
    | Raise _ => false
    end.
Proof.
  intros Hclear Hbasics Hpolish. unfold raises, suggestions.
  destruct (priority_issues results) as [issues|e]; monad; [|done].
  rewrite existsb_app.
  rewrite (existsb_fallback (λ s, str_startswith s heading) issues _ Hclear).
  fold basics_advice polish_advice.
  destruct (Qltb (overall_score results) 0.7); cbn [existsb].
  { by rewrite Hbasics, !orb_false_r. }
  destruct (Qltb (overall_score results) 0.85); cbn [existsb].
  { by rewrite Hpolish, !orb_false_r. }
  by rewrite orb_false_r.
Qed.

Ltac closed_tests :=
  repeat match goal with
  | |- context [str_startswith (utf8 ?a) (utf8 ?b)] =>
      let v := eval vm_compute in (str_startswith (utf8 a) (utf8 b)) in
      change (str_startswith (utf8 a) (utf8 b)) with v
  | |- context [bool_decide (utf8 ?a = utf8 ?b)] =>
      let v := eval vm_compute in (bool_decide (utf8 a = utf8 b)) in
      change (bool_decide (utf8 a = utf8 b)) with v
  end;
  rewrite ?andb_false_r, ?andb_true_r, ?orb_false_r, ?orb_false_l.

Lemma no_praise_with_criticism (heading strength : str) (results : Results) :
  (heading, strength) ∈ feedback_pairs →
  raises heading results && praises strength results = false.
Proof.
  intros Hin. unfold feedback_pairs in Hin.
  repeat (apply elem_of_cons in Hin as [Hin|Hin]);
    [injection Hin as -> ->.. | by apply elem_of_nil in Hin].
  all: rewrite raises_priority_issue by (by vm_compute).
  all: unfold priority_issues.
  all: destruct (duration_issue_cases results) as [->|[tail ->]]; monad; [done|].
  all: unfold praises, strengths, fixed_issues; cbv zeta.
  all: rewrite existsb_fallback by (by vm_compute).
  all: rewrite !existsb_app, !existsb_when.
  all: rewrite str_startswith_long by (vm_compute; lia).
  all: closed_tests.
  all: match goal with |- ?a && ?b = false =>
         destruct a eqn:?; destruct b eqn:?; try done end.
  all: bools; lra.
Qed.

(** X13.  No score is both criticised and praised: for each score that has
    a rule in [_generate_suggestions] and a rule in [_generate_strengths],
    the issue and the strength are never issued for the same results,
    whatever the scores are.  Each issue of the table is raised by some
    results and each strength is listed for some. *)
Theorem praise_excludes_criticism (results : Results) :
  Forall (λ '(heading, strength),
            raises heading results && praises strength results = false)
         feedback_pairs
  ∧ Forall (λ '(heading, strength),
              raises heading (uniform_results 0 1) = true
              ∧ praises strength (uniform_results 1 0) = true)
           feedback_pairs.
Proof.
  split.
  - apply Forall_forall. intros [heading strength] Hin.
    by apply no_praise_with_criticism.
  - unfold feedback_pairs.
    repeat (apply Forall_cons; split; [by vm_compute|]). constructor.
Qed.

Lemma evaluate_all_ok_inv (self : SpeechEvaluator) (results : Results) :
  evaluate_all self = Ok results →
  required_keys_present self
  ∧ dimensions_in_range (dimensions results)
  ∧ overall_score results = weighted_sum (dimensions results)
  ∧ grade results = _get_grade (overall_score results)
  ∧ result_weights results = weights.
Proof.
  intros H. destruct (decide (required_keys_present self)) as [Hk|Hk].
  - destruct (evaluate_all_cases self Hk) as [(r & Hr & Hrest)|Hover].
    + rewrite H in Hr. injection Hr as ->. done.
    + by rewrite H in Hover.
  - exfalso. destruct (decide (Forall (λ s, is_Some (script_text s)) (script self)))
      as [Ht|Ht].
    + rewrite evaluate_all_missing_slide in H; [done|done|].
      intros Hs. apply Hk. by split.
    + by rewrite evaluate_all_missing_text in H.
Qed.

(** The total time in the results is the total time of the plan. *)
Lemma total_minutes_of_run (self : SpeechEvaluator) (results : Results) :
  evaluate_all self = Ok results →
  total_minutes (time_management (dimensions results)) = _calculate_total_time self.
Proof.
  intros (_ & _ & _ & _ & Htm & _)%evaluate_all_inv.
  unfold evaluate_time_management in Htm. cbv zeta in Htm.
  destruct (_evaluate_duration_appropriateness _ _); [|done].
  cbn [mbind mret result_bind result_ret] in Htm.
  destruct (_evaluate_pace _); [|done].
  cbn [mbind mret result_bind result_ret] in Htm.
  by injection Htm as <-.
Qed.

(** Within the bound the seconds of the total time are an [int]. *)
Lemma total_seconds_within_bound (self : SpeechEvaluator) :
  durations_bounded self →
  ∃ secs, py_int (_calculate_total_time self * 60) = Ok secs.
Proof.
  intros Hbound. unfold durations_bounded in Hbound.
  pose proof (total_time_nonneg (plan self) 0) as H0.
  fold (_calculate_total_time self) in H0.
  pose proof duration_bound_seconds.
  rewrite py_int_ok by lra. eauto.
Qed.

Lemma suggestions_within_bound (self : SpeechEvaluator) (results : Results) :
  evaluate_all self = Ok results → durations_bounded self →
  ∃ issued, suggestions results = Ok issued.
Proof.
  intros Hrun Hbound. unfold suggestions, priority_issues, duration_issue. cbv zeta.
  rewrite (total_minutes_of_run self results Hrun).
  destruct (total_seconds_within_bound self Hbound) as [secs ->].
  destruct (Qltb _ 0.6); monad; eauto.
Qed.

Lemma issues_open_with (results : Results) (issues : list str) :
  priority_issues results = Ok issues →
  Forall (λ s, head s ≠ Some 10%N) issues.
Proof.
  unfold priority_issues.
  destruct (duration_issue_cases results) as [->|[tail ->]]; monad; [done|].
  intros [= <-]. unfold fixed_issues. cbv zeta.
  repeat (apply Forall_app; split).
  all: match goal with |- Forall _ (when ?c _) => destruct c end.
  all: by repeat constructor.
Qed.

Lemma advice_in_suggestions (advice : str) (results : Results) (issued : list str) :
  head advice = Some 10%N →
  suggestions results = Ok issued →
  advice ∈ issued
  ↔ advice ∈ (if Qltb (overall_score results) 0.7 then [basics_advice]
              else if Qltb (overall_score results) 0.85 then [polish_advice]
              else []).
Proof.
  intros Hhead. unfold suggestions. fold basics_advice polish_advice.
  pose proof (issues_open_with results) as Hissues.
  destruct (priority_issues results) as [issues|e]; monad; [|done].
  intros [= <-]. specialize (Hissues issues eq_refl).
  rewrite elem_of_app. split; [|by right]. intros [Hin|Hin]; [exfalso|done].
  destruct issues as [|issue issues].
  - apply list_elem_of_singleton in Hin. subst advice. by vm_compute in Hhead.
  - rewrite Forall_forall in Hissues. by apply (Hissues advice).
Qed.

(** X14.  The closing remark of the suggestions follows the grade of the
    evaluation: whenever the suggestions are produced, the remark on the
    basics is issued exactly for the grades below C+, the remark on
    polishing exactly for C+, B and B+, and neither for A and A+.  They are
    produced when the planned time is within the binary64 bound. *)
Theorem closing_advice_follows_grade (self : SpeechEvaluator) (results : Results) :
  evaluate_all self = Ok results →
  (durations_bounded self → ∃ issued, suggestions results = Ok issued)
  ∧ ∀ issued, suggestions results = Ok issued →
      (basics_advice ∈ issued ↔ grade_rank (grade results) ≤ 2)
      ∧ (polish_advice ∈ issued ↔ 3 ≤ grade_rank (grade results) ≤ 5).
Proof.
  intros Hrun. split; [by apply suggestions_within_bound|]. intros issued Hissued.
  destruct (evaluate_all_ok_inv self results Hrun) as (_ & _ & _ & -> & _).
  rewrite !(advice_in_suggestions _ results issued) by done.
  unfold _get_grade.
  destruct (Qltb (overall_score results) 0.7) eqn:E1;
    destruct (Qltb (overall_score results) 0.85) eqn:E2;
    repeat match goal with
    | |- context [Qleb ?c (overall_score results)] =>
        destruct (Qleb c (overall_score results)) eqn:?
    end; bools; try (exfalso; lra).
  all: match goal with
       | |- context [grade_rank ?g] =>
           let v := eval vm_compute in (grade_rank g) in
           change (grade_rank g) with v
       end.
  all: rewrite ?list_elem_of_singleton, ?elem_of_nil.
  all: split; split; try lia; try done.
  all: try (intros H; by vm_compute in H).
  all: try (intros [? ?]; lia).
Qed.

Lemma closing_advice_follows_grade_witness :
  durations_bounded five_minute_talk
  ∧ ∃ results issued,
      evaluate_all five_minute_talk = Ok results
      ∧ suggestions results = Ok issued
      ∧ (basics_advice ∈ issued ↔ grade_rank (grade results) ≤ 2)
      ∧ (polish_advice ∈ issued ↔ 3 ≤ grade_rank (grade results) ≤ 5).
Proof.
  assert (durations_bounded five_minute_talk) as Hb
    by (apply Qle_bool_iff; by vm_compute).
  split; [exact Hb|].
  destruct (evaluate_all five_minute_talk) as [results|e] eqn:Hrun; [|by vm_compute in Hrun].
  destruct (closing_advice_follows_grade five_minute_talk results Hrun) as [Hsome Hall].
  destruct (Hsome Hb) as [issued Hissued].
  exists results, issued. split; [done|]. split; [done|]. exact (Hall issued Hissued).
Defined.

(** ** Report *)

Lemma concat_replicate_singleton (c : N) (n : nat) :
  concat (replicate n [c]) = replicate n c.
Proof. induction n as [|n IH]; simpl; [done|by rewrite IH]. Qed.

Lemma bar_cells (score : Q) :
  unit_score score → ∃ cells, bar score = Ok cells ∧ forty_cells score cells.
Proof.
  intros [H0 H1]. unfold bar.
  rewrite py_int_ok; [|lra|].
  2:{ apply Qle_trans with 40%Q; [lra|]. apply Qle_bool_iff. by vm_compute. }
  monad. eexists. split; [done|].
  destruct score as [n d].
  unfold Qle in H0, H1. simpl in H0, H1.
  unfold str_mul.
  change (Qnum ((n # d) * 40)) with (n * 40)%Z.
  change (Qden ((n # d) * 40)) with (d * 1)%positive.
  rewrite Pos.mul_1_r, Z.quot_div_nonneg by lia.
  set (q := (n * 40 / Z.pos d)%Z).
  assert (0 ≤ q)%Z as Hq0 by (apply Z.div_pos; lia).
  assert (q ≤ 40)%Z as Hq40 by (apply Z.div_le_upper_bound; lia).
  assert (Z.pos d * q ≤ n * 40)%Z as Hlow by (apply Z.mul_div_le; lia).
  assert (n * 40 < Z.pos d * Z.succ q)%Z as Hhigh by (apply Z.mul_succ_div_gt; lia).
  exists (Z.to_nat q). split; [lia|]. split.
  - rewrite Z2Nat.id by done. change 1%Q with (inject_Z 1).
    rewrite <- inject_Z_plus. unfold Qle, Qlt. simpl. split; lia.
  - change (utf8 "█") with [9608%N]. change (utf8 "░") with [9617%N].
    rewrite !concat_replicate_singleton, Z2Nat.inj_sub by done. done.
Qed.

Lemma mapM_Forall2 {A B} (f : A → result B) (l : list A) (ys : list B) :
  Forall2 (λ x y, f x = Ok y) l ys → mapM f l = Ok ys.
Proof. induction 1 as [|x y l ys Hx _ IH]; simpl; [done|]. by rewrite Hx, IH. Qed.

Lemma overview_line_ok (results : Results) (key : string) (weight score : Q)
    (cells name : str) :
  dimension_overall_score (dimensions results) key = Ok score →
  bar score = Ok cells →
  name_map key = Ok name →
  overview_line results (key, weight)
  = Ok (format_s 8 name ++ utf8 " (" ++ format_percent 0 weight ++ utf8 ") ["
        ++ cells ++ utf8 "] " ++ format_percent 1 score ++ nl).
Proof.
  intros Hs Hb Hn. unfold overview_line. rewrite Hs. monad. rewrite Hb. monad.
  by rewrite Hn.
Qed.

Lemma str_in_mid (sub a x b : str) :
  str_in sub x = true → str_in sub (a ++ x ++ b) = true.
Proof.
  rewrite !str_in_spec. intros (l & r & ->). exists (a ++ l), (r ++ b).
  by rewrite <- !app_assoc.
Qed.

Lemma str_in_concat (sub x : str) (pieces : list str) :
  x ∈ pieces → str_in sub x = true → str_in sub (concat pieces) = true.
Proof.
  intros Hin Hx. apply list_elem_of_split in Hin as (before & after & ->).
  rewrite concat_app. simpl. apply (str_in_mid sub (concat before) x (concat after) Hx).
Qed.

Lemma overview_line_shows_bar (name cells : str) (weight score : Q) :
  str_in (utf8 "[" ++ cells ++ utf8 "]")
         (format_s 8 name ++ utf8 " (" ++ format_percent 0 weight ++ utf8 ") ["
          ++ cells ++ utf8 "] " ++ format_percent 1 score ++ nl) = true.
Proof.
  apply str_in_spec.
  exists (format_s 8 name ++ utf8 " (" ++ format_percent 0 weight ++ utf8 ") "),
         (utf8 " " ++ format_percent 1 score ++ nl).
  change (utf8 ") [") with (utf8 ") " ++ utf8 "[").
  change (utf8 "] ") with (utf8 "]" ++ utf8 " ").
  by rewrite <- !app_assoc.
Qed.

(** The overview of a completed evaluation: one line for each weight, with
    the bar of the dimension. *)
Lemma overview_of_results (results : Results) :
  result_weights results = weights →
  dimensions_in_range (dimensions results) →
  ∃ overview,
    mapM (overview_line results) (result_weights results) = Ok overview
    ∧ Forall (λ key, ∃ score cells,
                dimension_overall_score (dimensions results) key = Ok score
                ∧ bar score = Ok cells
                ∧ forty_cells score cells
                ∧ str_in (utf8 "[" ++ cells ++ utf8 "]") (concat overview) = true)
             (map fst weights).
Proof.
  intros ->
    ((_ & _ & _ & _ & _ & Hc) & (_ & _ & _ & _ & Hs) & (_ & _ & _ & _ & Hl)
     & (_ & _ & _ & _ & Hd) & (_ & _ & _ & _ & Ht)).
  destruct (bar_cells _ Hc) as (c1 & Hb1 & Hf1).
  destruct (bar_cells _ Hs) as (c2 & Hb2 & Hf2).
  destruct (bar_cells _ Hl) as (c3 & Hb3 & Hf3).
  destruct (bar_cells _ Hd) as (c4 & Hb4 & Hf4).
  destruct (bar_cells _ Ht) as (c5 & Hb5 & Hf5).
  eexists. split.
  - apply mapM_Forall2. unfold weights.
    apply List.Forall2_cons; [eapply overview_line_ok; [reflexivity|exact Hb1|reflexivity]|].
    apply List.Forall2_cons; [eapply overview_line_ok; [reflexivity|exact Hb2|reflexivity]|].
    apply List.Forall2_cons; [eapply overview_line_ok; [reflexivity|exact Hb3|reflexivity]|].
    apply List.Forall2_cons; [eapply overview_line_ok; [reflexivity|exact Hb4|reflexivity]|].
    apply List.Forall2_cons; [eapply overview_line_ok; [reflexivity|exact Hb5|reflexivity]|].
    apply List.Forall2_nil.
  - unfold weights. cbn [map fst].
    assert (∀ (x : str) (l : list str) (cells : str),
              x ∈ l → (∃ a b, x = a ++ (utf8 "[" ++ cells ++ utf8 "]") ++ b) →
              str_in (utf8 "[" ++ cells ++ utf8 "]") (concat l) = true) as Hshow.
    { intros x l cells Hin (a & b & ->). apply (str_in_concat _ _ l Hin).
      apply str_in_spec. by exists a, b. }
    assert (∀ name cells weight score,
              ∃ a b, format_s 8 name ++ utf8 " (" ++ format_percent 0 weight ++ utf8 ") ["
                     ++ cells ++ utf8 "] " ++ format_percent 1 score ++ nl
                     = a ++ (utf8 "[" ++ cells ++ utf8 "]") ++ b) as Hline.
    { intros name cells weight score.
      apply str_in_spec, overview_line_shows_bar. }
    apply List.Forall_cons.
    { eexists _, c1. split; [reflexivity|]. split; [exact Hb1|]. split; [exact Hf1|].
      eapply Hshow; [apply list_elem_of_here|apply Hline]. }
    apply List.Forall_cons.
    { eexists _, c2. split; [reflexivity|]. split; [exact Hb2|]. split; [exact Hf2|].
      eapply Hshow; [apply list_elem_of_further, list_elem_of_here|apply Hline]. }
    apply List.Forall_cons.
    { eexists _, c3. split; [reflexivity|]. split; [exact Hb3|]. split; [exact Hf3|].
      eapply Hshow; [do 2 apply list_elem_of_further; apply list_elem_of_here|apply Hline]. }
    apply List.Forall_cons.
    { eexists _, c4. split; [reflexivity|]. split; [exact Hb4|]. split; [exact Hf4|].
      eapply Hshow; [do 3 apply list_elem_of_further; apply list_elem_of_here|apply Hline]. }
    apply List.Forall_cons.
    { eexists _, c5. split; [reflexivity|]. split; [exact Hb5|]. split; [exact Hf5|].
      eapply Hshow; [do 4 apply list_elem_of_further; apply list_elem_of_here|apply Hline]. }
    apply List.Forall_nil.
Qed.

Lemma generate_suggestions_within_bound (self : SpeechEvaluator) (results : Results) :
  evaluate_all self = Ok results → durations_bounded self →
  ∃ text, _generate_suggestions results = Ok text.
Proof.
  intros Hrun Hbound. unfold _generate_suggestions.
  destruct (suggestions_within_bound self results Hrun Hbound) as [issued ->].
  monad. eauto.
Qed.

Lemma generate_report_of (self : SpeechEvaluator) (results : Results) (overview : list str) :
  evaluate_all self = Ok results →
  durations_bounded self →
  mapM (overview_line results) (result_weights results) = Ok overview →
  ∃ pieces, generate_report self = Ok (concat pieces) ∧ concat overview ∈ pieces.
Proof.
  intros Hrun Hbound Hoverview. unfold generate_report. rewrite Hrun. monad.
  cbv zeta. rewrite (total_minutes_of_run self results Hrun).
  destruct (total_seconds_within_bound self Hbound) as [secs ->]. monad.
  rewrite Hoverview. monad.
  destruct (generate_suggestions_within_bound self results Hrun Hbound) as [text ->].
  monad. eexists. split; [reflexivity|].
  repeat first [apply list_elem_of_here | apply list_elem_of_further].
Qed.

(** X15.  When the items carry the keys the evaluator subscripts and the
    planned time is within the binary64 bound, the report is produced, and for
    each of the five dimensions it shows, between brackets, a bar of exactly
    forty cells: the filled cells first, as many as the integer part of forty
    times the score of the dimension. *)
Theorem report_bars_have_forty_cells (self : SpeechEvaluator) :
  required_keys_present self →
  durations_bounded self →
  ∃ results report,
    evaluate_all self = Ok results
    ∧ generate_report self = Ok report
    ∧ Forall (λ key, ∃ score cells,
                dimension_overall_score (dimensions results) key = Ok score
                ∧ bar score = Ok cells
                ∧ forty_cells score cells
                ∧ str_in (utf8 "[" ++ cells ++ utf8 "]") report = true)
             (map fst weights).
Proof.
  intros Hkeys Hbound.
  destruct (evaluate_all_complete self Hkeys Hbound)
    as (results & Hrun & Hrange & _ & _ & Hw).
  destruct (overview_of_results results Hw Hrange) as (overview & Hoverview & Hbars).
  destruct (generate_report_of self results overview Hrun Hbound Hoverview)
    as (pieces & Hreport & Hin).
  exists results, (concat pieces). split; [done|]. split; [done|].
  eapply Forall_impl; [exact Hbars|].
  intros key (score & cells & Hscore & Hbar & Hforty & Hshown).
  exists score, cells. split; [done|]. split; [done|]. split; [done|].
  by apply (str_in_concat _ (concat overview)).
Qed.

Lemma report_bars_have_forty_cells_witness :
  required_keys_present five_minute_talk
  ∧ durations_bounded five_minute_talk
  ∧ ∃ results report,
      evaluate_all five_minute_talk = Ok results
      ∧ generate_report five_minute_talk = Ok report
      ∧ Forall (λ key, ∃ score cells,
                  dimension_overall_score (dimensions results) key = Ok score
                  ∧ bar score = Ok cells
                  ∧ forty_cells score cells
                  ∧ str_in (utf8 "[" ++ cells ++ utf8 "]") report = true)
               (map fst weights).
Proof.
  assert (required_keys_present five_minute_talk) as H by (repeat constructor; simpl; eauto).
  assert (durations_bounded five_minute_talk) as Hb
    by (apply Qle_bool_iff; by vm_compute).
  split; [exact H|]. split; [exact Hb|].
  exact (report_bars_have_forty_cells five_minute_talk H Hb).
Defined.

(** X16.  Within the binary64 bound on the planned time, producing the
    report adds no failure of its own: [generate_report] raises exactly the
    exceptions [evaluate_all] raises, and returns a report whenever the
    evaluation completes.  Beyond the range it does: when the seconds of the
    planned time are no finite float, the report of a plan that has every key
    raises [OverflowError], also when the evaluation completes. *)
Theorem report_raises_what_evaluation_raises (self : SpeechEvaluator) :
  (durations_bounded self →
   (∀ e, generate_report self = Raise e ↔ evaluate_all self = Raise e)
   ∧ is_ok (generate_report self) = is_ok (evaluate_all self))
  ∧ (required_keys_present self →
     (float_max < _calculate_total_time self * 60)%Q →
     generate_report self = Raise OverflowError).
Proof.
  split.
  - intros Hbound. destruct (evaluate_all self) as [results|e'] eqn:Hrun.
    + destruct (evaluate_all_ok_inv self results Hrun) as (_ & Hrange & _ & _ & Hw).
      destruct (overview_of_results results Hw Hrange) as (overview & Hoverview & _).
      destruct (generate_report_of self results overview Hrun Hbound Hoverview)
        as (pieces & -> & _).
      split; [|done]. intros e. split; discriminate.
    + unfold generate_report. rewrite Hrun. monad. split; [|done].
      intros e. split; by intros [= ->].
  - intros Hkeys Hover. unfold generate_report.
    destruct (evaluate_all_cases self Hkeys) as [(results & -> & _)| ->]; monad; [|done].
    cbv zeta. by rewrite (py_int_overflow _ Hover).
Qed.

Lemma report_raises_what_evaluation_raises_witness :
  let endless :=
    {| slides_content := utf8 "Results";
       plan := [keyed_item 1 ("1" +:+ zeros 310 +:+ " min")];
       script := [spoken 1 "Here are the results."] |} in
  (durations_bounded five_minute_talk
   ∧ is_ok (generate_report five_minute_talk) = is_ok (evaluate_all five_minute_talk))
  ∧ (required_keys_present endless
     ∧ (float_max < _calculate_total_time endless * 60)%Q
     ∧ is_ok (evaluate_all endless) = true
     ∧ generate_report endless = Raise OverflowError).
Proof.
  intros endless. split.
  - assert (durations_bounded five_minute_talk) as Hb
      by (apply Qle_bool_iff; by vm_compute).
    split; [exact Hb|].
    exact (proj2 (proj1 (report_raises_what_evaluation_raises five_minute_talk) Hb)).
  - assert (required_keys_present endless) as Hk by (repeat constructor; simpl; eauto).
    assert (float_max < _calculate_total_time endless * 60)%Q as Ho by (by vm_compute).
    split; [exact Hk|]. split; [exact Ho|]. split; [by vm_compute|].
    exact (proj2 (report_raises_what_evaluation_raises endless) Hk Ho).
Defined.

(** ** Durations that open with a whole number *)





















(** ** A speech that reads the slides *)

Lemma findall_go_substrings (r : regex) (s : str) :
  ∀ (prev : option N) (skip : nat) (m : str),
    m ∈ findall_go r prev s skip → ∃ l t, s = l ++ m ++ t.
Proof.
  induction s as [|c s IH]; intros prev skip m Hin.
  { by apply elem_of_nil in Hin. }
  cbn [findall_go] in Hin. destruct skip as [|n].
  - destruct (match_at r prev (c :: s)) as [rest|].
    + apply elem_of_cons in Hin as [->|Hin].
      * exists [], (drop (length (c :: s) - length rest) (c :: s)).
        by rewrite app_nil_l, take_drop.
      * destruct (IH _ _ _ Hin) as (l & t & ->). by exists (c :: l), t.
    + destruct (IH _ _ _ Hin) as (l & t & ->). by exists (c :: l), t.
  - destruct (IH _ _ _ Hin) as (l & t & ->). by exists (c :: l), t.
Qed.

(** What [findall] returns is in the text. *)
Lemma findall_substring (r : regex) (s m : str) :
  m ∈ findall r s → str_in m s = true.
Proof. intros Hin. apply str_in_spec. by apply (findall_go_substrings r s None 0). Qed.

Lemma length_filter_all {A} (f : A → bool) (l : list A) :
  Forall (λ x, f x = true) l → length (filter (λ x, f x) l) = length l.
Proof.
  induction 1 as [|x l Hx _ IH]; [done|].
  rewrite filter_cons. destruct (decide (f x)) as [_|Hn]; [by rewrite length_cons, IH|].
  by rewrite Hx in Hn.
Qed.

Lemma Qnat_nonzero (n : nat) : n ≠ 0 → ¬ (Qnat n == 0)%Q.
Proof. intros Hn Hz. apply Qnum_zero in Hz. unfold Qnat in Hz. simpl in Hz. lia. Qed.

Lemma coverage_of_itself (x : items) :
  ∃ v, _calculate_coverage x x = Ok v ∧ (v == 1)%Q.
Proof.
  unfold _calculate_coverage. destruct (items_empty x) eqn:E.
  { by exists 1%Q. }
  destruct x as [c|s]; simpl in E; apply bool_decide_eq_false in E.
  - destruct (coverage_value (dom c) (dom c)) as (v & -> & Hone & _).
    { intros Hd. apply E. by apply dom_empty_inv_L. }
    exists v. split; [done|]. by apply Hone.
  - destruct (coverage_value s s E) as (v & -> & Hone & _).
    exists v. split; [done|]. by apply Hone.
Qed.

Lemma no_risk_against_itself (keywords : gmap str nat) :
  ∃ v, _detect_hallucination_risk keywords keywords = Ok v ∧ (v == 0)%Q.
Proof.
  unfold _detect_hallucination_risk. case_bool_decide as E.
  { by exists 0%Q. }
  rewrite difference_diag_L, size_empty.
  rewrite py_div_ok.
  - monad. change (Qnat 0) with 0%Q.
    assert (Qleb (0 / Qnat (size keywords)) 0.3 = true) as ->.
    { apply Qleb_true. unfold Qdiv. rewrite Qmult_0_l. lra. }
    eexists. split; [done|]. unfold Qdiv. by rewrite !Qmult_0_l.
  - apply Qnat_nonzero. by apply map_size_non_empty_iff.
Qed.

Lemma facts_of_itself (self : SpeechEvaluator) :
  speech_text_of self = Ok (slides_content self) →
  ∃ v, _check_fact_consistency self = Ok v ∧ (v == 1)%Q.
Proof.
  intros Htext. unfold _check_fact_consistency. rewrite Htext. monad. cbv zeta.
  set (numbers := findall fact_number_re (slides_content self)).
  set (names := findall fact_name_re (slides_content self)).
  destruct (length numbers + length names =? 0) eqn:E.
  { by exists 1%Q. }
  apply Nat.eqb_neq in E.
  rewrite (length_filter_all (λ num, str_in num (slides_content self)) numbers).
  2:{ apply Forall_forall. intros m Hm. by apply (findall_substring fact_number_re). }
  rewrite (length_filter_all (λ name, str_in name (slides_content self)) names).
  2:{ apply Forall_forall. intros m Hm. by apply (findall_substring fact_name_re). }
  rewrite py_div_ok by (by apply Qnat_nonzero).
  eexists. split; [done|]. cbn [Nat.add]. field. by apply Qnat_nonzero.
Qed.

(** X18.  A script whose text is the slide text itself agrees with the
    slides on every count that compares the two texts: keyword coverage,
    concept coverage and fact accuracy are 1 and the hallucination risk is 0,
    so that the content score is at least 0.8 whatever the titles are. *)
Theorem verbatim_speech_is_consistent (self : SpeechEvaluator) :
  speech_text_of self = Ok (slides_content self) →
  ∃ c, evaluate_content_consistency self = Ok c
       ∧ (keyword_coverage c == 1)%Q ∧ (concept_coverage c == 1)%Q
       ∧ (fact_accuracy c == 1)%Q ∧ (hallucination_risk_score c == 0)%Q
       ∧ (0.8 <= content_overall_score c)%Q.
Proof.
  intros Htext.
  assert (texts_present self) as Htexts.
  { destruct (decide (Forall (λ s, is_Some (script_text s)) (script self))) as [H|H];
      [done|]. by rewrite speech_text_of_missing in Htext. }
  unfold evaluate_content_consistency. rewrite Htext. monad.
  destruct (coverage_of_itself (ICounter (_extract_keywords (slides_content self))))
    as (kc & -> & Hkc).
  destruct (coverage_of_itself (ISet (_extract_key_concepts (slides_content self))))
    as (cc & -> & Hcc).
  destruct (_check_slide_title_coverage_unit self Htexts) as (tc & -> & Htc0 & Htc1).
  destruct (no_risk_against_itself (_extract_keywords (slides_content self)))
    as (hr & -> & Hhr).
  destruct (facts_of_itself self Htext) as (fa & -> & Hfa).
  monad. eexists. split; [done|]. cbn [keyword_coverage concept_coverage fact_accuracy
    hallucination_risk_score content_overall_score].
  repeat split; try done. rewrite Hkc, Hcc, Hhr, Hfa. qlra.
Qed.

Lemma verbatim_speech_is_consistent_witness :
  let self := one_slide_talk "Results of 2024: 95% by Ada Lovelace" "Results"
                             "Results of 2024: 95% by Ada Lovelace" in
  speech_text_of self = Ok (slides_content self)
  ∧ ∃ c, evaluate_content_consistency self = Ok c
         ∧ (keyword_coverage c == 1)%Q ∧ (concept_coverage c == 1)%Q
         ∧ (fact_accuracy c == 1)%Q ∧ (hallucination_risk_score c == 0)%Q
         ∧ (0.8 <= content_overall_score c)%Q.
Proof.
  intros self.
  assert (speech_text_of self = Ok (slides_content self)) as H
    by (vm_compute; reflexivity).
  split; [exact H|]. exact (verbatim_speech_is_consistent self H).
Defined.

(** ** Titles of short words *)

Lemma title_covered_short (speech_text title : str) :
  short_worded title → title_covered speech_text title = false.
Proof.
  intros (_ & Hne & Hshort). unfold title_covered. cbv zeta.
  set (title_words := findall word_re (str_lower title)) in *.
  assert (filter (λ word, str_in word speech_text && (3 <? length word)) title_words = [])
    as ->.
  { clear Hne. induction Hshort as [|w ws Hw _ IH]; [done|].
    rewrite filter_cons, IH.
    assert ((3 <? length w) = false) as Hlt by (apply Nat.ltb_ge; lia).
    rewrite Hlt, andb_false_r. done. }
  apply Qleb_false. change (Qnat (length (@nil str))) with 0%Q.
  assert (0 < Qnat (length title_words))%Q.
  { apply Qnat_pos. destruct title_words; [done|simpl; lia]. }
  apply Qlt_shift_div_l; lra.
Qed.

Lemma fold_count_none {A} (f : A → bool) (l : list A) (k : nat) :
  Forall (λ x, f x = false) l →
  fold_left (λ n x, if f x then S n else n) l k = k.
Proof.
  intros H. revert k. induction H as [|x l Hx _ IH]; intros k; [done|].
  cbn [fold_left]. by rewrite Hx, IH.
Qed.

(** X19.  A title of ASCII and CJK characters all of whose words have three
    characters at most is never counted as covered, whatever the speech says,
    a speech that repeats the title included: a plan whose titles are all of
    this kind has slide title coverage 0. *)
Theorem short_word_titles_are_never_covered (self : SpeechEvaluator) :
  texts_present self →
  titles_of self ≠ [] →
  Forall short_worded (titles_of self) →
  ∃ v, _check_slide_title_coverage self = Ok v ∧ (v == 0)%Q.
Proof.
  intros [t Ht]%speech_text_of_ok Hne Hshort. unfold _check_slide_title_coverage.
  fold (titles_of self). cbv zeta.
  destruct (titles_of self) as [|title titles] eqn:E; [done|].
  rewrite Ht. monad.
  rewrite fold_count_none.
  - rewrite py_div_ok by (by apply Qnat_nonzero).
    eexists. split; [done|]. unfold Qdiv. change (Qnat 0) with 0%Q. by rewrite Qmult_0_l.
  - eapply Forall_impl; [exact Hshort|]. intros x Hx. by apply title_covered_short.
Qed.

Lemma short_word_titles_are_never_covered_witness :
  let self := one_slide_talk "Q and A" "Q and A" "Now the Q and A." in
  texts_present self ∧ titles_of self ≠ [] ∧ Forall short_worded (titles_of self)
  ∧ ∃ v, _check_slide_title_coverage self = Ok v ∧ (v == 0)%Q.
Proof.
  intros self.
  assert (texts_present self) as H1 by (repeat constructor; simpl; eauto).
  assert (titles_of self ≠ []) as H2 by (by vm_compute).
  assert (Forall short_worded (titles_of self)) as H3.
  { apply List.Forall_cons; [|apply List.Forall_nil]. split; [|split; [by vm_compute|]].
    - vm_compute. repeat (apply List.Forall_cons; [reflexivity|]). apply List.Forall_nil.
    - vm_compute. repeat (apply List.Forall_cons; [simpl; lia|]). apply List.Forall_nil. }
  split; [exact H1|]. split; [exact H2|]. split; [exact H3|].
  exact (short_word_titles_are_never_covered self H1 H2 H3).
Defined.
